(** * Balloon and hazard tracker: extraction, merge, classification, navigation

    A shallow embedding of the data-handling code of the tracker:

    - [utils/balloonData.ts]: [safeNumber], [extractBalloonPositions],
      [extractAllBalloonPositions], [extractBalloonPositionsLimited];
    - [api/balloon.ts]: [fetchBalloonHour], [fetchLast24Hours],
      [fetchCurrentHour]; [hooks/useBalloonData.ts] and [App.tsx], which
      feed them to the extraction;
    - [components/BalloonMap.tsx]: [FitBounds], [MapController],
      [getAlertStyle], [getAlertHoverStyle], [validAlerts], [sortedAlerts],
      [center], [getSeverityColor], the colours of the list and of the
      popups.

    The code is JavaScript over values of type [any], so the embedding starts
    with the part of the language the code relies on: JSON values, IEEE 754
    doubles, property access, truthiness, [parseFloat], [toLowerCase],
    completions that are normal or abrupt, and insertion-ordered maps. *)

From Stdlib Require Import ZArith List String Ascii Bool Lia Arith.
From Stdlib Require Import SpecFloat DecimalString Sorting.Permutation Sorting.Sorted.
From Stdlib Require DecimalNat DecimalFacts.
Import ListNotations.

Set Warnings "-register-all".

(* ================================================================== *)
(** * The JavaScript layer *)
(* ================================================================== *)
Module Js.

(** ** Numbers

    A JavaScript number is an IEEE 754 binary64 value: [spec_float] with a
    53-bit significand and exponent bound 1024.  Arithmetic and comparisons
    are the ones of the standard's specification, rounding to nearest even. *)

Definition number : Type := spec_float.

Definition prec : Z := 53.
Definition emax : Z := 1024.

Definition NaN : number := S754_nan.
Definition Infinity : number := S754_infinity false.

(** The double of an integer literal such as [90] or [-180]. *)
Definition num_of_Z (z : Z) : number := binary_normalize prec emax z 0 false.

(** The double of an array length or an array index. *)
Definition num_of_nat (n : nat) : number := num_of_Z (Z.of_nat n).

Definition add (x y : number) : number := SFadd prec emax x y.
Definition div (x y : number) : number := SFdiv prec emax x y.

(** [x < y], [x <= y], [x > y], [x >= y]: false as soon as an operand is NaN. *)
Definition lt (x y : number) : bool := SFltb x y.
Definition le (x y : number) : bool := SFleb x y.
Definition gt (x y : number) : bool := SFltb y x.
Definition ge (x y : number) : bool := SFleb y x.

(** The global [isNaN] and [isFinite] on a number. *)
Definition isNaN (x : number) : bool :=
  match x with S754_nan => true | _ => false end.

Definition isFinite (x : number) : bool :=
  match x with S754_nan | S754_infinity _ => false | _ => true end.

Definition is_zero (x : number) : bool :=
  match x with S754_zero _ => true | _ => false end.

(** ** Strings

    A string is a sequence of code units; the model keeps the code units
    below 256 (Latin-1), which [string] holds one per character. *)

Definition code (c : ascii) : nat := nat_of_ascii c.

Definition is_digit (c : ascii) : bool :=
  (48 <=? code c)%nat && (code c <=? 57)%nat.

Definition digit_val (c : ascii) : Z := Z.of_nat (code c - 48).

(** White space and line terminators that [parseFloat] strips: TAB, LF, VT,
    FF, CR, SP and NBSP (the ones below 256). *)
Definition is_space (c : ascii) : bool :=
  let n := code c in
  ((9 <=? n)%nat && (n <=? 13)%nat) || (n =? 32)%nat || (n =? 160)%nat.

(** [String.prototype.toLowerCase] on one code unit: A-Z, and the Latin-1
    capitals 192-222 except the multiplication sign 215. *)
Definition lower_char (c : ascii) : ascii :=
  let n := code c in
  if ((65 <=? n)%nat && (n <=? 90)%nat)
     || ((192 <=? n)%nat && (n <=? 222)%nat && negb (n =? 215)%nat)
  then ascii_of_nat (n + 32) else c.

Fixpoint toLowerCase (s : string) : string :=
  match s with
  | EmptyString => EmptyString
  | String c r => String (lower_char c) (toLowerCase r)
  end.

(** Decimal rendering of an array index or counter inside a template
    literal. *)
Definition string_of_nat (n : nat) : string :=
  NilZero.string_of_uint (Nat.to_uint n).

(** ** parseFloat

    [parseFloat] trims leading white space and reads the longest prefix that
    is a [StrDecimalLiteral]: an optional sign, then [Infinity] or decimal
    digits with an optional fraction and an optional exponent.  What follows
    the prefix is ignored; without such a prefix the result is NaN. *)

Fixpoint trim_start (s : string) : string :=
  match s with
  | String c r => if is_space c then trim_start r else s
  | EmptyString => s
  end.

(** Reads a run of decimal digits: their count, the number they spell after
    the digits already in [acc], and the rest of the string. *)
Fixpoint scan_digits (s : string) (count : nat) (acc : Z) : nat * Z * string :=
  match s with
  | String c r =>
      if is_digit c then scan_digits r (S count) (10 * acc + digit_val c)
      else (count, acc, s)
  | EmptyString => (count, acc, s)
  end.

(** An optional sign. *)
Definition read_sign (t : string) : bool * string :=
  match t with
  | String c r =>
      if (code c =? 45)%nat then (true, r)
      else if (code c =? 43)%nat then (false, r)
      else (false, t)
  | EmptyString => (false, t)
  end.

Definition is_exp_mark (c : ascii) : bool :=
  (code c =? 101)%nat || (code c =? 69)%nat.

(** [ExponentPart]: [e] or [E], an optional sign, at least one digit.  When
    the text is not an exponent the literal ends before it. *)
Definition scan_exponent (s : string) : Z :=
  match s with
  | String c r =>
      if is_exp_mark c then
        let '(neg, digits) := read_sign r in
        let '(count, v, _) := scan_digits digits 0 0%Z in
        if (count =? 0)%nat then 0%Z else if neg then (- v)%Z else v
      else 0%Z
  | EmptyString => 0%Z
  end.

(** The double nearest to [m * 10^k] (ties to even), with sign [neg]. *)
Definition round_decimal (neg : bool) (m k : Z) : number :=
  match m with
  | Z0 => S754_zero neg
  | Zneg _ => S754_nan
  | Zpos _ =>
      if (0 <=? k)%Z then
        binary_round prec emax neg (Z.to_pos (m * 10 ^ k)) 0
      else
        let '(q, e, l) := SFdiv_core_binary prec emax m 0 (10 ^ (- k)) 0 in
        binary_round_aux prec emax neg q e l
  end.

(** An optional fraction: a dot and the digits after it, read on top of
    the integer part. *)
Definition read_fraction (int_part : Z) (r1 : string) : nat * Z * string :=
  match r1 with
  | String c r =>
      if (code c =? 46)%nat then scan_digits r 0 int_part
      else (0%nat, int_part, r1)
  | EmptyString => (0%nat, int_part, r1)
  end.

(** [StrUnsignedDecimalLiteral]: [Infinity], or digits with at least one
    digit before or after the dot. *)
Definition read_unsigned (neg : bool) (u : string) : number :=
  if prefix "Infinity" u then S754_infinity neg
  else
    let '(ni, int_part, r1) := scan_digits u 0 0%Z in
    let '(nf, mantissa, r2) := read_fraction int_part r1 in
    if ((ni + nf) =? 0)%nat then NaN
    else round_decimal neg mantissa (scan_exponent r2 - Z.of_nat nf).

Definition parseFloat (input : string) : number :=
  let '(neg, u) := read_sign (trim_start input) in
  read_unsigned neg u.

(** ** Values

    What [JSON.parse] produces, plus [undefined]. An object is the list of
    its own properties; an array is the list of its elements. *)

Inductive value : Type :=
| Undefined
| Null
| Bool (b : bool)
| Num (n : number)
| Str (s : string)
| Arr (items : list value)
| Obj (fields : list (string * value)).

Definition typeof (v : value) : string :=
  match v with
  | Undefined => "undefined"
  | Null => "object"
  | Bool _ => "boolean"
  | Num _ => "number"
  | Str _ => "string"
  | Arr _ => "object"
  | Obj _ => "object"
  end.

(** [ToBoolean]: what [!v], [v && ...] and [v || ...] test. *)
Definition truthy (v : value) : bool :=
  match v with
  | Undefined | Null => false
  | Bool b => b
  | Num n => negb (is_zero n || isNaN n)
  | Str s => negb (String.eqb s "")
  | Arr _ | Obj _ => true
  end.

Definition nullish (v : value) : bool :=
  match v with Undefined | Null => true | _ => false end.

Definition isArray (v : value) : bool :=
  match v with Arr _ => true | _ => false end.

(** [a ?? b] and [a || b]. *)
Definition coalesce (a b : value) : value := if nullish a then b else a.
Definition or_else (a b : value) : value := if truthy a then a else b.

(** ** Property access *)

Fixpoint lookup (k : string) (fields : list (string * value)) : value :=
  match fields with
  | [] => Undefined
  | (k', v) :: rest => if String.eqb k k' then v else lookup k rest
  end.

(** A key that is a canonical array index: the decimal rendering of a
    natural number. *)
Definition index_of_key (k : string) : option nat :=
  let '(count, v, rest) := scan_digits k 0 0%Z in
  let n := Z.to_nat v in
  if String.eqb (string_of_nat n) k then Some n else None.

Definition char_at (s : string) (i : nat) : value :=
  match String.get i s with
  | Some c => Str (String c EmptyString)
  | None => Undefined
  end.

(** [v[k]] for a value that is neither [null] nor [undefined].  Own
    properties only: none of the names the code reads ([lat], [balloons],
    [properties], [severity], ...) is inherited from a prototype. *)
Definition get_own (v : value) (k : string) : value :=
  match v with
  | Obj fields => lookup k fields
  | Arr items =>
      if String.eqb k "length" then Num (num_of_nat (List.length items))
      else match index_of_key k with
           | Some i => nth i items Undefined
           | None => Undefined
           end
  | Str s =>
      if String.eqb k "length" then Num (num_of_nat (String.length s))
      else match index_of_key k with
           | Some i => char_at s i
           | None => Undefined
           end
  | _ => Undefined
  end.

(** ** Completions

    A JavaScript computation completes normally with a value or abruptly
    with a thrown error. *)

Inductive error : Type :=
| TypeError (msg : string)
| Error (msg : string).

Inductive completion (A : Type) : Type :=
| Normal (a : A)
| Throw (e : error).

Arguments Normal {A} a.
Arguments Throw {A} e.

(** [v.k] and [v[k]]: a TypeError on [null] and [undefined]. *)
Definition get (v : value) (k : string) : completion value :=
  if nullish v then Throw (TypeError "Cannot read properties of null or undefined")
  else Normal (get_own v k).

(** [v?.k] and [v?.[k]]. *)
Definition opt_get (v : value) (k : string) : value :=
  if nullish v then Undefined else get_own v k.

End Js.

(* ================================================================== *)
(** * utils/balloonData.ts *)
(* ================================================================== *)
Module BalloonData.
Import Js.
Local Open Scope string_scope.

(** [interface BalloonPosition]; [hourIndex] is an array index. *)
Record BalloonPosition : Type := {
  id : string;
  lat : number;
  lon : number;
  altitude : option number;
  timestamp : option number;
  hourIndex : option nat
}.

(** [safeNumber(value: any): number | null]. *)
Definition safeNumber (v : value) : option number :=
  match v with
  | Num n =>                       (* typeof value === 'number' *)
      if negb (isNaN n) then Some n else None
  | Str s =>                       (* typeof value === 'string' *)
      let parsed := parseFloat s in
      if negb (isNaN parsed) && isFinite parsed then Some parsed else None
  | _ => None
  end.

(** ** Statements that push onto [positions]

    The body of [extractBalloonPositions] mutates the local array
    [positions] and sits in a [try] block: a statement takes the array and
    gives a completion together with the array as it left it. *)

Definition M (A : Type) : Type :=
  list BalloonPosition -> completion A * list BalloonPosition.

Definition ret {A} (a : A) : M A := fun ps => (Normal a, ps).

Definition bind {A B} (c : M A) (k : A -> M B) : M B :=
  fun ps =>
    match c ps with
    | (Normal a, ps') => k a ps'
    | (Throw e, ps') => (Throw e, ps')
    end.

Definition lift {A} (c : completion A) : M A := fun ps => (c, ps).

(** [positions.push(p)]. *)
Definition push (p : BalloonPosition) : M unit :=
  fun ps => (Normal tt, (ps ++ [p])%list).

(** [try { body } catch (error) { handler }]: the array keeps what was
    pushed before the throw. *)
Definition try_catch (body : M unit) (handler : error -> M unit) : M unit :=
  fun ps =>
    match body ps with
    | (Normal a, ps') => (Normal a, ps')
    | (Throw e, ps') => handler e ps'
    end.

Declare Scope stmt_scope.
Delimit Scope stmt_scope with stmt.
Notation "x <- c ;; k" := (bind c (fun x => k))
  (at level 61, c at next level, right associativity) : stmt_scope.
Notation "c ;; k" := (bind c (fun _ => k))
  (at level 61, right associativity) : stmt_scope.
Local Open Scope stmt_scope.

(** [items.forEach((item, idx) => ...)], the index starting at [idx]. *)
Fixpoint forEach_from (f : value -> nat -> M unit) (items : list value)
    (idx : nat) : M unit :=
  match items with
  | [] => ret tt
  | item :: rest => f item idx ;; forEach_from f rest (S idx)
  end.

Definition forEach (f : value -> nat -> M unit) (items : list value) : M unit :=
  forEach_from f items 0.

(** [Array.isArray(item) && item.length >= 2]; a length is a natural
    number. *)
Definition array_of_length_ge (n : nat) (v : value) : bool :=
  match v with
  | Arr items => (n <=? List.length items)%nat
  | _ => false
  end.

(** [`balloon-${hourIndex}-${idx}`]. *)
Definition balloon_id (hourIndex idx : nat) : string :=
  "balloon-" ++ string_of_nat hourIndex ++ "-" ++ string_of_nat idx.

(** [a ?? b ?? c ?? d]. *)
Definition coalesce4 (a b c d : value) : value :=
  coalesce (coalesce (coalesce a b) c) d.

(** [lat >= -90 && lat <= 90 && lon >= -180 && lon <= 180]. *)
Definition in_range (lat lon : number) : bool :=
  ge lat (num_of_Z (-90)) && le lat (num_of_Z 90)
  && ge lon (num_of_Z (-180)) && le lon (num_of_Z 180).

(** The first half of the callback of the three [forEach] loops (the
    source repeats the callback verbatim in each of them): what it reads
    into [lat], [lon] and [alt], each starting as [null]. *)
Definition readItem (item : value)
  : M (option number * option number * option number) :=
  if array_of_length_ge 2 item then
    v0 <- lift (get item "0") ;;
    v1 <- lift (get item "1") ;;
    alt <- (if array_of_length_ge 3 item then
              v2 <- lift (get item "2") ;; ret (safeNumber v2)
            else ret None) ;;
    ret (safeNumber v0, safeNumber v1, alt)
  else if truthy item && String.eqb (typeof item) "object" then
    ret (safeNumber (coalesce4 (opt_get item "lat") (opt_get item "latitude")
                               (opt_get item "y") (opt_get item "0")),
         safeNumber (coalesce4 (opt_get item "lon") (opt_get item "lng")
                               (opt_get item "longitude") (opt_get item "1")),
         safeNumber (coalesce4 (opt_get item "alt") (opt_get item "altitude")
                               (opt_get item "z") (opt_get item "2")))
  else ret (None, None, None).

(** The second half: the range test and the push. *)
Definition pushIfValid (hourIndex idx : nat)
    (coords : option number * option number * option number) : M unit :=
  match coords with
  | (Some lat, Some lon, alt) =>
      if in_range lat lon then
        push {| id := balloon_id hourIndex idx;
                lat := lat;
                lon := lon;
                altitude := alt;          (* alt ?? undefined *)
                timestamp := None;
                hourIndex := Some hourIndex |}
      else ret tt
  | _ => ret tt
  end.

Definition extractItem (hourIndex : nat) (item : value) (idx : nat) : M unit :=
  coords <- readItem item ;; pushIfValid hourIndex idx coords.

(** The [try] block: dispatch on the shape of the payload. *)
Definition extractBody (data : value) (hourIndex : nat) : M unit :=
  match data with
  | Arr items =>                                  (* Array.isArray(data) *)
      forEach (extractItem hourIndex) items
  | _ =>
      balloons <- lift (get data "balloons") ;;
      match balloons with
      | Arr items =>            (* data.balloons && Array.isArray(data.balloons) *)
          forEach (extractItem hourIndex) items
      | _ =>
          inner <- lift (get data "data") ;;
          match inner with
          | Arr items =>        (* data.data && Array.isArray(data.data) *)
              forEach (extractItem hourIndex) items
          | _ => ret tt
          end
      end
  end.

(** [const positions = []; try { body } catch (error) { console.error(...) }
    return positions;]: what the function returns whatever the body does. *)
Definition run_try (body : M unit) : completion (list BalloonPosition) :=
  let positions : list BalloonPosition := [] in
  match try_catch body (fun _ => ret tt) positions with
  | (Normal _, positions') => Normal positions'
  | (Throw e, _) => Throw e
  end.

(** [extractBalloonPositions(data: any, hourIndex: number)]; [hourIndex] is
    the index of the snapshot in [data24h]. *)
Definition extractBalloonPositions (data : value) (hourIndex : nat)
  : completion (list BalloonPosition) :=
  if negb (truthy data) || negb (String.eqb (typeof data) "object") then
    Normal []                                   (* return positions *)
  else run_try (extractBody data hourIndex).

(** ** [Map<string, BalloonPosition>]: keys in insertion order. *)
Module StringMap.
Definition t (V : Type) : Type := list (string * V).

Definition empty {V} : t V := [].

Fixpoint get {V} (m : t V) (k : string) : option V :=
  match m with
  | [] => None
  | (k', v) :: rest => if String.eqb k k' then Some v else get rest k
  end.

Definition has {V} (m : t V) (k : string) : bool :=
  match get m k with Some _ => true | None => false end.

(** A new key goes last; a key already there keeps its place. *)
Fixpoint set {V} (m : t V) (k : string) (v : V) : t V :=
  match m with
  | [] => [(k, v)]
  | (k', v') :: rest =>
      if String.eqb k k' then (k', v) :: rest else (k', v') :: set rest k v
  end.

Definition values {V} (m : t V) : list V := map snd m.
Definition keys {V} (m : t V) : list string := map fst m.
End StringMap.

(** [x.hourIndex ?? 24] and [balloonMap.get(id)?.hourIndex ?? 24]. *)
Definition hourIndex_or_24 (p : option BalloonPosition) : nat :=
  match p with
  | Some q => match hourIndex q with Some h => h | None => 24 end
  | None => 24
  end.

(** The callback of [positions.forEach]. *)
Definition mergePosition (balloonMap : StringMap.t BalloonPosition)
    (pos : BalloonPosition) : StringMap.t BalloonPosition :=
  if negb (StringMap.has balloonMap (id pos))
     || (hourIndex_or_24 (Some pos)
         <? hourIndex_or_24 (StringMap.get balloonMap (id pos)))%nat
  then StringMap.set balloonMap (id pos) pos
  else balloonMap.

Definition mergePositions (balloonMap : StringMap.t BalloonPosition)
    (positions : list BalloonPosition) : StringMap.t BalloonPosition :=
  fold_left mergePosition positions balloonMap.

(** The callback of [data24h.forEach], from index [hourIndex] on. *)
Fixpoint mergeHours (balloonMap : StringMap.t BalloonPosition)
    (data24h : list value) (hourIndex : nat)
  : completion (StringMap.t BalloonPosition) :=
  match data24h with
  | [] => Normal balloonMap
  | data :: rest =>
      if negb (truthy data) then mergeHours balloonMap rest (S hourIndex)
      else
        match extractBalloonPositions data hourIndex with
        | Normal positions =>
            mergeHours (mergePositions balloonMap positions) rest (S hourIndex)
        | Throw e => Throw e
        end
  end.

(** [extractAllBalloonPositions(data24h: any[])]. *)
Definition extractAllBalloonPositions (data24h : list value)
  : completion (list BalloonPosition) :=
  match mergeHours StringMap.empty data24h 0 with
  | Normal balloonMap => Normal (StringMap.values balloonMap)
  | Throw e => Throw e
  end.

(** [const TEST_MODE = true; const MAX_BALLOONS = 100;]. *)
Definition TEST_MODE : bool := true.
Definition MAX_BALLOONS : nat := 100.

(** [extractBalloonPositionsLimited(data24h: any[])]; [slice(0, n)] keeps
    the first [n] elements, all of them when there are fewer. *)
Definition extractBalloonPositionsLimited (data24h : list value)
  : completion (list BalloonPosition) :=
  match extractAllBalloonPositions data24h with
  | Normal allPositions =>
      Normal (if TEST_MODE then firstn MAX_BALLOONS allPositions else allPositions)
  | Throw e => Throw e
  end.

End BalloonData.

(* ================================================================== *)
(** * api/balloon.ts, hooks/useBalloonData.ts, App.tsx *)
(* ================================================================== *)
Module BalloonApi.
Import Js.
Local Open Scope string_scope.

(** ** String.prototype.padStart *)

Fixpoint repeat_string (filler : string) (n : nat) : string :=
  match n with
  | O => ""
  | S k => filler ++ repeat_string filler k
  end.

(** [s.padStart(maxLength, fillString)]: [s] itself when it is long enough
    or the filler is empty; else the filler, repeated and cut to the
    missing length, goes in front. *)
Definition padStart (maxLength : nat) (fillString : string) (s : string) : string :=
  let fillLen := (maxLength - String.length s)%nat in
  if (fillLen =? 0)%nat || String.eqb fillString "" then s
  else String.substring 0 fillLen (repeat_string fillString fillLen) ++ s.

(** ** The requests *)

(** [hourIndex.toString().padStart(2, "0")], [hourIndex] being the loop
    counter. *)
Definition hourFile (hourIndex : nat) : string :=
  padStart 2 "0" (string_of_nat hourIndex).

(** [`${BASE}/${idx}.json`]; [BASE] is ["/treasure"] or the full address of
    the service. *)
Definition hourUrl (BASE : string) (hourIndex : nat) : string :=
  BASE ++ "/" ++ hourFile hourIndex ++ ".json".

(** What [await fetch(url)] and [await resp.json()] can give: the request
    fails, or a response arrives whose body parses as JSON or does not. *)
Inductive fetched : Type :=
| Rejected
| Response (ok : bool) (status : nat) (json : option value).

Definition network : Type := string -> fetched.

(** [fetchBalloonHour(hourIndex)]: the parsed body, or [null] when anything
    in the [try] block throws. *)
Definition fetchBalloonHour (BASE : string) (fetch : network) (hourIndex : nat)
  : value :=
  match fetch (hourUrl BASE hourIndex) with
  | Rejected => Null
  | Response ok status json =>
      if negb ok then Null            (* throw new Error(`Bad response ...`) *)
      else match json with
           | Some data => data
           | None => Null             (* resp.json() rejects *)
           end
  end.

(** [r !== null]. *)
Definition not_null (r : value) : bool :=
  match r with Null => false | _ => true end.

(** [fetchLast24Hours()]: [Promise.all] keeps the order of the requests. *)
Definition fetchLast24Hours (BASE : string) (fetch : network) : list value :=
  let results := map (fetchBalloonHour BASE fetch) (seq 0 24) in
  filter not_null results.

(** [fetchCurrentHour()]. *)
Definition fetchCurrentHour (BASE : string) (fetch : network) : list value :=
  let data := fetchBalloonHour BASE fetch 0 in
  if truthy data then [data] else [].

(** [useBalloonData]: what [load] stores in [data24h]; the hook has its own
    [const TEST_MODE = true]. *)
Definition HOOK_TEST_MODE : bool := true.

Definition load (BASE : string) (fetch : network) : list value :=
  if HOOK_TEST_MODE then fetchCurrentHour BASE fetch
  else fetchLast24Hours BASE fetch.

(** [App]: [const balloons = extractBalloonPositionsLimited(data24h)], once
    [load] has run. *)
Definition balloons (BASE : string) (fetch : network)
  : completion (list BalloonData.BalloonPosition) :=
  BalloonData.extractBalloonPositionsLimited (load BASE fetch).

End BalloonApi.

(* ================================================================== *)
(** * components/BalloonMap.tsx *)
(* ================================================================== *)
Module BalloonMap.
Import Js.
Local Open Scope string_scope.

(** ** Leaflet

    [LatLng] and [LatLngBounds] belong to the Leaflet library, which the
    component imports; they are modelled by what Leaflet does with the
    arguments the component passes. *)

Record LatLng : Type := { lat : number; lng : number }.

(** [new LatLng(lat, lng)]: Leaflet throws an Error on an argument that
    [isNaN] rejects, and [undefined] is one.  Its message goes on with the
    two arguments; the model keeps the fixed part of it. *)
Definition newLatLng (lat lng : option number) : completion LatLng :=
  match lat, lng with
  | Some a, Some b =>
      if isNaN a || isNaN b then Throw (Error "Invalid LatLng object")
      else Normal {| lat := a; lng := b |}
  | _, _ => Throw (Error "Invalid LatLng object")
  end.

Definition is_neg_zero (x : number) : bool :=
  match x with S754_zero true => true | _ => false end.

(** [Math.min] and [Math.max] of two numbers. *)
Definition min (x y : number) : number :=
  if isNaN x || isNaN y then NaN
  else if lt x y then x
  else if lt y x then y
  else if is_neg_zero x then x else y.

Definition max (x y : number) : number :=
  if isNaN x || isNaN y then NaN
  else if lt x y then y
  else if lt y x then x
  else if is_neg_zero x then y else x.

Record LatLngBounds : Type := { southWest : LatLng; northEast : LatLng }.

(** [bounds.extend(p)]: the first point sets both corners, a later one
    moves them by [Math.min] and [Math.max]. *)
Definition extend (bounds : option LatLngBounds) (p : LatLng)
  : option LatLngBounds :=
  match bounds with
  | None => Some {| southWest := p; northEast := p |}
  | Some b =>
      Some {| southWest := {| lat := min (lat p) (lat (southWest b));
                              lng := min (lng p) (lng (southWest b)) |};
              northEast := {| lat := max (lat p) (lat (northEast b));
                              lng := max (lng p) (lng (northEast b)) |} |}
  end.

(** [new LatLngBounds(points)] for an array of [[lat, lng]] pairs: each pair
    becomes a [LatLng] (which may throw) and extends the bounds. *)
Fixpoint extendAll (bounds : option LatLngBounds)
    (points : list (option number * option number))
  : completion (option LatLngBounds) :=
  match points with
  | [] => Normal bounds
  | (a, b) :: rest =>
      match newLatLng a b with
      | Normal p => extendAll (extend bounds p) rest
      | Throw e => Throw e
      end
  end.

Definition newLatLngBounds (points : list (option number * option number))
  : completion (option LatLngBounds) :=
  extendAll None points.

(** ** GeoJSON geometries

    [MapController] reads a geometry through callbacks typed
    [(sum: number, coord: number[])]; the model takes the geometry with the
    types GeoJSON gives it. A position is [[lon, lat, ...]]. *)

Definition position : Type := list number.

Inductive geometry : Type :=
| Point (coordinates : position)
| MultiPoint (coordinates : list position)
| LineString (coordinates : list position)
| MultiLineString (coordinates : list (list position))
| Polygon (coordinates : list (list position))
| MultiPolygon (coordinates : list (list (list position)))
| GeometryCollection (geometries : list geometry).

(** ** MapController *)

(** What the effect asks of the map. *)
Inductive mapCall : Type :=
| flyTo (center : LatLng) (zoom : number) (duration : number)
| flyToBounds (bounds : option LatLngBounds) (padding : number * number)
              (maxZoom : number).

(** The local [center] of the effect and the call it ends with. *)
Record navigation : Type := { center : LatLng; call : mapCall }.

(** [sum + coord[i]]: an index past the end reads [undefined], and the sum
    becomes NaN. *)
Definition add_coord (i : nat) (sum : number) (coord : position) : number :=
  match nth_error coord i with
  | Some x => add sum x
  | None => NaN
  end.

(** The Polygon and MultiPolygon branches share this text, with [coords]
    the ring. *)
Definition flyToRing (coords : list position) : completion (option navigation) :=
  let latSum := fold_left (add_coord 1) coords (num_of_Z 0) in
  let lonSum := fold_left (add_coord 0) coords (num_of_Z 0) in
  let n := num_of_nat (List.length coords) in
  match newLatLng (Some (div latSum n)) (Some (div lonSum n)) with
  | Throw e => Throw e
  | Normal c =>
      match newLatLngBounds
              (map (fun coord => (nth_error coord 1, nth_error coord 0)) coords) with
      | Throw e => Throw e
      | Normal bounds =>
          Normal (Some {| center := c;
                          call := flyToBounds bounds (num_of_Z 100, num_of_Z 100)
                                              (num_of_Z 12) |})
      end
  end.

(** The effect of [MapController]; [None] for [targetAlert] when it is
    [null] or has no geometry. *)
Definition MapController (target : option geometry)
  : completion (option navigation) :=
  match target with
  | None => Normal None
  | Some geom =>
      let zoom := num_of_Z 10 in
      match geom with
      | Point coordinates =>
          match newLatLng (nth_error coordinates 1) (nth_error coordinates 0) with
          | Throw e => Throw e
          | Normal c =>
              Normal (Some {| center := c;
                              call := flyTo c zoom (round_decimal false 15 (-1)) |})
          end
      | Polygon coordinates =>
          match coordinates with
          | coords :: _ => flyToRing coords     (* geom.coordinates[0] is truthy *)
          | [] => Normal None
          end
      | MultiPolygon coordinates =>
          match coordinates with
          | (coords :: _) :: _ => flyToRing coords
          | _ => Throw (TypeError "Cannot read properties of undefined")
          end
      | _ => Normal None
      end
  end.

(** ** Alert styles *)

Record pathStyle : Type := {
  fillColor : string;
  color : string;
  weight : number;
  opacity : number;
  fillOpacity : number;
  dashArray : option string
}.

(** [(v || fallback).toLowerCase()]: a truthy value that is not a string has
    no [toLowerCase]. *)
Definition lowered (v : value) (fallback : string) : completion string :=
  match or_else v (Str fallback) with
  | Str s => Normal (toLowerCase s)
  | _ => Throw (TypeError "toLowerCase is not a function")
  end.

(** [feature?.properties?.name]. *)
Definition property (feature : value) (name : string) : value :=
  opt_get (opt_get feature "properties") name.

(** The colour [getAlertStyle] picks. *)
Definition alertColor (severity urgency : string) : string :=
  if String.eqb severity "extreme" || String.eqb urgency "immediate" then "#C92A2A"
  else if String.eqb severity "severe" then "#F76707"
  else if String.eqb severity "moderate" then "#FFD43B"
  else if String.eqb severity "minor" || String.eqb severity "unknown" then "#51CF66"
  else if String.eqb urgency "expected" then "#F76707"
  else "#FF6B6B".                                      (* Default red *)

(** [getAlertStyle(feature: any)]. *)
Definition getAlertStyle (feature : value) : completion pathStyle :=
  match lowered (property feature "severity") "" with
  | Throw e => Throw e
  | Normal severity =>
      match lowered (property feature "urgency") "" with
      | Throw e => Throw e
      | Normal urgency =>
          let color := alertColor severity urgency in
          Normal {| fillColor := color;
                    color := color;
                    weight := num_of_Z 5;
                    opacity := num_of_Z 1;
                    fillOpacity := round_decimal false 5 (-1);
                    dashArray :=
                      if String.eqb severity "extreme" || String.eqb urgency "immediate"
                      then Some "10, 5" else None |}
      end
  end.

(** [getSeverityColor(severity: string)], the colour of a list entry. *)
Definition getSeverityColor (severity : string) : string :=
  let severityLower := toLowerCase severity in
  if String.eqb severityLower "extreme" then "#C92A2A"
  else if String.eqb severityLower "severe" then "#F76707"
  else if String.eqb severityLower "moderate" then "#FFD43B"
  else if String.eqb severityLower "minor" || String.eqb severityLower "unknown"
  then "#51CF66"
  else "#64748b".

(** ** validAlerts *)

(** [v === s] for a string literal [s]. *)
Definition is_string (v : value) (s : string) : bool :=
  match v with Str s' => String.eqb s' s | _ => false end.

Definition hasValidGeometry (alert : value) : bool :=
  let geom := opt_get alert "geometry" in
  truthy geom
  && (is_string (get_own geom "type") "Polygon"
      || is_string (get_own geom "type") "MultiPolygon"
      || is_string (get_own geom "type") "Point").

Definition validAlerts (alerts : list value) : list value :=
  filter hasValidGeometry alerts.

(** ** sortedAlerts *)

(** What [severityOrder[key]] finds. *)
Inductive orderEntry : Type :=
| Own (rank : nat)       (* a key of the literal *)
| Inherited              (* a member of Object.prototype *)
| Missing.               (* undefined *)

Definition objectPrototypeKeys : list string :=
  ["constructor"; "__defineGetter__"; "__defineSetter__"; "hasOwnProperty";
   "__lookupGetter__"; "__lookupSetter__"; "isPrototypeOf";
   "propertyIsEnumerable"; "toString"; "valueOf"; "__proto__";
   "toLocaleString"].

Definition severityOrder (key : string) : orderEntry :=
  if String.eqb key "extreme" then Own 0
  else if String.eqb key "severe" then Own 1
  else if String.eqb key "moderate" then Own 2
  else if String.eqb key "minor" then Own 3
  else if String.eqb key "unknown" then Own 4
  else if existsb (String.eqb key) objectPrototypeKeys then Inherited
  else Missing.

(** [severityOrder[key] ?? 99] as an operand of [-]: a number, or, for an
    inherited member, something that [-] turns into NaN ([None]). *)
Definition rank (key : string) : option nat :=
  match severityOrder key with
  | Own n => Some n
  | Missing => Some 99%nat
  | Inherited => None
  end.

(** The key the comparator reads off an alert. *)
Definition severityKey (alert : value) : completion string :=
  lowered (property alert "severity") "unknown".

(** The comparator of [sortedAlerts]; a NaN result counts as [+0] for
    [sort]. *)
Definition compareSeverity (a b : value) : completion Z :=
  match severityKey a with
  | Throw e => Throw e
  | Normal aSeverity =>
      match severityKey b with
      | Throw e => Throw e
      | Normal bSeverity =>
          Normal match rank aSeverity, rank bSeverity with
                 | Some x, Some y => (Z.of_nat x - Z.of_nat y)%Z
                 | _, _ => 0%Z
                 end
      end
  end.

(** [Array.prototype.sort(comparefn)]. The sort is stable; for a consistent
    comparator that fixes the result, which insertion computes. Every
    element of an array of two or more is compared at least once, so a
    comparator that throws on some element makes the sort throw. (For an
    inconsistent comparator the language leaves the order to the
    implementation.) *)
Section Sort.
Variable A : Type.
Variable comparefn : A -> A -> completion Z.

Fixpoint insert (x : A) (sorted : list A) : completion (list A) :=
  match sorted with
  | [] => Normal [x]
  | y :: rest =>
      match comparefn x y with
      | Throw e => Throw e
      | Normal c =>
          if (c <=? 0)%Z then Normal (x :: y :: rest)
          else match insert x rest with
               | Normal rest' => Normal (y :: rest')
               | Throw e => Throw e
               end
      end
  end.

Fixpoint sort (l : list A) : completion (list A) :=
  match l with
  | [] => Normal []
  | x :: rest =>
      match sort rest with
      | Normal sorted => insert x sorted
      | Throw e => Throw e
      end
  end.
End Sort.

Arguments insert {A} comparefn x sorted.
Arguments sort {A} comparefn l.

Definition sortedAlerts (alerts : list value) : completion (list value) :=
  sort compareSeverity (validAlerts alerts).

(** ** Hover style *)


(** ** The colour of a list entry and of a popup *)

(** [const props = alert?.properties || {}]. *)
Definition props (alert : value) : value :=
  or_else (opt_get alert "properties") (Obj []).

(** [const severity = props.severity || 'Unknown';
    const severityColor = getSeverityColor(severity)] of the list panel;
    a severity that is not a string has no [toLowerCase]. *)
Definition listSeverityColor (alert : value) : completion string :=
  match or_else (get_own (props alert) "severity") (Str "Unknown") with
  | Str severity => Normal (getSeverityColor severity)
  | _ => Throw (TypeError "severity.toLowerCase is not a function")
  end.

(** [severityColor] of [onEachFeature], computed only [if
    (alert?.properties)]. *)
Definition popupSeverityColor (alert : value) : completion (option string) :=
  if truthy (opt_get alert "properties") then
    match or_else (get_own (opt_get alert "properties") "severity")
                  (Str "Unknown") with
    | Str severity =>
        let severityLower := toLowerCase severity in
        Normal (Some (if String.eqb severityLower "extreme" then "#C92A2A"
                      else if String.eqb severityLower "severe" then "#F76707"
                      else if String.eqb severityLower "moderate" then "#FFD43B"
                      else if String.eqb severityLower "minor"
                              || String.eqb severityLower "unknown"
                      then "#51CF66"
                      else "#64748b"))
    | _ => Throw (TypeError "severity.toLowerCase is not a function")
    end
  else Normal None.

(** ** FitBounds *)

(** What the effect asks of the map. *)
Inductive fitCall : Type :=
| fitBounds (bounds : option LatLngBounds) (padding : number * number).

(** The effect of [FitBounds]. *)
Definition FitBounds (balloons : list BalloonData.BalloonPosition)
  : completion (option fitCall) :=
  if (0 <? List.length balloons)%nat then
    match newLatLngBounds
            (map (fun b => (Some (BalloonData.lat b), Some (BalloonData.lon b)))
                 balloons) with
    | Throw e => Throw e
    | Normal bounds =>
        Normal (Some (fitBounds bounds (num_of_Z 50, num_of_Z 50)))
    end
  else Normal None.

(** ** The initial view: the [center] and [zoom] given to [MapContainer] *)
Module View.

Definition center (balloons : list BalloonData.BalloonPosition)
  : number * number :=
  if (0 <? List.length balloons)%nat then
    let avgLat :=
      div (fold_left (fun sum b => add sum (BalloonData.lat b)) balloons (num_of_Z 0))
          (num_of_nat (List.length balloons)) in
    let avgLon :=
      div (fold_left (fun sum b => add sum (BalloonData.lon b)) balloons (num_of_Z 0))
          (num_of_nat (List.length balloons)) in
    (avgLat, avgLon)
  else (round_decimal false 398283 (-4), round_decimal true 985795 (-4)).

Definition zoom (balloons : list BalloonData.BalloonPosition) : number :=
  if (0 <? List.length balloons)%nat then num_of_Z 3 else num_of_Z 2.

End View.

End BalloonMap.

(* ================================================================== *)
(** * Pure readings of the extraction loop

    What one run of the callback adds to [positions], as a function; the
    proofs show the statements above compute exactly this. *)
(* ================================================================== *)
Module Extraction.
Import Js BalloonData.
Local Open Scope string_scope.

(** The three coercions of the callback. *)
Definition itemCoords (item : value)
  : option number * option number * option number :=
  match item with
  | Arr (v0 :: v1 :: rest) =>
      (safeNumber v0, safeNumber v1,
       match rest with v2 :: _ => safeNumber v2 | [] => None end)
  | _ =>
      if truthy item && String.eqb (typeof item) "object" then
        (safeNumber (coalesce4 (opt_get item "lat") (opt_get item "latitude")
                               (opt_get item "y") (opt_get item "0")),
         safeNumber (coalesce4 (opt_get item "lon") (opt_get item "lng")
                               (opt_get item "longitude") (opt_get item "1")),
         safeNumber (coalesce4 (opt_get item "alt") (opt_get item "altitude")
                               (opt_get item "z") (opt_get item "2")))
      else (None, None, None)
  end.

(** The position the callback pushes for an element, if any. *)
Definition candidate (hourIndex : nat) (item : value) (idx : nat)
  : option BalloonPosition :=
  match itemCoords item with
  | (Some lat, Some lon, alt) =>
      if in_range lat lon then
        Some {| id := balloon_id hourIndex idx; lat := lat; lon := lon;
                altitude := alt; timestamp := None;
                hourIndex := Some hourIndex |}
      else None
  | _ => None
  end.

Definition to_list {A} (o : option A) : list A :=
  match o with Some a => [a] | None => [] end.

(** What a loop over [items] pushes, the first index being [idx]. *)
Fixpoint collect (hourIndex : nat) (items : list value) (idx : nat)
  : list BalloonPosition :=
  match items with
  | [] => []
  | item :: rest =>
      (to_list (candidate hourIndex item idx) ++ collect hourIndex rest (S idx))%list
  end.

(** The position built for element [idx] of hour [hourIndex]. *)
Definition position_at (hourIndex idx : nat) (lat lon : number)
    (alt : option number) : BalloonPosition :=
  {| id := balloon_id hourIndex idx; lat := lat; lon := lon; altitude := alt;
     timestamp := None; hourIndex := Some hourIndex |}.

(** A valid pair: an array [[lat, lon, ...]] of two native numbers in
    range. *)
Definition valid_pair (item : value) : bool :=
  match item with
  | Arr (Num la :: Num lo :: _) => in_range la lo
  | _ => false
  end.

(** The altitude read from what follows the pair. *)
Definition pair_altitude (rest : list value) : option number :=
  match rest with v2 :: _ => safeNumber v2 | [] => None end.

(** The raw sequence in the words of the specification: the payload itself
    when it is a sequence, else its [balloons] sequence, else its [data]
    sequence, else nothing. *)
Definition rawSequence (data : value) : list value :=
  match data with
  | Arr items => items
  | Obj _ =>
      match get_own data "balloons" with
      | Arr items => items
      | _ => match get_own data "data" with
             | Arr items => items
             | _ => []
             end
      end
  | _ => []
  end.

End Extraction.

(* ================================================================== *)
(** * Decimal literals

    The literals [digits.digits] that the statements about [parseFloat]
    speak of. *)
(* ================================================================== *)
Module Literals.
Import Js.
Local Open Scope string_scope.
Local Open Scope list_scope.

(** A run of decimal digits, and the number it spells after [acc]. *)
Fixpoint all_digits (s : string) : bool :=
  match s with
  | EmptyString => true
  | String c r => is_digit c && all_digits r
  end.

















End Literals.

(* ================================================================== *)
(** * Readings of the merge

    The positions the merge visits and what the map holds of them. *)
(* ================================================================== *)
Module Merge.
Import Js BalloonData Extraction.
Local Open Scope string_scope.
Local Open Scope list_scope.

(** [p.hourIndex ?? 24]. *)
Definition hour (p : BalloonPosition) : nat := hourIndex_or_24 (Some p).

(** The positions of all hours, in the order the loops visit them. *)
Fixpoint allPositions (data24h : list value) (h : nat) : list BalloonPosition :=
  match data24h with
  | [] => []
  | data :: rest =>
      (if truthy data then collect h (rawSequence data) 0 else [])
      ++ allPositions rest (S h)
  end.

(** The map holds an entry for the id of [p] that is at least as recent. *)
Definition covers (m : StringMap.t BalloonPosition) (p : BalloonPosition) : Prop :=
  exists q, StringMap.get m (id p) = Some q /\ (hour q <= hour p)%nat.

(** Every key is the id of its entry, and no key occurs twice. *)
Definition keyed_by_id (m : StringMap.t BalloonPosition) : Prop :=
  NoDup (StringMap.keys m) /\ Forall (fun kv => fst kv = id (snd kv)) m.

End Merge.

(* ================================================================== *)
(** * Readings of the classifier and of the ranking *)
(* ================================================================== *)
Module Ranking.
Import Js BalloonMap.
Local Open Scope string_scope.
Local Open Scope list_scope.

(** The five severities the rules name, and the two urgencies. *)
Definition namedSeverities : list string :=
  ["extreme"; "severe"; "moderate"; "minor"; "unknown"].
Definition namedUrgencies : list string := ["immediate"; "expected"].

Definition one_of (names : list string) (s : string) : bool :=
  existsb (String.eqb s) names.

(** The classifier in the words of the specification: the tier of an
    advisory by the six priority rules, and the place of a tier in the
    fixed order. *)
Inductive tier : Type :=
| TierExtreme | TierSevere | TierModerate | TierMinor | TierUnknown.

Definition spec_tier (severity urgency : string) : tier :=
  if String.eqb severity "extreme" || String.eqb urgency "immediate" then TierExtreme
  else if String.eqb severity "severe" then TierSevere
  else if String.eqb severity "moderate" then TierModerate
  else if String.eqb severity "minor" then TierMinor
  else if String.eqb severity "unknown" then TierUnknown
  else if String.eqb urgency "expected" then TierSevere
  else TierUnknown.

Definition tier_rank (t : tier) : nat :=
  match t with
  | TierExtreme => 0
  | TierSevere => 1
  | TierModerate => 2
  | TierMinor => 3
  | TierUnknown => 4
  end.

(** The colour the specification calls neutral gray: the one
    [getSeverityColor] falls back to. *)
Definition neutralGray : string := "#64748b".

(** The tier the specification gives an advisory: the six rules on the
    fields lower-cased, an absent field read as "unknown". *)
Definition spec_classify (alert : value) : option tier :=
  match lowered (property alert "severity") "unknown",
        lowered (property alert "urgency") "unknown" with
  | Normal severity, Normal urgency => Some (spec_tier severity urgency)
  | _, _ => None
  end.

(** The place of an alert in the order [sortedAlerts] uses, when its
    severity has one. *)
Definition alertRank (alert : value) : option nat :=
  match severityKey alert with
  | Normal key => rank key
  | Throw _ => None
  end.

Definition rankOf (alert : value) : nat :=
  match alertRank alert with Some n => n | None => 0 end.

Definition ranked (alert : value) : bool :=
  match alertRank alert with Some _ => true | None => false end.

(** Insertion by rank, the pure reading of [sort compareSeverity]. *)
Fixpoint insertByRank (x : value) (sorted : list value) : list value :=
  match sorted with
  | [] => [x]
  | y :: rest =>
      if (rankOf x <=? rankOf y)%nat then x :: y :: rest
      else y :: insertByRank x rest
  end.

Fixpoint sortByRank (l : list value) : list value :=
  match l with
  | [] => []
  | x :: rest => insertByRank x (sortByRank rest)
  end.

(** An alert with a Point geometry and the given properties. *)
Definition pointAlert (properties : list (string * value)) : value :=
  Obj [("geometry", Obj [("type", Str "Point");
                         ("coordinates", Arr [Num (num_of_Z 0); Num (num_of_Z 0)])]);
       ("properties", Obj properties)].

(** Ascending rank. *)
Definition byRank (a b : value) : Prop := (rankOf a <= rankOf b)%nat.

(** The alerts of rank [r], in the order they have in [l]. *)
Definition ofRank (r : nat) (l : list value) : list value :=
  filter (fun a => (rankOf a =? r)%nat) l.

(** The order of the specification, in its words: the place of a severity
    in a list of names, counted from 0; a severity that is not in the list
    comes after all of them. *)
Fixpoint placeIn (names : list string) (s : string) : nat :=
  match names with
  | [] => 0
  | name :: rest => if String.eqb s name then 0 else S (placeIn rest s)
  end.

(** The place of an alert in the fixed order extreme < severe < moderate <
    minor < unknown, by its severity lower-cased (absent: "unknown"); 5 for
    any other severity. *)
Definition severityPlace (alert : value) : nat :=
  match severityKey alert with
  | Normal key => placeIn ["extreme"; "severe"; "moderate"; "minor"; "unknown"] key
  | Throw _ => 0
  end.

Definition byPlace (a b : value) : Prop := (severityPlace a <= severityPlace b)%nat.

(** The alerts at place [k], in the order they have in [l]. *)
Definition ofPlace (k : nat) (l : list value) : list value :=
  filter (fun a => (severityPlace a =? k)%nat) l.

(** Alerts of every severity the order names, of two it does not name and
    of none, in an order that is not the ranked one. *)
Definition mixedAlerts : list value :=
  [pointAlert [("severity", Str "Tornado")];
   pointAlert [("severity", Str "Unknown")];
   pointAlert [("severity", Str "Minor")];
   pointAlert [];
   pointAlert [("severity", Str "Moderate")];
   pointAlert [("severity", Str "flood")];
   pointAlert [("severity", Str "Severe")];
   pointAlert [("severity", Str "Extreme")]].

End Ranking.

(* ================================================================== *)
(** * Readings of the navigator *)
(* ================================================================== *)
Module Navigation.
Import Js BalloonMap.
Local Open Scope string_scope.
Local Open Scope list_scope.

(** The latitude and the longitude of a vertex [[lon, lat, ...]]; a
    missing coordinate reads as [undefined], NaN in arithmetic. *)
Definition vertex_lat (coord : position) : number := nth 1 coord NaN.
Definition vertex_lon (coord : position) : number := nth 0 coord NaN.
Definition vertex (coord : position) : LatLng :=
  {| lat := vertex_lat coord; lng := vertex_lon coord |}.

(** A vertex with a finite longitude and a finite latitude. *)
Definition finite_vertex (coord : position) : bool :=
  match coord with
  | lo :: la :: _ => isFinite lo && isFinite la
  | _ => false
  end.

(** The mean as the code computes it: the running sum from 0, divided by
    the count. *)
Definition mean (xs : list number) : number :=
  div (fold_left add xs (num_of_Z 0)) (num_of_nat (List.length xs)).

(** [b] is the smallest box around the vertices of [ring]: every vertex is
    inside, and each side passes through a vertex. *)
Definition box_of (ring : list position) (b : LatLngBounds) : Prop :=
  (forall coord, In coord ring ->
     le (lat (southWest b)) (vertex_lat coord) = true
     /\ le (vertex_lat coord) (lat (northEast b)) = true
     /\ le (lng (southWest b)) (vertex_lon coord) = true
     /\ le (vertex_lon coord) (lng (northEast b)) = true)
  /\ In (lat (southWest b)) (map vertex_lat ring)
  /\ In (lat (northEast b)) (map vertex_lat ring)
  /\ In (lng (southWest b)) (map vertex_lon ring)
  /\ In (lng (northEast b)) (map vertex_lon ring).

(** The ring of the specification's example, as [[lon, lat]] pairs. *)
Definition squareRing : list position :=
  [[num_of_Z 0; num_of_Z 0]; [num_of_Z 0; num_of_Z 2];
   [num_of_Z 2; num_of_Z 2]; [num_of_Z 2; num_of_Z 0]].

(** The corners of a box are numbers. *)
Definition numeric (p : LatLng) : Prop := isNaN (lat p) = false /\ isNaN (lng p) = false.

Definition inside (b : LatLngBounds) (p : LatLng) : Prop :=
  le (lat (southWest b)) (lat p) = true /\ le (lat p) (lat (northEast b)) = true
  /\ le (lng (southWest b)) (lng p) = true /\ le (lng p) (lng (northEast b)) = true.

End Navigation.

(* ================================================================== *)
(** * Readings of the ids

    The pair of numbers an id spells. *)
(* ================================================================== *)

Module Identity.
Import Js BalloonData.

(** The id of element [snd k] of snapshot [fst k]. *)
Definition key_id (k : nat * nat) : string := balloon_id (fst k) (snd k).

End Identity.

(* ================================================================== *)
(** * Readings of an element that is an object *)
(* ================================================================== *)

Module Elements.
Import Js BalloonData Extraction.
Local Open Scope string_scope.
Local Open Scope list_scope.

(** The value of the first of [keys] that the object holds with a value
    other than [null] and [undefined]. *)
Fixpoint firstPresent (keys : list string) (fields : list (string * value)) : value :=
  match keys with
  | [] => Undefined
  | k :: rest =>
      if nullish (lookup k fields) then firstPresent rest fields
      else lookup k fields
  end.

Definition latKeys : list string := ["lat"; "latitude"; "y"; "0"].
Definition lonKeys : list string := ["lon"; "lng"; "longitude"; "1"].
Definition altKeys : list string := ["alt"; "altitude"; "z"; "2"].

End Elements.

(* ================================================================== *)
(** * Readings of the colours and of the comparator *)
(* ================================================================== *)

Module Display.
Import Js BalloonMap Ranking.
Local Open Scope string_scope.
Local Open Scope list_scope.

(** A value that [(v || fallback).toLowerCase()] cannot read: truthy and
    not a string. *)
Definition unreadable (v : value) : bool :=
  truthy v && negb (match v with Str _ => true | _ => false end).

(** The colours [getAlertStyle] can give. *)
Definition darkRed : string := "#C92A2A".
Definition alertPalette : list string :=
  ["#C92A2A"; "#F76707"; "#FFD43B"; "#51CF66"; "#FF6B6B"].

(** The comparator can read the severity of the alert. *)
Definition keyed (alert : value) : bool :=
  negb (unreadable (property alert "severity")).

End Display.

(* ================================================================== *)
(** * Readings of the view *)
(* ================================================================== *)

Module MapView.
Import Js BalloonData BalloonMap.

(** Where the marker of a balloon stands: [[balloon.lat, balloon.lon]]. *)
Definition markerOf (b : BalloonPosition) : LatLng :=
  {| lat := BalloonData.lat b; lng := BalloonData.lon b |}.

(** The class of what a computation throws: an [Error] or a [TypeError],
    whatever the message. *)
Definition throwsError {A} (c : completion A) : Prop :=
  exists msg, c = Throw (Error msg).

Definition throwsTypeError {A} (c : completion A) : Prop :=
  exists msg, c = Throw (TypeError msg).

(** The default centre of the map, [[39.8283, -98.5795]]. *)
Definition defaultCenter : number * number :=
  (round_decimal false 398283 (-4), round_decimal true 985795 (-4)).

End MapView.

(* ================================================================== *)
(** * Readings of the requests *)
(* ================================================================== *)

Module Requests.
Import Js BalloonData BalloonApi.
Local Open Scope string_scope.
Local Open Scope list_scope.

(** How many of the hours before [h] gave a result other than [null]. *)
Definition succeeded (BASE : string) (fetch : network) (h : nat) : nat :=
  List.length (filter not_null (map (fetchBalloonHour BASE fetch) (seq 0 h))).

(** A service whose current hour is missing; every other hour holds one
    balloon. *)
Definition currentHourMissing : network :=
  fun url =>
    if String.eqb url "/treasure/00.json" then Response false 404 None
    else Response true 200
           (Some (Arr [Arr [Num (num_of_Z 1); Num (num_of_Z 2)]])).

End Requests.

(* ================================================================== *)
(** * Theorems: numeric coercion *)
(* ================================================================== *)
Module CoercionFacts.
Import Js BalloonData.
Local Open Scope string_scope.

Lemma safeNumber_not_NaN (v : value) (n : number) :
  safeNumber v = Some n -> isNaN n = false.
Proof.
  destruct v as [| | b | x | s | items | fields]; simpl; try discriminate.
  - destruct (isNaN x) eqn:E; simpl; intros H; inversion H; subst; assumption.
  - destruct (isNaN (parseFloat s)) eqn:E; simpl; try discriminate.
    destruct (isFinite (parseFloat s)); intros H; inversion H; subst; assumption.
Qed.

Lemma safeNumber_string_finite (s : string) (n : number) :
  safeNumber (Str s) = Some n -> isFinite n = true /\ n = parseFloat s.
Proof.
  simpl. destruct (isNaN (parseFloat s)); simpl; try discriminate.
  destruct (isFinite (parseFloat s)) eqn:E; intros H; inversion H; subst; auto.
Qed.

Lemma safeNumber_other (v : value) :
  (forall n, v <> Num n) -> (forall s, v <> Str s) -> safeNumber v = None.
Proof.
  intros Hn Hs. destruct v; simpl; try reflexivity.
  - exfalso. eapply Hn. reflexivity.
  - exfalso. eapply Hs. reflexivity.
Qed.

(** [parseFloat] on literals whose doubles are known: 0.1 is
    0x3FB999999999999A, the largest double is 1.7976931348623157e308 and a
    literal past half an ulp above it overflows, 5e-324 is the smallest
    subnormal and anything below half of it is zero. *)
Lemma parseFloat_known_doubles :
  parseFloat "0.1" = S754_finite false 7205759403792794 (-56)
  /\ parseFloat "1.7976931348623157e308" = S754_finite false 9007199254740991 971
  /\ parseFloat "1.7976931348623159e308" = Infinity
  /\ parseFloat "5e-324" = S754_finite false 1 (-1074)
  /\ parseFloat "2e-324" = S754_zero false
  /\ parseFloat "-12.5e0" = S754_finite true 7036874417766400 (-49)
  /\ parseFloat "  +.5e1kg" = num_of_Z 5
  /\ parseFloat "-Infinity" = S754_infinity true
  /\ parseFloat "-0" = S754_zero true
  /\ parseFloat "" = NaN /\ parseFloat "." = NaN /\ parseFloat "e5" = NaN.
Proof. vm_compute. repeat split. Qed.

(** C3. Numeric coercion and finiteness. [safeNumber] returns absent or a
    number that is not NaN; from a string the number is finite ("12.5" gives
    12.5, "abc", "Infinity" and the overflowing "1e999" give absent), and
    objects, arrays, booleans, [null] and [undefined] give absent. The
    number branch tests [isNaN] only, without the [isFinite] test of the
    string branch: a native infinity, which is what [JSON.parse] makes of
    the literal [1e999], comes back as it is, and it is the only way to a
    result that is not finite. *)
Theorem safeNumber_native_infinity :
  safeNumber (Num (round_decimal false 1 999)) = Some Infinity
  /\ isFinite Infinity = false
  /\ (forall v n, safeNumber v = Some n ->
        isNaN n = false
        /\ (isFinite n = true \/ exists s, v = Num (S754_infinity s)))
  /\ safeNumber (Str "12.5") = Some (round_decimal false 125 (-1))
  /\ safeNumber (Str "abc") = None
  /\ safeNumber (Str "Infinity") = None
  /\ safeNumber (Str "1e999") = None
  /\ safeNumber (Num NaN) = None
  /\ (forall v, (forall n, v <> Num n) -> (forall s, v <> Str s) ->
        safeNumber v = None).
Proof.
  split; [reflexivity |]. split; [reflexivity |].
  split.
  - intros v n H. split; [apply (safeNumber_not_NaN v n H) |].
    destruct v as [| | b | x | s | items | fields]; try discriminate H.
    + cbn in H. destruct x as [sx | sx | | sx mx ex]; cbn in H;
        inversion H; subst; cbn; eauto.
    + left. apply (safeNumber_string_finite s n H).
  - repeat (split; [reflexivity |]). apply safeNumber_other.
Qed.

End CoercionFacts.

(* ================================================================== *)
(** * Theorems: parseFloat reads a prefix *)
(* ================================================================== *)
Module PrefixFacts.
Import Js BalloonData Literals.
Local Open Scope string_scope.





















End PrefixFacts.

(* ================================================================== *)
(** * Theorems: the extraction loop *)
(* ================================================================== *)
Module ExtractionFacts.
Import Js BalloonData Extraction.
Local Open Scope string_scope.
Local Open Scope list_scope.

Lemma readItem_run (item : value) (ps : list BalloonPosition) :
  readItem item ps = (Normal (itemCoords item), ps).
Proof.
  destruct item as [| | b | x | s | items | fields]; try reflexivity.
  - destruct b; reflexivity.
  - unfold readItem, itemCoords. cbn [array_of_length_ge].
    destruct (truthy (Num x)); reflexivity.
  - unfold readItem, itemCoords. cbn [array_of_length_ge].
    destruct (truthy (Str s)); reflexivity.
  - destruct items as [| v0 [| v1 [| v2 rest]]]; reflexivity.
Qed.

(** One run of the callback completes normally and pushes its candidate. *)
Lemma extractItem_run (h : nat) (item : value) (idx : nat)
    (ps : list BalloonPosition) :
  extractItem h item idx ps = (Normal tt, ps ++ to_list (candidate h item idx)).
Proof.
  unfold extractItem, candidate, bind. rewrite readItem_run.
  destruct (itemCoords item) as [[[la |] [lo |]] al]; unfold pushIfValid, ret, push;
    cbn [to_list]; try (rewrite app_nil_r; reflexivity).
  destruct (in_range la lo); cbn [to_list]; [reflexivity |].
  rewrite app_nil_r; reflexivity.
Qed.

Lemma forEach_run (h : nat) (items : list value) (idx : nat)
    (ps : list BalloonPosition) :
  forEach_from (extractItem h) items idx ps
  = (Normal tt, ps ++ collect h items idx).
Proof.
  revert idx ps. induction items as [| item rest IH]; intros idx ps.
  - cbn. unfold ret. rewrite app_nil_r. reflexivity.
  - cbn [forEach_from collect]. unfold bind. rewrite extractItem_run.
    rewrite IH. rewrite <- app_assoc. reflexivity.
Qed.

(** The [try] block never throws on a payload that passed the guard. *)
Lemma extractBody_run (data : value) (h : nat) (ps : list BalloonPosition) :
  truthy data = true -> typeof data = "object" ->
  extractBody data h ps = (Normal tt, ps ++ collect h (rawSequence data) 0).
Proof.
  intros Ht Ho.
  destruct data as [| | b | x | s | items | fields]; try discriminate.
  - cbn. apply forEach_run.
  - unfold extractBody, rawSequence, bind, lift, get. cbn [nullish].
    destruct (get_own (Obj fields) "balloons") as [| | b | x | s | items | fs];
      try apply forEach_run;
      (destruct (get_own (Obj fields) "data") as [| | b' | x' | s' | items' | fs'];
       try apply forEach_run; unfold ret; rewrite app_nil_r; reflexivity).
Qed.

(** [extractBalloonPositions] as a function of the payload. *)
Lemma extractBalloonPositions_eq (data : value) (h : nat) :
  extractBalloonPositions data h = Normal (collect h (rawSequence data) 0).
Proof.
  unfold extractBalloonPositions.
  destruct (negb (truthy data) || negb (typeof data =? "object")) eqn:G.
  - destruct data as [| | b | x | s | items | fields]; try reflexivity;
      cbn in G; discriminate.
  - apply orb_false_iff in G. destruct G as [G1 G2].
    apply negb_false_iff in G1. apply negb_false_iff in G2.
    apply String.eqb_eq in G2.
    unfold run_try, try_catch. rewrite extractBody_run by assumption. reflexivity.
Qed.

Lemma candidate_in_range (h : nat) (item : value) (idx : nat) (p : BalloonPosition) :
  candidate h item idx = Some p ->
  in_range (lat p) (lon p) = true
  /\ id p = balloon_id h idx /\ hourIndex p = Some h.
Proof.
  unfold candidate. destruct (itemCoords item) as [[[la |] [lo |]] al];
    try discriminate.
  destruct (in_range la lo) eqn:E; try discriminate.
  intros H. inversion H; subst; cbn. auto.
Qed.

Lemma collect_app (h : nat) (l1 l2 : list value) (idx : nat) :
  collect h (l1 ++ l2) idx
  = collect h l1 idx ++ collect h l2 (idx + List.length l1).
Proof.
  revert idx. induction l1 as [| x l1 IH]; intros idx; cbn.
  - rewrite Nat.add_0_r. reflexivity.
  - rewrite IH. rewrite <- app_assoc. rewrite Nat.add_succ_r. reflexivity.
Qed.

Lemma le_not_NaN (x y : number) : le x y = true -> isNaN x = false /\ isNaN y = false.
Proof.
  unfold le, SFleb, SFcompare.
  destruct x as [sx | sx | | sx mx ex]; destruct y as [sy | sy | | sy my ey];
    cbn; intros H; try discriminate H; auto.
Qed.

Lemma in_range_bounds (la lo : number) :
  in_range la lo = true ->
  ge la (num_of_Z (-90)) = true /\ le la (num_of_Z 90) = true
  /\ ge lo (num_of_Z (-180)) = true /\ le lo (num_of_Z 180) = true.
Proof.
  unfold in_range. intros H.
  repeat (apply andb_true_iff in H; destruct H as [H ?]). auto.
Qed.

Lemma in_range_not_NaN (la lo : number) :
  in_range la lo = true -> isNaN la = false /\ isNaN lo = false.
Proof.
  intros H. destruct (in_range_bounds _ _ H) as (_ & H1 & _ & H2).
  split; [apply (le_not_NaN _ _ H1) | apply (le_not_NaN _ _ H2)].
Qed.

Lemma in_range_finite (la lo : number) :
  in_range la lo = true -> isFinite la = true /\ isFinite lo = true.
Proof.
  intros H. destruct (in_range_bounds _ _ H) as (H1 & H2 & H3 & H4).
  split.
  - destruct la as [s | [] | | s m e]; try reflexivity; discriminate.
  - destruct lo as [s | [] | | s m e]; try reflexivity; discriminate.
Qed.

Lemma candidate_coords (h : nat) (item : value) (idx : nat) (p : BalloonPosition) :
  candidate h item idx = Some p ->
  itemCoords item = (Some (lat p), Some (lon p), altitude p).
Proof.
  unfold candidate. destruct (itemCoords item) as [[[la |] [lo |]] al];
    try discriminate.
  destruct (in_range la lo); try discriminate.
  intros H. inversion H; subst; reflexivity.
Qed.

Lemma collect_origin (h : nat) (items : list value) (idx : nat) (p : BalloonPosition) :
  In p (collect h items idx) ->
  exists i item, nth_error items i = Some item /\ candidate h item (idx + i) = Some p.
Proof.
  revert idx. induction items as [| item rest IH]; intros idx; cbn [collect].
  - intros [].
  - intros H. apply in_app_or in H. destruct H as [H | H].
    + destruct (candidate h item idx) as [q |] eqn:E; cbn in H; [| contradiction].
      destruct H as [H | []]. subst q.
      exists 0, item. rewrite Nat.add_0_r. split; [reflexivity | assumption].
    + destruct (IH _ H) as (i & it & Hn & Hc).
      exists (S i), it. rewrite Nat.add_succ_r. split; assumption.
Qed.

Lemma candidate_valid_pair (h idx : nat) (la lo : number) (rest : list value) :
  in_range la lo = true ->
  candidate h (Arr (Num la :: Num lo :: rest)) idx
  = Some (position_at h idx la lo (pair_altitude rest)).
Proof.
  intros H. destruct (in_range_not_NaN _ _ H) as [Ha Ho].
  unfold candidate, itemCoords. cbn [safeNumber]. rewrite Ha, Ho. cbn [negb].
  rewrite H. destruct rest; reflexivity.
Qed.

Lemma collect_valid_pairs (h : nat) (items : list value) (idx : nat) :
  forallb valid_pair items = true ->
  List.length (collect h items idx) = List.length items
  /\ forall i la lo rest,
       nth_error items i = Some (Arr (Num la :: Num lo :: rest)) ->
       nth_error (collect h items idx) i
       = Some (position_at h (idx + i) la lo (pair_altitude rest)).
Proof.
  revert idx. induction items as [| item items IH]; intros idx Hall.
  - split; [reflexivity |]. intros [| i] la lo rest Hn; discriminate Hn.
  - cbn [forallb] in Hall. apply andb_true_iff in Hall. destruct Hall as [Hv Hall].
    destruct (IH (S idx) Hall) as [Hlen Hnth].
    destruct item as [| | b | x | s | elems | fields]; try discriminate Hv.
    destruct elems as [| [| | b | la | s | e0 | f0] [| [| | b' | lo | s' | e1 | f1] rest]];
      try discriminate Hv.
    cbn [valid_pair] in Hv. cbn [collect].
    rewrite candidate_valid_pair by exact Hv. cbn [to_list app].
    split.
    + cbn [List.length]. rewrite Hlen. reflexivity.
    + intros [| i] la' lo' rest' Hn.
      * cbn in Hn. inversion Hn; subst. rewrite Nat.add_0_r. reflexivity.
      * cbn [nth_error] in Hn |- *. rewrite (Hnth _ _ _ _ Hn).
        rewrite Nat.add_succ_r. reflexivity.
Qed.

(** C4. Extraction validity invariant: whatever the payload and the hour,
    [extractBalloonPositions] returns positions whose latitude lies in
    [-90, 90] and whose longitude lies in [-180, 180], each read from an
    element of the raw sequence whose two coordinates were both present. The
    bounds are inclusive ([90, 180] is kept, [91, 0] is dropped), and an
    altitude that fails coercion does not reject the record: the position is
    emitted without altitude. *)
Theorem extraction_validity (data : value) (h : nat) :
  (exists ps,
     extractBalloonPositions data h = Normal ps
     /\ Forall (fun p =>
          ge (lat p) (num_of_Z (-90)) = true /\ le (lat p) (num_of_Z 90) = true
          /\ ge (lon p) (num_of_Z (-180)) = true /\ le (lon p) (num_of_Z 180) = true
          /\ isFinite (lat p) = true /\ isFinite (lon p) = true
          /\ exists idx item,
               nth_error (rawSequence data) idx = Some item
               /\ itemCoords item = (Some (lat p), Some (lon p), altitude p)) ps)
  /\ extractBalloonPositions (Arr [Arr [Num (num_of_Z 90); Num (num_of_Z 180)]]) h
     = Normal [position_at h 0 (num_of_Z 90) (num_of_Z 180) None]
  /\ extractBalloonPositions (Arr [Arr [Num (num_of_Z 91); Num (num_of_Z 0)]]) h
     = Normal []
  /\ (forall la lo alt,
        in_range la lo = true -> safeNumber alt = None ->
        extractBalloonPositions (Arr [Arr [Num la; Num lo; alt]]) h
        = Normal [position_at h 0 la lo None]).
Proof.
  split; [| split; [| split]].
  - exists (collect h (rawSequence data) 0).
    split; [apply extractBalloonPositions_eq |].
    apply Forall_forall. intros p Hin.
    destruct (collect_origin _ _ _ _ Hin) as (i & item & Hn & Hc).
    destruct (candidate_in_range _ _ _ _ Hc) as (Hr & _).
    destruct (in_range_bounds _ _ Hr) as (H1 & H2 & H3 & H4).
    destruct (in_range_finite _ _ Hr) as (F1 & F2).
    repeat (split; [assumption |]).
    exists i, item. split; [assumption | apply (candidate_coords _ _ _ _ Hc)].
  - rewrite extractBalloonPositions_eq. reflexivity.
  - rewrite extractBalloonPositions_eq. reflexivity.
  - intros la lo alt Hr Ha. rewrite extractBalloonPositions_eq.
    cbn [rawSequence collect]. rewrite candidate_valid_pair by exact Hr.
    cbn [pair_altitude]. rewrite Ha. reflexivity.
Qed.

(** C6. Extraction completeness and order: when every element of the input
    array is a pair [[lat, lon]] or [[lat, lon, alt, ...]] of native numbers
    with lat in [-90, 90] and lon in [-180, 180], the output has exactly one
    position per element, in input order: the position at index [idx] comes
    from the element at index [idx], carries the given hour and has the id
    "balloon-{hourIndex}-{idx}". *)
Theorem extraction_complete (items : list value) (h : nat) :
  forallb valid_pair items = true ->
  exists ps,
    extractBalloonPositions (Arr items) h = Normal ps
    /\ List.length ps = List.length items
    /\ forall idx la lo rest,
         nth_error items idx = Some (Arr (Num la :: Num lo :: rest)) ->
         nth_error ps idx
         = Some {| id := "balloon-" ++ string_of_nat h ++ "-" ++ string_of_nat idx;
                   lat := la; lon := lo; altitude := pair_altitude rest;
                   timestamp := None; hourIndex := Some h |}.
Proof.
  intros Hall. exists (collect h items 0).
  split; [apply (extractBalloonPositions_eq (Arr items)) |].
  destruct (collect_valid_pairs h items 0 Hall) as [Hlen Hnth].
  split; [exact Hlen |].
  intros idx la lo rest Hn. rewrite (Hnth _ _ _ _ Hn). reflexivity.
Qed.

Lemma extraction_complete_witness :
  exists ps,
    extractBalloonPositions
      (Arr [Arr [Num (num_of_Z 10); Num (num_of_Z 20)];
            Arr [Num (num_of_Z (-90)); Num (num_of_Z 180); Str "7"]]) 3
    = Normal ps
    /\ List.length ps = 2%nat
    /\ forall idx la lo rest,
         nth_error [Arr [Num (num_of_Z 10); Num (num_of_Z 20)];
                    Arr [Num (num_of_Z (-90)); Num (num_of_Z 180); Str "7"]] idx
         = Some (Arr (Num la :: Num lo :: rest)) ->
         nth_error ps idx
         = Some {| id := "balloon-" ++ string_of_nat 3 ++ "-" ++ string_of_nat idx;
                   lat := la; lon := lo; altitude := pair_altitude rest;
                   timestamp := None; hourIndex := Some 3%nat |}.
Proof.
  apply (@extraction_complete
           [Arr [Num (num_of_Z 10); Num (num_of_Z 20)];
            Arr [Num (num_of_Z (-90)); Num (num_of_Z 180); Str "7"]] 3).
  vm_compute. reflexivity.
Defined.

(** C7. Shape-dispatch precedence: the positions come from the raw sequence
    the specification names (the payload itself when it is an array, else
    its [balloons] array, else its [data] array, else nothing), so
    [balloons] wins over [data], [data] is used when [balloons] is not an
    array, and any other shape gives zero positions, not an error. *)
Theorem shape_dispatch (data : value) (h : nat) :
  extractBalloonPositions data h = Normal (collect h (rawSequence data) 0)
  /\ (forall items, data = Arr items ->
        extractBalloonPositions data h = Normal (collect h items 0))
  /\ (forall fields items,
        data = Obj fields -> lookup "balloons" fields = Arr items ->
        extractBalloonPositions data h = Normal (collect h items 0))
  /\ (forall fields items,
        data = Obj fields -> isArray (lookup "balloons" fields) = false ->
        lookup "data" fields = Arr items ->
        extractBalloonPositions data h = Normal (collect h items 0))
  /\ ((forall items, data <> Arr items) ->
      (forall fields, data = Obj fields ->
         isArray (lookup "balloons" fields) = false
         /\ isArray (lookup "data" fields) = false) ->
      extractBalloonPositions data h = Normal []).
Proof.
  split; [apply extractBalloonPositions_eq |].
  split; [| split; [| split]].
  - intros items ->. apply extractBalloonPositions_eq.
  - intros fields items -> Hb. rewrite extractBalloonPositions_eq.
    cbn [rawSequence get_own]. rewrite Hb. reflexivity.
  - intros fields items -> Hb Hd. rewrite extractBalloonPositions_eq.
    cbn [rawSequence get_own]. rewrite Hd.
    destruct (lookup "balloons" fields); try reflexivity. discriminate Hb.
  - intros Harr Hobj. rewrite extractBalloonPositions_eq.
    destruct data as [| | b | x | s | items | fields]; try reflexivity.
    + exfalso. apply (Harr items). reflexivity.
    + destruct (Hobj fields eq_refl) as [Hb Hd].
      cbn [rawSequence get_own].
      destruct (lookup "balloons" fields); try discriminate Hb;
        destruct (lookup "data" fields); try discriminate Hd; reflexivity.
Qed.

(** C8. No-raise degradation: [extractBalloonPositions] completes normally
    on every input; a null, undefined or empty snapshot gives no position;
    a malformed element is skipped by itself, the elements before and after
    it being extracted at their own indices; and the [try]/[catch] around
    the body turns any throw into a normal completion that keeps the
    positions pushed so far. *)
Theorem extraction_never_raises (data : value) (h : nat) :
  (exists ps, extractBalloonPositions data h = Normal ps)
  /\ extractBalloonPositions Null h = Normal []
  /\ extractBalloonPositions Undefined h = Normal []
  /\ extractBalloonPositions (Arr []) h = Normal []
  /\ extractBalloonPositions (Obj []) h = Normal []
  /\ extractBalloonPositions
       (Arr [Arr [Num (num_of_Z 10); Num (num_of_Z 20)];
             Null; Str "1,2"; Arr [Num (num_of_Z 5)];
             Arr [Num (num_of_Z 91); Num (num_of_Z 0)];
             Obj [("lat", Str "north")];
             Arr [Num (num_of_Z 1); Num (num_of_Z 2)]]) h
     = Normal [position_at h 0 (num_of_Z 10) (num_of_Z 20) None;
               position_at h 6 (num_of_Z 1) (num_of_Z 2) None]
  /\ (forall before bad after,
        candidate h bad (List.length before) = None ->
        extractBalloonPositions (Arr (before ++ bad :: after)) h
        = Normal (collect h before 0
                  ++ collect h after (S (List.length before))))
  /\ (forall body : M unit, run_try body = Normal (snd (body [])))
  /\ (forall ps, truthy data = true -> typeof data = "object" ->
        fst (extractBody data h ps) = Normal tt).
Proof.
  split; [eexists; apply extractBalloonPositions_eq |].
  repeat (split; [reflexivity |]).
  split; [| split].
  - intros before bad after Hbad. rewrite extractBalloonPositions_eq.
    cbn [rawSequence]. rewrite collect_app. cbn [collect].
    rewrite Nat.add_0_l, Hbad. reflexivity.
  - intros body. unfold run_try, try_catch, ret.
    destruct (body []) as [[[] | e] ps']; reflexivity.
  - intros ps Ht Ho. rewrite extractBody_run by assumption. reflexivity.
Qed.

End ExtractionFacts.

(* ================================================================== *)
(** * Theorems: the order and the arithmetic of doubles *)
(* ================================================================== *)
Module NumberFacts.
Import Js.

Ltac cmp_cases :=
  repeat match goal with
         | |- context [Z.compare ?a ?b] => destruct (Z.compare_spec a b)
         | |- context [Pos.compare ?a ?b] => destruct (Pos.compare_spec a b)
         end.

Lemma le_trans (a b c : number) : le a b = true -> le b c = true -> le a c = true.
Proof.
  unfold le, SFleb, SFcompare.
  destruct a as [sa | sa | | sa ma ea]; destruct b as [sb | sb | | sb mb eb];
    destruct c as [sc | sc | | sc mc ec];
    try destruct sa; try destruct sb; try destruct sc; cbn;
    try (intros; solve [reflexivity | discriminate | assumption]);
    change (Pos.compare_cont Eq) with Pos.compare;
    cmp_cases; cbn; intros; solve [reflexivity | discriminate | lia].
Qed.

Lemma le_refl (a : number) : isNaN a = false -> le a a = true.
Proof.
  unfold le, SFleb, SFcompare.
  destruct a as [sa | sa | | sa ma ea]; try destruct sa; cbn; intros H;
    try reflexivity; try discriminate;
    change (Pos.compare_cont Eq) with Pos.compare;
    rewrite Z.compare_refl, Pos.compare_refl; reflexivity.
Qed.

Lemma le_total (a b : number) :
  isNaN a = false -> isNaN b = false -> lt a b = false -> le b a = true.
Proof.
  unfold le, lt, SFleb, SFltb, SFcompare.
  destruct a as [sa | sa | | sa ma ea]; destruct b as [sb | sb | | sb mb eb];
    try destruct sa; try destruct sb; cbn;
    try (intros; solve [reflexivity | discriminate | assumption]);
    change (Pos.compare_cont Eq) with Pos.compare;
    cmp_cases; cbn; intros; solve [reflexivity | discriminate | lia].
Qed.

Lemma lt_le (a b : number) : lt a b = true -> le a b = true.
Proof.
  unfold le, lt, SFleb, SFltb. destruct (SFcompare a b) as [[] |]; intros; congruence.
Qed.

Lemma shr_1_nonneg (r : shr_record) : (0 <= shr_m r)%Z -> (0 <= shr_m (shr_1 r))%Z.
Proof.
  destruct r as [m rb sb]. cbn [shr_m]. intros H.
  destruct m as [| [p | p |] | p]; cbn; lia.
Qed.

Lemma iter_pos_invariant {A} (P : A -> Prop) (f : A -> A) :
  (forall x, P x -> P (f x)) -> forall n x, P x -> P (iter_pos f n x).
Proof.
  intros Hf. induction n as [n IH | n IH |]; intros x Hx; cbn.
  - apply IH, IH, Hf, Hx.
  - apply IH, IH, Hx.
  - apply Hf, Hx.
Qed.

Lemma shr_nonneg (r : shr_record) (e n : Z) :
  (0 <= shr_m r)%Z -> (0 <= shr_m (fst (shr r e n)))%Z.
Proof.
  intros H. unfold shr. destruct n as [| p | p]; cbn [fst]; try exact H.
  apply (iter_pos_invariant (fun r => (0 <= shr_m r)%Z)); [apply shr_1_nonneg | exact H].
Qed.

Lemma shr_record_of_loc_m (m : Z) (l : location) : shr_m (shr_record_of_loc m l) = m.
Proof. destruct l as [| []]; reflexivity. Qed.

Lemma shr_fexp_nonneg (m e : Z) (l : location) :
  (0 <= m)%Z -> (0 <= shr_m (fst (shr_fexp prec emax m e l)))%Z.
Proof.
  intros H. unfold shr_fexp. apply shr_nonneg. rewrite shr_record_of_loc_m. exact H.
Qed.

Lemma round_nearest_even_nonneg (m : Z) (l : location) :
  (0 <= m)%Z -> (0 <= round_nearest_even m l)%Z.
Proof.
  intros H. unfold round_nearest_even. destruct l as [| []]; try lia.
  destruct (Z.even m); lia.
Qed.

Lemma binary_round_aux_not_NaN (s : bool) (m e : Z) (l : location) :
  (0 <= m)%Z -> isNaN (binary_round_aux prec emax s m e l) = false.
Proof.
  intros H. unfold binary_round_aux.
  pose proof (shr_fexp_nonneg m e l H) as H1.
  destruct (shr_fexp prec emax m e l) as [mrs' e'] eqn:E1. cbn [fst] in H1.
  pose proof (shr_fexp_nonneg _ e' loc_Exact
                (round_nearest_even_nonneg _ (loc_of_shr_record mrs') H1)) as H2.
  destruct (shr_fexp prec emax _ e' loc_Exact) as [mrs'' e''] eqn:E2. cbn [fst] in H2.
  destruct (shr_m mrs'') as [| p | p]; [reflexivity | | lia].
  destruct (e'' <=? emax - prec)%Z; reflexivity.
Qed.

Lemma binary_normalize_not_NaN (m e : Z) (s : bool) :
  isNaN (binary_normalize prec emax m e s) = false.
Proof.
  unfold binary_normalize, binary_round.
  destruct m as [| p | p]; [reflexivity | |];
    destruct (shl_align _ _ _) as [mz ez]; apply binary_round_aux_not_NaN; lia.
Qed.

Lemma add_not_NaN (x y : number) :
  isNaN x = false -> isFinite y = true -> isNaN (add x y) = false.
Proof.
  unfold add, SFadd.
  destruct x as [sx | sx | | sx mx ex]; destruct y as [sy | sy | | sy my ey];
    cbn [isNaN isFinite]; intros Hx Hy; try discriminate; try reflexivity.
  - destruct sx, sy; reflexivity.
  - apply binary_normalize_not_NaN.
Qed.

Lemma div_not_NaN (x : number) (s : bool) (m : positive) (e : Z) :
  isNaN x = false -> isNaN (div x (S754_finite s m e)) = false.
Proof.
  unfold div, SFdiv. destruct x as [sx | sx | | sx mx ex]; cbn [isNaN];
    intros Hx; try discriminate; try reflexivity.
  destruct (SFdiv_core_binary prec emax (Z.pos mx) ex (Z.pos m) e) as [[q e'] l] eqn:E.
  apply binary_round_aux_not_NaN.
  unfold SFdiv_core_binary in E.
  set (s0 := (ex - e - Z.min (fexp prec emax (Zdigits2 (Z.pos mx) + ex - (Zdigits2 (Z.pos m) + e))) (ex - e))%Z) in *.
  set (m' := match s0 with Z0 => Z.pos mx | Zpos _ => Z.shiftl (Z.pos mx) s0 | Zneg _ => 0%Z end) in *.
  assert (Hm' : (0 <= m')%Z).
  { subst m'. destruct s0; try lia. apply Z.shiftl_nonneg. lia. }
  pose proof (Z_div_mod m' (Z.pos m) ltac:(lia)) as Hdm.
  destruct (Z.div_eucl m' (Z.pos m)) as [q0 r0]. inversion E; subst.
  destruct Hdm as [Heq Hr]. nia.
Qed.

Lemma digits2_pos_shift (p : positive) (k : positive) :
  digits2_pos (Pos.iter xO p k) = (digits2_pos p + k)%positive.
Proof.
  induction k as [| k IH] using Pos.peano_ind.
  - cbn. lia.
  - rewrite Pos.iter_succ. cbn [digits2_pos]. rewrite IH. lia.
Qed.

Lemma digits2_pos_lower (p : positive) :
  (2 ^ (Z.pos (digits2_pos p) - 1) <= Z.pos p)%Z.
Proof.
  induction p as [p IH | p IH |]; cbn [digits2_pos].
  - rewrite Pos2Z.inj_succ.
    replace (Z.succ (Z.pos (digits2_pos p)) - 1)%Z with (Z.succ (Z.pos (digits2_pos p) - 1))%Z by lia.
    rewrite Z.pow_succ_r by lia. lia.
  - rewrite Pos2Z.inj_succ.
    replace (Z.succ (Z.pos (digits2_pos p)) - 1)%Z with (Z.succ (Z.pos (digits2_pos p) - 1))%Z by lia.
    rewrite Z.pow_succ_r by lia. lia.
  - cbn. lia.
Qed.

Lemma digits2_pos_bound (p : positive) (k : Z) :
  (Z.pos p < 2 ^ k)%Z -> (0 <= k)%Z -> (Z.pos (digits2_pos p) <= k)%Z.
Proof.
  intros H Hk. pose proof (digits2_pos_lower p) as L.
  destruct (Z_le_gt_dec (Z.pos (digits2_pos p)) k) as [|G]; [assumption |].
  exfalso. assert (2 ^ k <= 2 ^ (Z.pos (digits2_pos p) - 1))%Z
    by (apply Z.pow_le_mono_r; lia). lia.
Qed.

Lemma binary_round_aux_canonical (mz : positive) (ez : Z) :
  Z.pos (digits2_pos mz) = 53%Z -> (-1074 <= ez <= 971)%Z ->
  binary_round_aux prec emax false (Z.pos mz) ez loc_Exact = S754_finite false mz ez.
Proof.
  intros Hd He. unfold binary_round_aux, shr_fexp.
  cbn [Zdigits2 shr_record_of_loc]. rewrite Hd.
  assert (F : fexp prec emax (53 + ez) = ez).
  { unfold fexp, emin, prec, emax. lia. }
  rewrite F, Z.sub_diag. cbn [shr shr_m loc_of_shr_record round_nearest_even].
  cbn [Zdigits2 shr_record_of_loc]. rewrite Hd, F, Z.sub_diag. cbn [shr shr_m].
  replace (ez <=? emax - prec)%Z with true; [reflexivity |].
  symmetry. apply Z.leb_le. unfold emax, prec. lia.
Qed.

Lemma num_of_pos_finite (p : positive) :
  (Z.pos p < 2 ^ 53)%Z ->
  exists m e, num_of_Z (Z.pos p) = S754_finite false m e.
Proof.
  intros H. pose proof (digits2_pos_bound p 53 H ltac:(lia)) as Hd.
  unfold num_of_Z, binary_normalize, binary_round, shl_align.
  assert (F : fexp prec emax (Z.pos (digits2_pos p) + 0) = (Z.pos (digits2_pos p) - 53)%Z).
  { unfold fexp, emin, prec, emax. lia. }
  rewrite F.
  destruct (Z.pos (digits2_pos p) - 53 - 0)%Z as [| d | d] eqn:E; try lia.
  - eexists _, _. apply binary_round_aux_canonical; lia.
  - eexists _, _. apply binary_round_aux_canonical.
    + rewrite digits2_pos_shift. lia.
    + lia.
Qed.

Lemma num_of_nat_finite (n : nat) :
  (0 < n)%nat -> (Z.of_nat n < 2 ^ 53)%Z ->
  exists m e, num_of_nat n = S754_finite false m e.
Proof.
  intros Hn Hb. unfold num_of_nat.
  destruct (Z.of_nat n) as [| p | p] eqn:E; try lia.
  apply num_of_pos_finite. exact Hb.
Qed.

End NumberFacts.

(* ================================================================== *)
(** * Theorems: the cross-hour merge *)
(* ================================================================== *)
Module MergeFacts.
Import Js BalloonData Extraction Merge.
Local Open Scope string_scope.
Local Open Scope list_scope.

Section MapLaws.
Variable V : Type.
Implicit Types (m : StringMap.t V) (k : string) (v : V).

Lemma set_then_get m k v : StringMap.get (StringMap.set m k v) k = Some v.
Proof.
  induction m as [| [k' v'] rest IH]; cbn.
  - rewrite String.eqb_refl. reflexivity.
  - destruct (k =? k') eqn:E; cbn; rewrite E; [reflexivity | exact IH].
Qed.

Lemma set_keeps_others m k k' v :
  k <> k' -> StringMap.get (StringMap.set m k v) k' = StringMap.get m k'.
Proof.
  intros Hne. induction m as [| [k0 v0] rest IH]; cbn.
  - destruct (k' =? k) eqn:E; [| reflexivity].
    apply String.eqb_eq in E. congruence.
  - destruct (k =? k0) eqn:E; cbn.
    + apply String.eqb_eq in E. subst k0.
      destruct (k' =? k) eqn:E'; [| reflexivity].
      apply String.eqb_eq in E'. congruence.
    + destruct (k' =? k0); [reflexivity | exact IH].
Qed.

Lemma get_none_keys m k : StringMap.get m k = None -> ~ In k (StringMap.keys m).
Proof.
  induction m as [| [k' v'] rest IH]; cbn; [tauto |].
  destruct (k =? k') eqn:E; [discriminate |].
  intros H [H' | H']; [| exact (IH H H')].
  apply String.eqb_neq in E. congruence.
Qed.

Lemma keys_set_present m k v v0 :
  StringMap.get m k = Some v0 -> StringMap.keys (StringMap.set m k v) = StringMap.keys m.
Proof.
  induction m as [| [k' v'] rest IH]; cbn; [discriminate |].
  destruct (k =? k') eqn:E; cbn; [reflexivity |].
  intros H. f_equal. apply IH. exact H.
Qed.

Lemma keys_set_absent m k v :
  StringMap.get m k = None ->
  StringMap.keys (StringMap.set m k v) = StringMap.keys m ++ [k].
Proof.
  induction m as [| [k' v'] rest IH]; cbn; [reflexivity |].
  destruct (k =? k') eqn:E; cbn; [discriminate |].
  intros H. f_equal. apply IH. exact H.
Qed.

Lemma set_entries (P : string * V -> Prop) m k v :
  Forall P m -> P (k, v) -> (forall v', P (k, v') -> P (k, v)) ->
  Forall P (StringMap.set m k v).
Proof.
  intros Hm Hkv _. induction m as [| [k' v'] rest IH]; cbn.
  - constructor; [assumption | constructor].
  - inversion Hm as [| x l Hx Hl]; subst.
    destruct (k =? k') eqn:E.
    + apply String.eqb_eq in E. subst k'. constructor; assumption.
    + constructor; [assumption | apply IH; assumption].
Qed.

End MapLaws.

Lemma mergePosition_present (m : StringMap.t BalloonPosition)
    (pos old : BalloonPosition) :
  StringMap.get m (id pos) = Some old ->
  mergePosition m pos
  = if (hour pos <? hour old)%nat then StringMap.set m (id pos) pos else m.
Proof.
  intros H. unfold mergePosition, StringMap.has, hour. rewrite H. reflexivity.
Qed.

Lemma mergePosition_absent (m : StringMap.t BalloonPosition) (pos : BalloonPosition) :
  StringMap.get m (id pos) = None ->
  mergePosition m pos = StringMap.set m (id pos) pos.
Proof.
  intros H. unfold mergePosition, StringMap.has. rewrite H. reflexivity.
Qed.

Lemma mergePosition_keyed (m : StringMap.t BalloonPosition) (pos : BalloonPosition) :
  keyed_by_id m -> keyed_by_id (mergePosition m pos).
Proof.
  intros [Hnd Hid].
  destruct (StringMap.get m (id pos)) as [old |] eqn:G.
  - rewrite (mergePosition_present _ _ _ G).
    destruct (hour pos <? hour old)%nat; [| split; assumption].
    split.
    + rewrite (keys_set_present _ _ _ _ _ G). exact Hnd.
    + apply set_entries; auto.
  - rewrite (mergePosition_absent _ _ G). split.
    + rewrite (keys_set_absent _ _ _ _ G).
      apply NoDup_app; [exact Hnd | repeat constructor; intros [] |].
      intros k Hk [Hk' | []]. subst k. exact (get_none_keys _ _ _ G Hk).
    + apply set_entries; auto.
Qed.

Lemma mergePositions_keyed (ps : list BalloonPosition)
    (m : StringMap.t BalloonPosition) :
  keyed_by_id m -> keyed_by_id (mergePositions m ps).
Proof.
  revert m. induction ps as [| p ps IH]; intros m Hm; cbn; [exact Hm |].
  apply IH. apply mergePosition_keyed. exact Hm.
Qed.

Lemma keyed_values_NoDup (m : StringMap.t BalloonPosition) :
  keyed_by_id m -> NoDup (map id (StringMap.values m)).
Proof.
  intros [Hnd Hid]. unfold StringMap.values, StringMap.keys in *.
  rewrite map_map.
  replace (map (fun kv => id (snd kv)) m) with (map fst m); [exact Hnd |].
  apply map_ext_in. intros kv Hin.
  rewrite Forall_forall in Hid. apply Hid. exact Hin.
Qed.

Lemma mergePosition_covers_self (m : StringMap.t BalloonPosition) (p : BalloonPosition) :
  covers (mergePosition m p) p.
Proof.
  unfold covers.
  destruct (StringMap.get m (id p)) as [old |] eqn:G.
  - rewrite (mergePosition_present _ _ _ G).
    destruct (hour p <? hour old)%nat eqn:E.
    + exists p. rewrite set_then_get. split; [reflexivity | lia].
    + exists old. split; [exact G |]. apply Nat.ltb_ge in E. exact E.
  - rewrite (mergePosition_absent _ _ G).
    exists p. rewrite set_then_get. split; [reflexivity | lia].
Qed.

Lemma mergePosition_covers_mono (m : StringMap.t BalloonPosition)
    (p q : BalloonPosition) :
  covers m p -> covers (mergePosition m q) p.
Proof.
  intros (old & G & Hle). unfold covers.
  destruct (string_dec (id q) (id p)) as [E | E].
  - rewrite <- E in G. rewrite (mergePosition_present _ _ _ G).
    destruct (hour q <? hour old)%nat eqn:L.
    + exists q. rewrite <- E, set_then_get. split; [reflexivity |].
      apply Nat.ltb_lt in L. lia.
    + exists old. rewrite <- E. split; assumption.
  - destruct (StringMap.get m (id q)) as [oq |] eqn:Gq.
    + rewrite (mergePosition_present _ _ _ Gq).
      destruct (hour q <? hour oq)%nat.
      * exists old. rewrite set_keeps_others by exact E. split; assumption.
      * exists old. split; assumption.
    + rewrite (mergePosition_absent _ _ Gq).
      exists old. rewrite set_keeps_others by exact E. split; assumption.
Qed.

Lemma mergePositions_covers_mono (ps : list BalloonPosition)
    (m : StringMap.t BalloonPosition) (p : BalloonPosition) :
  covers m p -> covers (mergePositions m ps) p.
Proof.
  revert m. induction ps as [| q ps IH]; intros m H; cbn; [exact H |].
  apply IH. apply mergePosition_covers_mono. exact H.
Qed.

Lemma mergePositions_covers (ps : list BalloonPosition)
    (m : StringMap.t BalloonPosition) :
  Forall (covers (mergePositions m ps)) ps.
Proof.
  revert m. induction ps as [| p ps IH]; intros m; constructor.
  - cbn. apply mergePositions_covers_mono. apply mergePosition_covers_self.
  - cbn. apply IH.
Qed.

Lemma mergePosition_covered (m : StringMap.t BalloonPosition) (p : BalloonPosition) :
  covers m p -> mergePosition m p = m.
Proof.
  intros (old & G & Hle). rewrite (mergePosition_present _ _ _ G).
  destruct (hour p <? hour old)%nat eqn:L; [| reflexivity].
  apply Nat.ltb_lt in L. lia.
Qed.

Lemma mergePositions_covered (ps : list BalloonPosition)
    (m : StringMap.t BalloonPosition) :
  Forall (covers m) ps -> mergePositions m ps = m.
Proof.
  induction ps as [| p ps IH]; intros H; cbn; [reflexivity |].
  inversion H as [| x l Hp Hps]; subst.
  rewrite (mergePosition_covered _ _ Hp). apply IH. exact Hps.
Qed.

(** Merging the same positions a second time changes nothing. *)
Lemma mergePositions_idempotent (ps : list BalloonPosition)
    (m : StringMap.t BalloonPosition) :
  mergePositions (mergePositions m ps) ps = mergePositions m ps.
Proof.
  apply mergePositions_covered. apply mergePositions_covers.
Qed.

(** The loop over the hours merges the positions of all hours. *)
Lemma mergeHours_eq (data24h : list value) (m : StringMap.t BalloonPosition) (h : nat) :
  mergeHours m data24h h = Normal (mergePositions m (allPositions data24h h)).
Proof.
  revert m h. induction data24h as [| data rest IH]; intros m h; cbn [mergeHours allPositions].
  - reflexivity.
  - destruct (truthy data) eqn:T; cbn [negb].
    + rewrite ExtractionFacts.extractBalloonPositions_eq, IH.
      unfold mergePositions. rewrite fold_left_app. reflexivity.
    + rewrite IH. reflexivity.
Qed.

(** What the map holds was given to it. *)
Lemma get_entry (m : StringMap.t BalloonPosition) (k : string) (v : BalloonPosition) :
  StringMap.get m k = Some v -> In (k, v) m.
Proof.
  induction m as [| [k0 v0] rest IH]; cbn [StringMap.get]; [discriminate |].
  destruct (String.eqb_spec k k0) as [-> | Hne]; intros H.
  - inversion H. left. reflexivity.
  - right. apply IH. exact H.
Qed.

Lemma set_values_from (m : StringMap.t BalloonPosition) (k : string)
    (v q : BalloonPosition) :
  In q (StringMap.values (StringMap.set m k v)) ->
  q = v \/ In q (StringMap.values m).
Proof.
  unfold StringMap.values.
  induction m as [| [k0 v0] rest IH]; cbn [StringMap.set map In].
  - intros [<- | []]. left. reflexivity.
  - destruct (String.eqb k k0); cbn [map In snd].
    + intros [<- | H]; [left; reflexivity | right; right; exact H].
    + intros [<- | H]; [right; left; reflexivity |].
      destruct (IH H) as [-> | H']; [left; reflexivity | right; right; exact H'].
Qed.

Lemma mergePositions_values_from (ps : list BalloonPosition)
    (m : StringMap.t BalloonPosition) (q : BalloonPosition) :
  In q (StringMap.values (mergePositions m ps)) ->
  In q (StringMap.values m) \/ In q ps.
Proof.
  revert m. induction ps as [| p rest IH]; intros m; cbn [mergePositions fold_left].
  - intros H. left. exact H.
  - intros H. destruct (IH _ H) as [H' | H']; [| right; right; exact H'].
    unfold mergePosition in H'.
    destruct (negb (StringMap.has m (id p))
              || (hourIndex_or_24 (Some p)
                  <? hourIndex_or_24 (StringMap.get m (id p)))%nat).
    + destruct (set_values_from _ _ _ _ H') as [-> | H''];
        [right; left; reflexivity | left; exact H''].
    + left. exact H'.
Qed.

(** The merged map holds, for every position it was given, an entry of the
    same id that is at least as recent; and it holds nothing else. *)
Lemma merged_values (ps : list BalloonPosition) :
  (forall q, In q (StringMap.values (mergePositions StringMap.empty ps)) -> In q ps)
  /\ (forall p, In p ps ->
        exists q,
          In q (StringMap.values (mergePositions StringMap.empty ps))
          /\ id q = id p
          /\ (hourIndex_or_24 (Some q) <= hourIndex_or_24 (Some p))%nat).
Proof.
  split.
  - intros q H. destruct (mergePositions_values_from ps StringMap.empty q H) as [[] | H'].
    exact H'.
  - intros p Hin.
    pose proof (mergePositions_covers ps StringMap.empty) as Hc.
    rewrite Forall_forall in Hc. destruct (Hc p Hin) as (q & G & Hle).
    assert (Hk : keyed_by_id (mergePositions StringMap.empty ps)).
    { apply mergePositions_keyed. split; constructor. }
    apply get_entry in G. exists q. split; [| split; [| exact Hle]].
    + unfold StringMap.values. apply (in_map snd) in G. exact G.
    + destruct Hk as [_ Hk]. rewrite Forall_forall in Hk.
      specialize (Hk _ G). cbn [fst snd] in Hk. symmetry. exact Hk.
Qed.

(** C5. Cross-hour merge preference: [extractAllBalloonPositions] returns
    the merge of the positions that [extractBalloonPositions] gives for
    the snapshots, hour by hour: every position it returns is one of them,
    it returns at most one position per id, and for every extracted
    position it returns one of the same id that is at least as recent.  An
    entry already in the map is replaced exactly when its hourIndex is
    strictly greater than the candidate's, so the smaller hourIndex wins;
    with an id X at hourIndex 0 and the same id at hourIndex 5, the merged
    result keeps the hourIndex-0 entry; and running the merge again on the
    same input, from the map it built, leaves the map as it is. *)
Theorem merge_prefers_recent (data24h : list value) :
  (exists m,
     mergeHours StringMap.empty data24h 0 = Normal m
     /\ extractAllBalloonPositions data24h = Normal (StringMap.values m)
     /\ NoDup (map id (StringMap.values m))
     /\ mergeHours m data24h 0 = Normal m)
  /\ (forall m pos old,
        StringMap.get m (id pos) = Some old ->
        mergePosition m pos
        = if (hourIndex_or_24 (Some pos) <? hourIndex_or_24 (Some old))%nat
          then StringMap.set m (id pos) pos else m)
  /\ (forall m pos,
        StringMap.get m (id pos) = None ->
        mergePosition m pos = StringMap.set m (id pos) pos)
  /\ (forall x0 x5,
        id x0 = id x5 -> hourIndex x0 = Some 0%nat -> hourIndex x5 = Some 5%nat ->
        StringMap.values
          (mergePositions (mergePositions StringMap.empty [x0]) [x5]) = [x0])
  /\ (forall ps0 ps5 x0,
        In x0 ps0 -> hourIndex x0 = Some 0%nat ->
        exists kept,
          StringMap.get (mergePositions (mergePositions StringMap.empty ps0) ps5)
                        (id x0) = Some kept
          /\ hourIndex kept = Some 0%nat)
  /\ (forall m ps, mergePositions (mergePositions m ps) ps = mergePositions m ps)
  /\ (forall h, allPositions [] h = [])
  /\ (forall data rest h,
        allPositions (data :: rest) h
        = (if truthy data
           then match extractBalloonPositions data h with
                | Normal ps => ps
                | Throw _ => []
                end
           else [])
          ++ allPositions rest (S h))
  /\ (exists out,
        extractAllBalloonPositions data24h = Normal out
        /\ out = StringMap.values
                   (mergePositions StringMap.empty (allPositions data24h 0))
        /\ NoDup (map id out)
        /\ (forall q, In q out -> In q (allPositions data24h 0))
        /\ (forall p, In p (allPositions data24h 0) ->
              exists q,
                In q out /\ id q = id p
                /\ (hourIndex_or_24 (Some q) <= hourIndex_or_24 (Some p))%nat))
  /\ (forall ps,
        (forall q,
           In q (StringMap.values (mergePositions StringMap.empty ps)) -> In q ps)
        /\ (forall p, In p ps ->
              exists q,
                In q (StringMap.values (mergePositions StringMap.empty ps))
                /\ id q = id p
                /\ (hourIndex_or_24 (Some q) <= hourIndex_or_24 (Some p))%nat)).
Proof.
  split; [| split; [| split; [| split; [| split; [| split; [| split; [| split; [| split]]]]]]]].
  - exists (mergePositions StringMap.empty (allPositions data24h 0)).
    split; [apply mergeHours_eq |].
    split; [unfold extractAllBalloonPositions; rewrite mergeHours_eq; reflexivity |].
    split.
    + apply keyed_values_NoDup. apply mergePositions_keyed.
      split; [constructor | constructor].
    + rewrite mergeHours_eq. rewrite mergePositions_idempotent. reflexivity.
  - intros m pos old G. apply (mergePosition_present _ _ _ G).
  - intros m pos G. apply (mergePosition_absent _ _ G).
  - intros x0 x5 Hid H0 H5. cbn [mergePositions fold_left].
    rewrite (mergePosition_absent StringMap.empty x0 eq_refl).
    cbn [StringMap.set StringMap.empty].
    assert (G : StringMap.get [(id x0, x0)] (id x5) = Some x0).
    { cbn. rewrite Hid, String.eqb_refl. reflexivity. }
    rewrite (mergePosition_present _ _ _ G).
    unfold hour, hourIndex_or_24. rewrite H0, H5. reflexivity.
  - intros ps0 ps5 x0 Hin H0.
    pose proof (mergePositions_covers ps0 StringMap.empty) as Hc.
    rewrite Forall_forall in Hc. specialize (Hc _ Hin).
    destruct (mergePositions_covers_mono ps5 _ _ Hc) as (kept & G & Hle).
    exists kept. split; [exact G |].
    unfold hour, hourIndex_or_24 in Hle. rewrite H0 in Hle.
    destruct (hourIndex kept) as [k |]; [| lia].
    f_equal. lia.
  - intros m ps. apply mergePositions_idempotent.
  - intros h. reflexivity.
  - intros data rest h. cbn [allPositions].
    rewrite ExtractionFacts.extractBalloonPositions_eq. reflexivity.
  - exists (StringMap.values
              (mergePositions StringMap.empty (allPositions data24h 0))).
    destruct (merged_values (allPositions data24h 0)) as [Hfrom Hcov].
    split; [unfold extractAllBalloonPositions; rewrite mergeHours_eq; reflexivity |].
    split; [reflexivity |].
    split.
    { apply keyed_values_NoDup. apply mergePositions_keyed. split; constructor. }
    split; [exact Hfrom | exact Hcov].
  - intros ps. apply merged_values.
Qed.

End MergeFacts.

(* ================================================================== *)
(** * Theorems: the hazard classifier and the ranking *)
(* ================================================================== *)
Module ClassifierFacts.
Import Js BalloonMap Ranking.
Local Open Scope string_scope.
Local Open Scope list_scope.

Lemma lowered_falsy (v : value) (fallback : string) :
  truthy v = false -> lowered v fallback = Normal (toLowerCase fallback).
Proof.
  intros H. unfold lowered, or_else. rewrite H. reflexivity.
Qed.

Lemma lowered_string (s fallback : string) :
  s <> "" -> lowered (Str s) fallback = Normal (toLowerCase s).
Proof.
  intros H. unfold lowered, or_else. cbn [truthy].
  destruct (s =? "") eqn:E; [| reflexivity].
  apply String.eqb_eq in E. contradiction.
Qed.

Lemma alertColor_fallthrough (severity urgency : string) :
  one_of namedSeverities severity = false ->
  one_of namedUrgencies urgency = false ->
  alertColor severity urgency = "#FF6B6B".
Proof.
  unfold one_of, namedSeverities, namedUrgencies, alertColor. cbn [existsb].
  intros Hs Hu.
  repeat (apply orb_false_iff in Hs; destruct Hs as [? Hs]).
  repeat (apply orb_false_iff in Hu; destruct Hu as [? Hu]).
  repeat match goal with X : (_ =? _) = false |- _ => rewrite X; clear X end.
  reflexivity.
Qed.

(** C1, as the code has it. [getAlertStyle] reads an absent (falsy) severity
    or urgency as the empty string, not as "unknown", and compares the
    lower-cased text; an advisory whose severity is none of extreme, severe,
    moderate, minor, unknown and whose urgency is neither immediate nor
    expected gets the default red [#FF6B6B], undashed. [getAlertStyle]
    computes a colour and no tier. *)
Theorem getAlertStyle_fallthrough (feature : value) (severity urgency : string) :
  lowered (property feature "severity") "" = Normal severity ->
  lowered (property feature "urgency") "" = Normal urgency ->
  one_of namedSeverities severity = false ->
  one_of namedUrgencies urgency = false ->
  (exists style,
     getAlertStyle feature = Normal style
     /\ color style = "#FF6B6B" /\ fillColor style = "#FF6B6B"
     /\ dashArray style = None)
  /\ (forall v, truthy v = false -> lowered v "" = Normal "")
  /\ (forall s, s <> "" -> lowered (Str s) "" = Normal (toLowerCase s))
  /\ (exists style,
        getAlertStyle (Obj []) = Normal style /\ color style = "#FF6B6B").
Proof.
  intros Hs Hu Hns Hnu. split; [| split; [| split]].
  - unfold getAlertStyle. rewrite Hs, Hu. eexists. split; [reflexivity |].
    cbn [color fillColor dashArray].
    rewrite (alertColor_fallthrough _ _ Hns Hnu).
    split; [reflexivity |]. split; [reflexivity |].
    unfold one_of, namedSeverities, namedUrgencies in Hns, Hnu.
    cbn [existsb] in Hns, Hnu.
    apply orb_false_iff in Hns. destruct Hns as [Hse _].
    apply orb_false_iff in Hnu. destruct Hnu as [Hui _].
    rewrite Hse, Hui. reflexivity.
  - intros v Hv. apply (lowered_falsy v "" Hv).
  - intros s Hne. apply (lowered_string s "" Hne).
  - eexists. split; reflexivity.
Qed.

Lemma getAlertStyle_fallthrough_witness :
  (exists style,
     getAlertStyle (pointAlert [("severity", Str "Catastrophic");
                                ("urgency", Str "Future")]) = Normal style
     /\ color style = "#FF6B6B" /\ fillColor style = "#FF6B6B"
     /\ dashArray style = None)
  /\ (forall v, truthy v = false -> lowered v "" = Normal "")
  /\ (forall s, s <> "" -> lowered (Str s) "" = Normal (toLowerCase s))
  /\ (exists style,
        getAlertStyle (Obj []) = Normal style /\ color style = "#FF6B6B").
Proof.
  apply (@getAlertStyle_fallthrough
           (pointAlert [("severity", Str "Catastrophic"); ("urgency", Str "Future")])
           "catastrophic" "future"); reflexivity.
Defined.

(** C1 as stated fails on the empty advisory: its severity is read as the
    empty string, so no rule matches (read as "unknown" it would match the
    green rule), and its colour is the default red, not the neutral gray. *)
Lemma empty_advisory_is_red :
  lowered (property (Obj []) "severity") "" = Normal ""
  /\ (exists style,
        getAlertStyle (Obj []) = Normal style
        /\ color style = "#FF6B6B" /\ color style <> neutralGray)
  /\ alertColor "unknown" "unknown" = "#51CF66".
Proof.
  split; [reflexivity |]. split; [| reflexivity].
  eexists. split; [reflexivity |]. split; [reflexivity | discriminate].
Qed.

Lemma compareSeverity_ranked (a b : value) :
  ranked a = true -> ranked b = true ->
  compareSeverity a b = Normal (Z.of_nat (rankOf a) - Z.of_nat (rankOf b))%Z.
Proof.
  unfold ranked, rankOf, alertRank, compareSeverity.
  destruct (severityKey a) as [ka | ea]; [| discriminate].
  destruct (rank ka) as [ra |]; [| discriminate].
  destruct (severityKey b) as [kb | eb]; [| discriminate].
  destruct (rank kb) as [rb |]; [| discriminate].
  reflexivity.
Qed.

Lemma insert_ranked (x : value) (l : list value) :
  ranked x = true -> forallb ranked l = true ->
  insert compareSeverity x l = Normal (insertByRank x l).
Proof.
  intros Hx. induction l as [| y rest IH]; intros Hl; cbn [insert insertByRank].
  - reflexivity.
  - cbn in Hl. apply andb_true_iff in Hl. destruct Hl as [Hy Hrest].
    rewrite (compareSeverity_ranked x y Hx Hy).
    destruct (rankOf x <=? rankOf y)%nat eqn:E.
    + apply Nat.leb_le in E.
      replace (Z.of_nat (rankOf x) - Z.of_nat (rankOf y) <=? 0)%Z with true
        by (symmetry; apply Z.leb_le; lia).
      reflexivity.
    + apply Nat.leb_gt in E.
      replace (Z.of_nat (rankOf x) - Z.of_nat (rankOf y) <=? 0)%Z with false
        by (symmetry; apply Z.leb_gt; lia).
      rewrite (IH Hrest). reflexivity.
Qed.

Lemma insertByRank_ranked (x : value) (l : list value) :
  ranked x = true -> forallb ranked l = true ->
  forallb ranked (insertByRank x l) = true.
Proof.
  intros Hx. induction l as [| y rest IH]; intros Hl; cbn [insertByRank forallb].
  - rewrite Hx. reflexivity.
  - cbn in Hl. apply andb_true_iff in Hl. destruct Hl as [Hy Hrest].
    destruct (rankOf x <=? rankOf y)%nat; cbn [forallb].
    + rewrite Hx, Hy, Hrest. reflexivity.
    + rewrite Hy, (IH Hrest). reflexivity.
Qed.

Lemma sortByRank_ranked (l : list value) :
  forallb ranked l = true -> forallb ranked (sortByRank l) = true.
Proof.
  induction l as [| x rest IH]; cbn [sortByRank forallb]; intros H; [reflexivity |].
  apply andb_true_iff in H. destruct H as [Hx Hrest].
  apply insertByRank_ranked; [exact Hx | apply IH, Hrest].
Qed.

(** On alerts that all have a rank, the sort completes normally with the
    insertion sort by rank. *)
Lemma sort_ranked (l : list value) :
  forallb ranked l = true -> sort compareSeverity l = Normal (sortByRank l).
Proof.
  induction l as [| x rest IH]; cbn [sort sortByRank forallb]; intros H; [reflexivity |].
  apply andb_true_iff in H. destruct H as [Hx Hrest].
  rewrite (IH Hrest). apply insert_ranked; [exact Hx | apply sortByRank_ranked, Hrest].
Qed.

Lemma insertByRank_perm (x : value) (l : list value) :
  Permutation (insertByRank x l) (x :: l).
Proof.
  induction l as [| y rest IH]; cbn [insertByRank]; [apply Permutation_refl |].
  destruct (rankOf x <=? rankOf y)%nat; [apply Permutation_refl |].
  apply (Permutation_trans (l' := y :: x :: rest)).
  - apply perm_skip. exact IH.
  - apply perm_swap.
Qed.

Lemma sortByRank_perm (l : list value) : Permutation (sortByRank l) l.
Proof.
  induction l as [| x rest IH]; cbn [sortByRank]; [apply Permutation_refl |].
  apply (Permutation_trans (insertByRank_perm x (sortByRank rest))).
  apply perm_skip. exact IH.
Qed.

Lemma insertByRank_sorted (x : value) (l : list value) :
  Sorted byRank l -> Sorted byRank (insertByRank x l).
Proof.
  induction l as [| y rest IH]; intros Hs; cbn [insertByRank].
  - repeat constructor.
  - destruct (rankOf x <=? rankOf y)%nat eqn:E.
    + apply Nat.leb_le in E. constructor; [exact Hs |]. constructor. exact E.
    + apply Nat.leb_gt in E. inversion Hs as [| a l' Hrest Hhd]; subst.
      constructor; [apply IH, Hrest |].
      destruct rest as [| z rest']; cbn [insertByRank].
      * constructor. unfold byRank. lia.
      * destruct (rankOf x <=? rankOf z)%nat.
        -- constructor. unfold byRank. lia.
        -- inversion Hhd; subst. constructor. assumption.
Qed.

Lemma sortByRank_sorted (l : list value) : Sorted byRank (sortByRank l).
Proof.
  induction l as [| x rest IH]; cbn [sortByRank]; [constructor |].
  apply insertByRank_sorted. exact IH.
Qed.

Lemma insertByRank_stable (r : nat) (x : value) (l : list value) :
  ofRank r (insertByRank x l) = ofRank r (x :: l).
Proof.
  induction l as [| y rest IH]; cbn [insertByRank]; [reflexivity |].
  destruct (rankOf x <=? rankOf y)%nat eqn:E; [reflexivity |].
  apply Nat.leb_gt in E. unfold ofRank in *. cbn [filter] in *.
  rewrite IH.
  destruct (rankOf x =? r)%nat eqn:Ex; destruct (rankOf y =? r)%nat eqn:Ey;
    try reflexivity.
  apply Nat.eqb_eq in Ex. apply Nat.eqb_eq in Ey. lia.
Qed.

Lemma sortByRank_stable (r : nat) (l : list value) :
  ofRank r (sortByRank l) = ofRank r l.
Proof.
  induction l as [| x rest IH]; cbn [sortByRank]; [reflexivity |].
  rewrite insertByRank_stable. unfold ofRank in *. cbn [filter]. rewrite IH.
  reflexivity.
Qed.

Lemma rank_missing (key : string) :
  severityOrder key = Missing -> rank key = Some 99%nat.
Proof. unfold rank. intros ->. reflexivity. Qed.

Lemma severityPlace_eq (alert : value) (key : string) :
  severityKey alert = Normal key ->
  severityPlace alert
  = if String.eqb key "extreme" then 0%nat
    else if String.eqb key "severe" then 1%nat
    else if String.eqb key "moderate" then 2%nat
    else if String.eqb key "minor" then 3%nat
    else if String.eqb key "unknown" then 4%nat
    else 5%nat.
Proof.
  intros Hk. unfold severityPlace. rewrite Hk. cbn [placeIn].
  repeat match goal with
         | |- context [String.eqb key ?n] => destruct (String.eqb key n)
         end; reflexivity.
Qed.

(** The rank the comparator uses and the place in the fixed order number
    the same classes in the same order: ranks 0 to 4 are the places 0 to
    4, rank 99 is the place 5. *)
Lemma rank_of_place (alert : value) :
  ranked alert = true ->
  (severityPlace alert <= 5)%nat
  /\ rankOf alert
     = (if (severityPlace alert <? 5)%nat then severityPlace alert else 99%nat).
Proof.
  unfold ranked, rankOf, alertRank. intros Hr.
  destruct (severityKey alert) as [key |] eqn:Hk; [| discriminate].
  rewrite (severityPlace_eq alert key Hk).
  unfold rank, severityOrder in *.
  destruct (String.eqb key "extreme"); [split; [lia | reflexivity] |].
  destruct (String.eqb key "severe"); [split; [lia | reflexivity] |].
  destruct (String.eqb key "moderate"); [split; [lia | reflexivity] |].
  destruct (String.eqb key "minor"); [split; [lia | reflexivity] |].
  destruct (String.eqb key "unknown"); [split; [lia | reflexivity] |].
  destruct (existsb (String.eqb key) objectPrototypeKeys); [discriminate |].
  split; [lia | reflexivity].
Qed.

Lemma rank_le_place (a b : value) :
  ranked a = true -> ranked b = true ->
  ((rankOf a <= rankOf b)%nat <-> (severityPlace a <= severityPlace b)%nat).
Proof.
  intros Ha Hb.
  destruct (rank_of_place a Ha) as [La ->], (rank_of_place b Hb) as [Lb ->].
  destruct (Nat.ltb_spec (severityPlace a) 5), (Nat.ltb_spec (severityPlace b) 5); lia.
Qed.

Lemma sorted_by_place (l : list value) :
  forallb ranked l = true -> Sorted byRank l -> Sorted byPlace l.
Proof.
  induction l as [| a rest IH]; intros Hr Hs; [constructor |].
  cbn [forallb] in Hr. apply andb_true_iff in Hr. destruct Hr as [Ha Hrest].
  apply Sorted_inv in Hs. destruct Hs as [Hs Hhd].
  constructor; [apply IH; assumption |].
  destruct rest as [| b rest']; constructor.
  apply HdRel_inv in Hhd.
  cbn [forallb] in Hrest. apply andb_true_iff in Hrest.
  apply (rank_le_place a b Ha (proj1 Hrest)). exact Hhd.
Qed.

Lemma ofPlace_ofRank (k : nat) (l : list value) :
  forallb ranked l = true -> (k <= 5)%nat ->
  ofPlace k l = ofRank (if (k <? 5)%nat then k else 99%nat) l.
Proof.
  intros Hr Hk. unfold ofPlace, ofRank. apply filter_ext_in. intros a Hin.
  rewrite forallb_forall in Hr.
  destruct (rank_of_place a (Hr a Hin)) as [La ->].
  destruct (Nat.ltb_spec (severityPlace a) 5), (Nat.ltb_spec k 5);
    match goal with
    | |- (?x =? ?y)%nat = (?u =? ?v)%nat =>
        destruct (Nat.eqb_spec x y), (Nat.eqb_spec u v); try reflexivity; lia
    end.
Qed.

Lemma ofPlace_beyond (k : nat) (l : list value) :
  forallb ranked l = true -> (5 < k)%nat -> ofPlace k l = [].
Proof.
  intros Hr Hk. unfold ofPlace.
  induction l as [| a rest IH]; cbn [filter]; [reflexivity |].
  cbn [forallb] in Hr. apply andb_true_iff in Hr. destruct Hr as [Ha Hrest].
  destruct (rank_of_place a Ha) as [La _].
  destruct (Nat.eqb_spec (severityPlace a) k); [lia | apply IH; exact Hrest].
Qed.

(** C2, as the code has it. [sortedAlerts] orders the alerts with a
    supported geometry by their severity alone: lower-cased, an absent
    severity read as "unknown", in the order extreme, severe, moderate,
    minor, unknown, any other severity last (rank 99, place 5). The
    urgency plays no part. When every such alert has a rank (its severity
    is absent or a string, and names no member of Object.prototype) the
    result is the stable sort by the place of the severity in the fixed
    order extreme < severe < moderate < minor < unknown < any other: a
    permutation of the valid alerts, ascending in place, alerts of equal
    place keeping their order; the rank the comparator subtracts orders
    the alerts as the place does. Severities minor, extreme, severe,
    moderate come out as extreme, severe, moderate, minor; and a list with
    every named severity, two that are not named and an absent one comes
    out in the fixed order, the absent one with "unknown". *)
Theorem sortedAlerts_by_severity (alerts : list value) :
  forallb ranked (validAlerts alerts) = true ->
  (exists out,
     sortedAlerts alerts = Normal out
     /\ Permutation out (validAlerts alerts)
     /\ Sorted (fun a b => (rankOf a <= rankOf b)%nat) out
     /\ (forall r, ofRank r out = ofRank r (validAlerts alerts))
     /\ Sorted (fun a b => (severityPlace a <= severityPlace b)%nat) out
     /\ (forall k, ofPlace k out = ofPlace k (validAlerts alerts)))
  /\ (forall alert key,
        severityKey alert = Normal key ->
        alertRank alert
        = match severityOrder key with
          | Own n => Some n | Missing => Some 99%nat | Inherited => None
          end)
  /\ (forall alert, severityKey alert
                    = lowered (property alert "severity") "unknown")
  /\ sortedAlerts [pointAlert [("severity", Str "Minor")];
                   pointAlert [("severity", Str "Extreme")];
                   pointAlert [("severity", Str "Severe")];
                   pointAlert [("severity", Str "Moderate")]]
     = Normal [pointAlert [("severity", Str "Extreme")];
               pointAlert [("severity", Str "Severe")];
               pointAlert [("severity", Str "Moderate")];
               pointAlert [("severity", Str "Minor")]]
  /\ (forall alert key,
        severityKey alert = Normal key ->
        severityPlace alert
        = if String.eqb key "extreme" then 0%nat
          else if String.eqb key "severe" then 1%nat
          else if String.eqb key "moderate" then 2%nat
          else if String.eqb key "minor" then 3%nat
          else if String.eqb key "unknown" then 4%nat
          else 5%nat)
  /\ (forall a b,
        ranked a = true -> ranked b = true ->
        ((rankOf a <= rankOf b)%nat <-> (severityPlace a <= severityPlace b)%nat))
  /\ sortedAlerts mixedAlerts
     = Normal [pointAlert [("severity", Str "Extreme")];
               pointAlert [("severity", Str "Severe")];
               pointAlert [("severity", Str "Moderate")];
               pointAlert [("severity", Str "Minor")];
               pointAlert [("severity", Str "Unknown")];
               pointAlert [];
               pointAlert [("severity", Str "Tornado")];
               pointAlert [("severity", Str "flood")]].
Proof.
  intros Hall. split; [| split; [| split; [| split; [| split; [| split]]]]].
  - exists (sortByRank (validAlerts alerts)).
    pose proof (sortByRank_ranked _ Hall) as Hout.
    split; [apply sort_ranked, Hall |].
    split; [apply sortByRank_perm |].
    split; [apply sortByRank_sorted |].
    split; [intros r; apply sortByRank_stable |].
    split; [apply (sorted_by_place _ Hout); apply sortByRank_sorted |].
    intros k. destruct (Nat.le_gt_cases k 5) as [Hk | Hk].
    + rewrite (ofPlace_ofRank k _ Hout Hk), (ofPlace_ofRank k _ Hall Hk).
      apply sortByRank_stable.
    + rewrite (ofPlace_beyond k _ Hout Hk), (ofPlace_beyond k _ Hall Hk).
      reflexivity.
  - intros alert key Hk. unfold alertRank. rewrite Hk. reflexivity.
  - reflexivity.
  - reflexivity.
  - exact severityPlace_eq.
  - exact rank_le_place.
  - reflexivity.
Qed.

Lemma sortedAlerts_by_severity_witness :
  (exists out,
     sortedAlerts 
          [pointAlert [("severity", Str "Minor"); ("urgency", Str "Past")];
            pointAlert [("urgency", Str "Immediate")];
            Obj [("properties", Obj [("severity", Str "Extreme")])];
            pointAlert [("severity", Str "Tornado")];
            pointAlert [("severity", Str "minor")];
            pointAlert [("severity", Str "EXTREME")]] = Normal out
     /\ Permutation out (validAlerts 
          [pointAlert [("severity", Str "Minor"); ("urgency", Str "Past")];
            pointAlert [("urgency", Str "Immediate")];
            Obj [("properties", Obj [("severity", Str "Extreme")])];
            pointAlert [("severity", Str "Tornado")];
            pointAlert [("severity", Str "minor")];
            pointAlert [("severity", Str "EXTREME")]])
     /\ Sorted (fun a b => (rankOf a <= rankOf b)%nat) out
     /\ (forall r, ofRank r out = ofRank r (validAlerts 
          [pointAlert [("severity", Str "Minor"); ("urgency", Str "Past")];
            pointAlert [("urgency", Str "Immediate")];
            Obj [("properties", Obj [("severity", Str "Extreme")])];
            pointAlert [("severity", Str "Tornado")];
            pointAlert [("severity", Str "minor")];
            pointAlert [("severity", Str "EXTREME")]]))
     /\ Sorted (fun a b => (severityPlace a <= severityPlace b)%nat) out
     /\ (forall k, ofPlace k out = ofPlace k (validAlerts 
          [pointAlert [("severity", Str "Minor"); ("urgency", Str "Past")];
            pointAlert [("urgency", Str "Immediate")];
            Obj [("properties", Obj [("severity", Str "Extreme")])];
            pointAlert [("severity", Str "Tornado")];
            pointAlert [("severity", Str "minor")];
            pointAlert [("severity", Str "EXTREME")]])))
  /\ (forall alert key,
        severityKey alert = Normal key ->
        alertRank alert
        = match severityOrder key with
          | Own n => Some n | Missing => Some 99%nat | Inherited => None
          end)
  /\ (forall alert, severityKey alert
                    = lowered (property alert "severity") "unknown")
  /\ sortedAlerts [pointAlert [("severity", Str "Minor")];
                   pointAlert [("severity", Str "Extreme")];
                   pointAlert [("severity", Str "Severe")];
                   pointAlert [("severity", Str "Moderate")]]
     = Normal [pointAlert [("severity", Str "Extreme")];
               pointAlert [("severity", Str "Severe")];
               pointAlert [("severity", Str "Moderate")];
               pointAlert [("severity", Str "Minor")]]
  /\ (forall alert key,
        severityKey alert = Normal key ->
        severityPlace alert
        = if String.eqb key "extreme" then 0%nat
          else if String.eqb key "severe" then 1%nat
          else if String.eqb key "moderate" then 2%nat
          else if String.eqb key "minor" then 3%nat
          else if String.eqb key "unknown" then 4%nat
          else 5%nat)
  /\ (forall a b,
        ranked a = true -> ranked b = true ->
        ((rankOf a <= rankOf b)%nat <-> (severityPlace a <= severityPlace b)%nat))
  /\ sortedAlerts mixedAlerts
     = Normal [pointAlert [("severity", Str "Extreme")];
               pointAlert [("severity", Str "Severe")];
               pointAlert [("severity", Str "Moderate")];
               pointAlert [("severity", Str "Minor")];
               pointAlert [("severity", Str "Unknown")];
               pointAlert [];
               pointAlert [("severity", Str "Tornado")];
               pointAlert [("severity", Str "flood")]].
Proof.
  apply (sortedAlerts_by_severity
           [pointAlert [("severity", Str "Minor"); ("urgency", Str "Past")];
            pointAlert [("urgency", Str "Immediate")];
            Obj [("properties", Obj [("severity", Str "Extreme")])];
            pointAlert [("severity", Str "Tornado")];
            pointAlert [("severity", Str "minor")];
            pointAlert [("severity", Str "EXTREME")]]).
  vm_compute. reflexivity.
Defined.

(** C2 as stated fails: the classifier puts an advisory with urgency
    "immediate" and no severity in the tier extreme and one with severity
    "minor" in the tier minor, yet [sortedAlerts] leaves the minor one
    first, because it ranks the first as unknown. *)
Lemma immediate_not_ranked_first :
  sortedAlerts [pointAlert [("severity", Str "Minor")];
                pointAlert [("urgency", Str "Immediate")]]
  = Normal [pointAlert [("severity", Str "Minor")];
            pointAlert [("urgency", Str "Immediate")]]
  /\ spec_classify (pointAlert [("severity", Str "Minor")]) = Some TierMinor
  /\ spec_classify (pointAlert [("urgency", Str "Immediate")]) = Some TierExtreme
  /\ (tier_rank TierExtreme < tier_rank TierMinor)%nat
  /\ (exists style,
        getAlertStyle (pointAlert [("urgency", Str "Immediate")]) = Normal style
        /\ color style = "#C92A2A").
Proof.
  split; [reflexivity |]. split; [reflexivity |]. split; [reflexivity |].
  split; [cbn; lia |]. eexists. split; reflexivity.
Qed.

End ClassifierFacts.

(* ================================================================== *)
(** * Theorems: the geometry navigator *)
(* ================================================================== *)
Module NavigatorFacts.
Import Js BalloonMap NumberFacts Navigation.
Local Open Scope string_scope.
Local Open Scope list_scope.

Lemma min_spec (x y : number) :
  isNaN x = false -> isNaN y = false ->
  (min x y = x \/ min x y = y)
  /\ le (min x y) x = true /\ le (min x y) y = true.
Proof.
  intros Hx Hy. unfold min. rewrite Hx, Hy. cbn [orb].
  destruct (lt x y) eqn:Lxy.
  - split; [left; reflexivity |]. split; [apply le_refl, Hx | apply lt_le, Lxy].
  - destruct (lt y x) eqn:Lyx.
    + split; [right; reflexivity |]. split; [apply lt_le, Lyx | apply le_refl, Hy].
    + pose proof (le_total x y Hx Hy Lxy) as Hyx.
      pose proof (le_total y x Hy Hx Lyx) as Hxy.
      destruct (is_neg_zero x).
      * split; [left; reflexivity |]. split; [apply le_refl, Hx | exact Hxy].
      * split; [right; reflexivity |]. split; [exact Hyx | apply le_refl, Hy].
Qed.

Lemma max_spec (x y : number) :
  isNaN x = false -> isNaN y = false ->
  (max x y = x \/ max x y = y)
  /\ le x (max x y) = true /\ le y (max x y) = true.
Proof.
  intros Hx Hy. unfold max. rewrite Hx, Hy. cbn [orb].
  destruct (lt x y) eqn:Lxy.
  - split; [right; reflexivity |]. split; [apply lt_le, Lxy | apply le_refl, Hy].
  - destruct (lt y x) eqn:Lyx.
    + split; [left; reflexivity |]. split; [apply le_refl, Hx | apply lt_le, Lyx].
    + pose proof (le_total x y Hx Hy Lxy) as Hyx.
      pose proof (le_total y x Hy Hx Lyx) as Hxy.
      destruct (is_neg_zero x).
      * split; [right; reflexivity |]. split; [exact Hxy | apply le_refl, Hy].
      * split; [left; reflexivity |]. split; [apply le_refl, Hx | exact Hyx].
Qed.

Lemma add_coord_nth (i : nat) (sum : number) (coord : position) :
  add_coord i sum coord = add sum (nth i coord NaN).
Proof.
  unfold add_coord. revert i. induction coord as [| x rest IH]; intros [| i]; cbn.
  - unfold add, SFadd. destruct sum; reflexivity.
  - unfold add, SFadd. destruct sum; reflexivity.
  - reflexivity.
  - apply IH.
Qed.

Lemma fold_add_coord (i : nat) (ring : list position) (acc : number) :
  fold_left (add_coord i) ring acc
  = fold_left add (map (fun coord => nth i coord NaN) ring) acc.
Proof.
  revert acc. induction ring as [| c rest IH]; intros acc; cbn; [reflexivity |].
  rewrite add_coord_nth. apply IH.
Qed.

Lemma isFinite_not_NaN (x : number) : isFinite x = true -> isNaN x = false.
Proof. destruct x; cbn; congruence. Qed.

Lemma finite_vertex_coords (coord : position) :
  finite_vertex coord = true ->
  isFinite (vertex_lat coord) = true /\ isFinite (vertex_lon coord) = true
  /\ nth_error coord 1 = Some (vertex_lat coord)
  /\ nth_error coord 0 = Some (vertex_lon coord).
Proof.
  destruct coord as [| lo [| la rest]]; cbn; try discriminate.
  intros H. apply andb_true_iff in H. destruct H as [Hlo Hla]. auto.
Qed.

Lemma sum_finite_not_NaN (xs : list number) (acc : number) :
  isNaN acc = false -> forallb isFinite xs = true ->
  isNaN (fold_left add xs acc) = false.
Proof.
  revert acc. induction xs as [| x rest IH]; intros acc Ha Hx; cbn; [exact Ha |].
  cbn in Hx. apply andb_true_iff in Hx. destruct Hx as [Hx Hrest].
  apply IH; [| exact Hrest]. apply add_not_NaN; assumption.
Qed.

Lemma mean_not_NaN (xs : list number) :
  xs <> [] -> (Z.of_nat (List.length xs) < 2 ^ 53)%Z ->
  forallb isFinite xs = true -> isNaN (mean xs) = false.
Proof.
  intros Hne Hlen Hfin. unfold mean.
  destruct (num_of_nat_finite (List.length xs)) as (m & e & E).
  - destruct xs; [congruence | cbn; lia].
  - exact Hlen.
  - rewrite E. apply div_not_NaN. apply sum_finite_not_NaN; [reflexivity | exact Hfin].
Qed.

Lemma extend_spec (b : LatLngBounds) (p : LatLng) :
  numeric (southWest b) -> numeric (northEast b) -> numeric p ->
  exists b',
    extend (Some b) p = Some b'
    /\ numeric (southWest b') /\ numeric (northEast b')
    /\ inside b' p
    /\ (forall q, inside b q -> inside b' q)
    /\ (lat (southWest b') = lat p \/ lat (southWest b') = lat (southWest b))
    /\ (lat (northEast b') = lat p \/ lat (northEast b') = lat (northEast b))
    /\ (lng (southWest b') = lng p \/ lng (southWest b') = lng (southWest b))
    /\ (lng (northEast b') = lng p \/ lng (northEast b') = lng (northEast b)).
Proof.
  intros [Hs1 Hs2] [Hn1 Hn2] [Hp1 Hp2].
  destruct (min_spec (lat p) (lat (southWest b)) Hp1 Hs1) as (A1 & A2 & A3).
  destruct (min_spec (lng p) (lng (southWest b)) Hp2 Hs2) as (B1 & B2 & B3).
  destruct (max_spec (lat p) (lat (northEast b)) Hp1 Hn1) as (C1 & C2 & C3).
  destruct (max_spec (lng p) (lng (northEast b)) Hp2 Hn2) as (D1 & D2 & D3).
  eexists. split; [reflexivity |]. cbn [southWest northEast lat lng].
  split; [split; [destruct A1 as [-> | ->] | destruct B1 as [-> | ->]]; assumption |].
  split; [split; [destruct C1 as [-> | ->] | destruct D1 as [-> | ->]]; assumption |].
  split; [unfold inside; cbn; auto |].
  split.
  - intros q (Q1 & Q2 & Q3 & Q4). unfold inside. cbn.
    repeat split; eauto using le_trans.
  - auto.
Qed.

Lemma fold_extend_spec (ps : list LatLng) (b : LatLngBounds) :
  numeric (southWest b) -> numeric (northEast b) -> Forall numeric ps ->
  exists b',
    fold_left extend ps (Some b) = Some b'
    /\ (forall q, inside b q \/ In q ps -> inside b' q)
    /\ In (lat (southWest b')) (lat (southWest b) :: map lat ps)
    /\ In (lat (northEast b')) (lat (northEast b) :: map lat ps)
    /\ In (lng (southWest b')) (lng (southWest b) :: map lng ps)
    /\ In (lng (northEast b')) (lng (northEast b) :: map lng ps).
Proof.
  revert b. induction ps as [| p ps IH]; intros b Hsw Hne Hall.
  - exists b. cbn. split; [reflexivity |].
    split; [intros q [H | []]; exact H |]. auto.
  - inversion Hall as [| x l Hp Hps]; subst.
    destruct (extend_spec b p Hsw Hne Hp)
      as (b1 & E & Hsw1 & Hne1 & Hin & Hmono & L1 & L2 & L3 & L4).
    destruct (IH b1 Hsw1 Hne1 Hps) as (b' & F & Hcov & M1 & M2 & M3 & M4).
    exists b'. cbn [fold_left]. rewrite E. split; [exact F |].
    split.
    + intros q [Hq | [Hq | Hq]].
      * apply Hcov. left. apply Hmono. exact Hq.
      * subst q. apply Hcov. left. exact Hin.
      * apply Hcov. right. exact Hq.
    + cbn [map In] in *.
      repeat split.
      * destruct M1 as [M | M]; [| auto]. rewrite <- M. destruct L1 as [-> | ->]; auto.
      * destruct M2 as [M | M]; [| auto]. rewrite <- M. destruct L2 as [-> | ->]; auto.
      * destruct M3 as [M | M]; [| auto]. rewrite <- M. destruct L3 as [-> | ->]; auto.
      * destruct M4 as [M | M]; [| auto]. rewrite <- M. destruct L4 as [-> | ->]; auto.
Qed.

Lemma extendAll_finite (ring : list position) (bounds : option LatLngBounds) :
  forallb finite_vertex ring = true ->
  extendAll bounds (map (fun coord => (nth_error coord 1, nth_error coord 0)) ring)
  = Normal (fold_left extend (map vertex ring) bounds).
Proof.
  revert bounds. induction ring as [| c ring IH]; intros bounds Hall; cbn [map extendAll fold_left].
  - reflexivity.
  - cbn in Hall. apply andb_true_iff in Hall. destruct Hall as [Hc Hall].
    destruct (finite_vertex_coords c Hc) as (F1 & F2 & N1 & N0).
    rewrite N1, N0. unfold newLatLng.
    rewrite (isFinite_not_NaN _ F1), (isFinite_not_NaN _ F2). cbn [orb].
    apply IH. exact Hall.
Qed.

Lemma finite_vertices (ring : list position) :
  forallb finite_vertex ring = true ->
  forallb isFinite (map vertex_lat ring) = true
  /\ forallb isFinite (map vertex_lon ring) = true
  /\ Forall numeric (map vertex ring).
Proof.
  induction ring as [| c ring IH]; cbn [forallb map]; intros H.
  - repeat split; constructor.
  - apply andb_true_iff in H. destruct H as [Hc H].
    destruct (finite_vertex_coords c Hc) as (F1 & F2 & _ & _).
    destruct (IH H) as (I1 & I2 & I3).
    rewrite F1, F2, I1, I2. repeat split; try reflexivity.
    constructor; [| exact I3].
    split; cbn; apply isFinite_not_NaN; assumption.
Qed.

(** The shared text of the Polygon and MultiPolygon branches on a ring of
    finite vertices. *)
Lemma flyToRing_finite (ring : list position) :
  ring <> [] -> (Z.of_nat (List.length ring) < 2 ^ 53)%Z ->
  forallb finite_vertex ring = true ->
  exists b,
    flyToRing ring
    = Normal (Some {| center := {| lat := mean (map vertex_lat ring);
                                   lng := mean (map vertex_lon ring) |};
                      call := flyToBounds (Some b) (num_of_Z 100, num_of_Z 100)
                                          (num_of_Z 12) |})
    /\ box_of ring b.
Proof.
  intros Hne Hlen Hfin.
  destruct (finite_vertices ring Hfin) as (Hlat & Hlon & Hnum).
  assert (Mlat : isNaN (mean (map vertex_lat ring)) = false).
  { apply mean_not_NaN; [| rewrite length_map; exact Hlen | exact Hlat].
    destruct ring; [congruence | discriminate]. }
  assert (Mlon : isNaN (mean (map vertex_lon ring)) = false).
  { apply mean_not_NaN; [| rewrite length_map; exact Hlen | exact Hlon].
    destruct ring; [congruence | discriminate]. }
  unfold flyToRing. rewrite !fold_add_coord.
  change (map (fun coord => nth 1 coord NaN) ring) with (map vertex_lat ring).
  change (map (fun coord => nth 0 coord NaN) ring) with (map vertex_lon ring).
  unfold mean in Mlat, Mlon |- *. rewrite !length_map in *.
  unfold newLatLng at 1. rewrite Mlat, Mlon. cbn [orb].
  unfold newLatLngBounds. rewrite (extendAll_finite ring None Hfin).
  destruct ring as [| c rest]; [congruence |].
  cbn [map fold_left extend].
  inversion Hnum as [| x l Hc Hrest]; subst.
  destruct (fold_extend_spec (map vertex rest)
              {| southWest := vertex c; northEast := vertex c |} Hc Hc Hrest)
    as (b & F & Hcov & A1 & A2 & A3 & A4).
  exists b. rewrite F. split; [reflexivity |].
  cbn [southWest northEast] in A1, A2, A3, A4.
  rewrite map_map in A1, A2, A3, A4.
  split; [| repeat split; assumption].
  intros coord [Hin | Hin].
  - subst coord. apply (Hcov (vertex c)). left.
    destruct Hc as [Hc1 Hc2]. unfold inside. cbn [southWest northEast].
    repeat split; apply le_refl; assumption.
  - apply (Hcov (vertex coord)). right. apply in_map. exact Hin.
Qed.

(** C9. Geometry navigator. A Point [[lon, lat, ...]] of two numbers gives
    the point as centre and a [flyTo] at the fixed zoom 10. A Polygon whose
    first ring is a non-empty array of vertices with finite coordinates
    gives, as centre, the mean of the ring's latitudes and the mean of its
    longitudes, and a [flyToBounds] to the smallest box around the ring's
    vertices, with padding 100 and zoom capped at 12; the other rings play
    no part. A MultiPolygon does the same with the first ring of its first
    polygon. The ring [[0,0],[0,2],[2,2],[2,0]] gives centre (1, 1) and the
    box from (0, 0) to (2, 2). Every other geometry, and no geometry at all,
    gives no navigation. *)
Theorem focus_target :
  (forall lon lat rest,
     isNaN lon = false -> isNaN lat = false ->
     MapController (Some (Point (lon :: lat :: rest)))
     = Normal (Some {| center := {| lat := lat; lng := lon |};
                       call := flyTo {| lat := lat; lng := lon |} (num_of_Z 10)
                                     (round_decimal false 15 (-1)) |}))
  /\ (forall ring others,
        ring <> [] -> (Z.of_nat (List.length ring) < 2 ^ 53)%Z ->
        forallb finite_vertex ring = true ->
        exists b,
          MapController (Some (Polygon (ring :: others)))
          = Normal (Some {| center := {| lat := mean (map vertex_lat ring);
                                         lng := mean (map vertex_lon ring) |};
                            call := flyToBounds (Some b) (num_of_Z 100, num_of_Z 100)
                                                (num_of_Z 12) |})
          /\ box_of ring b)
  /\ (forall ring holes polygons others,
        MapController (Some (MultiPolygon ((ring :: holes) :: polygons)))
        = MapController (Some (Polygon (ring :: others))))
  /\ MapController (Some (Polygon [squareRing]))
     = Normal (Some {| center := {| lat := num_of_Z 1; lng := num_of_Z 1 |};
                       call := flyToBounds
                                 (Some {| southWest := {| lat := num_of_Z 0; lng := num_of_Z 0 |};
                                          northEast := {| lat := num_of_Z 2; lng := num_of_Z 2 |} |})
                                 (num_of_Z 100, num_of_Z 100) (num_of_Z 12) |})
  /\ MapController None = Normal None
  /\ (forall geom,
        match geom with
        | Point _ | Polygon _ | MultiPolygon _ => True
        | _ => MapController (Some geom) = Normal None
        end).
Proof.
  split; [| split; [| split; [| split; [| split]]]].
  - intros lon lat rest Hlon Hlat. cbn [MapController nth_error].
    unfold newLatLng. rewrite Hlon, Hlat. reflexivity.
  - intros ring others Hne Hlen Hfin. cbn [MapController].
    apply flyToRing_finite; assumption.
  - reflexivity.
  - vm_compute. reflexivity.
  - reflexivity.
  - intros [c | c | c | c | c | c | gs]; cbn; trivial.
Qed.

Lemma focus_target_witness :
  exists b,
    MapController (Some (Polygon (squareRing :: [])))
    = Normal (Some {| center := {| lat := mean (map vertex_lat squareRing);
                                   lng := mean (map vertex_lon squareRing) |};
                      call := flyToBounds (Some b) (num_of_Z 100, num_of_Z 100)
                                          (num_of_Z 12) |})
    /\ box_of squareRing b.
Proof.
  apply (proj1 (proj2 focus_target) squareRing []).
  - discriminate.
  - vm_compute. reflexivity.
  - vm_compute. reflexivity.
Defined.

End NavigatorFacts.

(* ================================================================== *)
(** * Theorems: ids, the merge across snapshots, the limit *)
(* ================================================================== *)

Module IdentityFacts.
Import Js BalloonData Extraction Literals Merge Identity.
Local Open Scope string_scope.
Local Open Scope list_scope.

Lemma string_of_uint_digits (d : Decimal.uint) :
  all_digits (NilEmpty.string_of_uint d) = true.
Proof.
  induction d; cbn [NilEmpty.string_of_uint all_digits];
    [reflexivity | rewrite IHd; reflexivity ..].
Qed.

Lemma to_uint_normal (n : nat) : Nat.to_uint n = Decimal.unorm (Nat.to_uint n).
Proof.
  rewrite <- (DecimalNat.Unsigned.to_of (Nat.to_uint n)), DecimalNat.Unsigned.of_to. reflexivity.
Qed.

Lemma to_uint_nonnil (n : nat) : Nat.to_uint n <> Decimal.Nil.
Proof. rewrite to_uint_normal. apply DecimalFacts.unorm_nonnil. Qed.

Lemma string_of_nat_eq (n : nat) :
  string_of_nat n = NilEmpty.string_of_uint (Nat.to_uint n).
Proof.
  unfold string_of_nat, NilZero.string_of_uint.
  destruct (Nat.to_uint n) eqn:E; try reflexivity.
  exfalso. exact (to_uint_nonnil n E).
Qed.

Lemma string_of_nat_digits (n : nat) : all_digits (string_of_nat n) = true.
Proof. rewrite string_of_nat_eq. apply string_of_uint_digits. Qed.

Lemma string_of_nat_inj (n m : nat) : string_of_nat n = string_of_nat m -> n = m.
Proof.
  rewrite !string_of_nat_eq. intros H.
  apply DecimalNat.Unsigned.to_uint_inj.
  apply (f_equal NilEmpty.uint_of_string) in H.
  rewrite !NilEmpty.usu in H. congruence.
Qed.

(** A character that is no digit ends a run of digits: two texts
    [digits c rest] that are equal have the same digits and the same
    rest. *)
Lemma split_at_mark (c : ascii) (a a' b b' : string) :
  is_digit c = false ->
  all_digits a = true -> all_digits a' = true ->
  (a ++ String c b)%string = (a' ++ String c b')%string -> a = a' /\ b = b'.
Proof.
  intros Hc. revert a'.
  induction a as [| x r IH]; intros [| x' r'] Ha Ha' H; cbn in H.
  - inversion H. split; reflexivity.
  - inversion H; subst. cbn [all_digits] in Ha'. rewrite Hc in Ha'. discriminate.
  - inversion H; subst. cbn [all_digits] in Ha. rewrite Hc in Ha. discriminate.
  - inversion H; subst.
    cbn [all_digits] in Ha, Ha'.
    apply andb_true_iff in Ha, Ha'.
    destruct (IH r' (proj2 Ha) (proj2 Ha') H2) as [-> ->]. split; reflexivity.
Qed.

Lemma balloon_id_inj (h idx h' idx' : nat) :
  balloon_id h idx = balloon_id h' idx' -> h = h' /\ idx = idx'.
Proof.
  unfold balloon_id. intros H.
  cbn [String.append] in H.
  repeat match type of H with String _ _ = String _ _ => inversion H as [H']; clear H; rename H' into H end.
  destruct (split_at_mark "-" _ _ _ _ eq_refl
              (string_of_nat_digits h) (string_of_nat_digits h') H) as [E1 E2].
  split; apply string_of_nat_inj; assumption.
Qed.


(** ** One snapshot *)

Lemma candidate_timestamp (h : nat) (item : value) (idx : nat) (p : BalloonPosition) :
  candidate h item idx = Some p -> timestamp p = None.
Proof.
  unfold candidate.
  destruct (itemCoords item) as [[[la |] [lo |]] alt]; try discriminate.
  destruct (in_range la lo); try discriminate.
  intros H. inversion H. reflexivity.
Qed.

Lemma collect_length (h : nat) (items : list value) (idx : nat) :
  List.length (collect h items idx) <= List.length items.
Proof.
  revert idx. induction items as [| item rest IH]; intros idx; cbn [collect].
  - apply Nat.le_refl.
  - rewrite length_app. specialize (IH (S idx)).
    destruct (candidate h item idx); cbn; lia.
Qed.

(** The positions of a loop come from elements of increasing index. *)
Lemma collect_indices (h : nat) (items : list value) (idx : nat) :
  exists indices,
    Forall2 (fun p i =>
               idx <= i
               /\ exists item, nth_error items (i - idx) = Some item
                               /\ candidate h item i = Some p)
            (collect h items idx) indices
    /\ StronglySorted Nat.lt indices
    /\ Forall (fun i => idx <= i < idx + List.length items) indices.
Proof.
  revert idx. induction items as [| item rest IH]; intros idx; cbn [collect].
  - exists []. repeat split; constructor.
  - destruct (IH (S idx)) as (indices & Hrel & Hsorted & Hbound).
    assert (Hrel' : Forall2 (fun p i =>
               idx <= i
               /\ exists item0, nth_error (item :: rest) (i - idx) = Some item0
                                /\ candidate h item0 i = Some p)
            (collect h rest (S idx)) indices).
    { eapply Forall2_impl; [| exact Hrel].
      intros p i (Hle & it & Hnth & Hc). split; [lia |].
      exists it. split; [| exact Hc].
      replace (i - idx) with (S (i - S idx)) by lia. exact Hnth. }
    assert (Hbound' : Forall (fun i => idx <= i < idx + List.length (item :: rest)) indices).
    { eapply Forall_impl; [| exact Hbound]. cbn [List.length]. intros i Hi. lia. }
    destruct (candidate h item idx) as [p |] eqn:Hc; cbn [to_list app].
    + exists (idx :: indices). repeat split.
      * constructor; [| exact Hrel'].
        split; [lia |]. exists item. rewrite Nat.sub_diag. split; [reflexivity | exact Hc].
      * constructor; [exact Hsorted |].
        eapply Forall_impl; [| exact Hbound]. intros i Hi. cbn beta in Hi. lia.
      * constructor; [cbn [List.length]; lia | exact Hbound'].
    + exists indices. repeat split; assumption.
Qed.

Lemma sorted_NoDup (l : list nat) : StronglySorted Nat.lt l -> NoDup l.
Proof.
  induction 1 as [| a l Hs IH Hall]; constructor; [| exact IH].
  intros Hin. rewrite Forall_forall in Hall. specialize (Hall a Hin). lia.
Qed.

Lemma collect_ids (h : nat) (items : list value) (idx : nat) :
  exists indices,
    map id (collect h items idx) = map (balloon_id h) indices
    /\ StronglySorted Nat.lt indices
    /\ Forall (fun i => idx <= i < idx + List.length items) indices.
Proof.
  destruct (collect_indices h items idx) as (indices & Hrel & Hsorted & Hbound).
  exists indices. repeat split; try assumption.
  clear Hsorted Hbound.
  induction Hrel as [| p i ps is_ (Hle & item & Hnth & Hc) Hrest IH]; cbn [map].
  - reflexivity.
  - destruct (ExtractionFacts.candidate_in_range h item i p Hc) as (_ & Hid & _).
    rewrite Hid, IH. reflexivity.
Qed.

Lemma collect_hours (h : nat) (items : list value) (idx : nat) :
  Forall (fun p => hourIndex p = Some h /\ in_range (lat p) (lon p) = true)
         (collect h items idx).
Proof.
  apply Forall_forall. intros p Hin.
  destruct (ExtractionFacts.collect_origin h items idx p Hin) as (i & item & _ & Hc).
  destruct (ExtractionFacts.candidate_in_range h item (idx + i) p Hc) as (Hr & _ & Hh).
  split; assumption.
Qed.

(** ** All snapshots *)

Lemma key_id_inj (k k' : nat * nat) : key_id k = key_id k' -> k = k'.
Proof.
  destruct k as [h i], k' as [h' i']. unfold key_id. cbn [fst snd]. intros H.
  destruct (balloon_id_inj h i h' i' H) as [-> ->]. reflexivity.
Qed.

Lemma allPositions_ids (data24h : list value) (h : nat) :
  exists keys,
    map id (allPositions data24h h) = map key_id keys
    /\ NoDup keys
    /\ Forall (fun k => h <= fst k) keys.
Proof.
  revert h. induction data24h as [| data rest IH]; intros h; cbn [allPositions].
  - exists []. repeat split; constructor.
  - destruct (IH (S h)) as (keys & Hids & Hnd & Hge).
    assert (Hge' : Forall (fun k => h <= fst k) keys).
    { eapply Forall_impl; [| exact Hge]. intros k Hk. cbn beta in Hk. lia. }
    destruct (truthy data).
    + destruct (collect_ids h (rawSequence data) 0) as (indices & Hc & Hs & _).
      exists (map (pair h) indices ++ keys). repeat split.
      * rewrite !map_app, Hids, Hc, map_map. reflexivity.
      * apply NoDup_app; [| exact Hnd |].
        -- apply sorted_NoDup in Hs. clear Hc.
           induction Hs as [| i l Hni Hl IHl]; cbn [map]; constructor; [| exact IHl].
           intros Hin. apply in_map_iff in Hin. destruct Hin as (j & Hj & Hin).
           inversion Hj; subst. contradiction.
        -- intros k Hin Hin'. apply in_map_iff in Hin. destruct Hin as (j & <- & _).
           rewrite Forall_forall in Hge. specialize (Hge _ Hin'). cbn in Hge. lia.
      * apply Forall_app. split; [| exact Hge'].
        apply Forall_forall. intros k Hin. apply in_map_iff in Hin.
        destruct Hin as (j & <- & _). cbn. lia.
    + exists keys. repeat split; assumption.
Qed.

Lemma NoDup_map_injective {A B} (f : A -> B) (l : list A) :
  (forall x y, f x = f y -> x = y) -> NoDup l -> NoDup (map f l).
Proof.
  intros Hinj. induction 1 as [| a l Hni Hl IH]; cbn [map]; constructor; [| exact IH].
  intros Hin. apply in_map_iff in Hin. destruct Hin as (b & Hb & Hin).
  apply Hinj in Hb. subst. contradiction.
Qed.

Lemma allPositions_NoDup (data24h : list value) (h : nat) :
  NoDup (map id (allPositions data24h h)).
Proof.
  destruct (allPositions_ids data24h h) as (keys & -> & Hnd & _).
  apply NoDup_map_injective; [exact key_id_inj | exact Hnd].
Qed.

Lemma allPositions_app (l1 l2 : list value) (h : nat) :
  allPositions (l1 ++ l2) h
  = allPositions l1 h ++ allPositions l2 (h + List.length l1).
Proof.
  revert h. induction l1 as [| d l1 IH]; intros h; cbn [allPositions app List.length].
  - rewrite Nat.add_0_r. reflexivity.
  - rewrite IH, <- app_assoc.
    replace (h + S (List.length l1)) with (S h + List.length l1) by lia. reflexivity.
Qed.

(** Positions come out by ascending hour. *)
Lemma allPositions_hours (data24h : list value) (h : nat) :
  StronglySorted (fun p q => hour p <= hour q) (allPositions data24h h)
  /\ Forall (fun p => h <= hour p /\ in_range (lat p) (lon p) = true)
            (allPositions data24h h).
Proof.
  revert h. induction data24h as [| data rest IH]; intros h; cbn [allPositions].
  - split; constructor.
  - destruct (IH (S h)) as (Hs & Hall).
    assert (Hall' : Forall (fun p => h <= hour p /\ in_range (lat p) (lon p) = true)
                           (allPositions rest (S h))).
    { eapply Forall_impl; [| exact Hall]. intros p [Hp Hr]. split; [lia | exact Hr]. }
    destruct (truthy data); cbn [app]; [| split; assumption].
    pose proof (collect_hours h (rawSequence data) 0) as Hc.
    induction Hc as [| p ps [Hp Hr] Hps IHps]; cbn [app]; [split; assumption |].
    destruct IHps as (Hs' & Hall'').
    assert (Hhour : hour p = h) by (unfold hour, hourIndex_or_24; rewrite Hp; reflexivity).
    split.
    + constructor; [exact Hs' |].
      eapply Forall_impl; [| exact Hall'']. intros q [Hq _]. cbn beta. lia.
    + constructor; [| exact Hall'']. split; [lia | exact Hr].
Qed.

(** ** The merge on fresh keys *)

Lemma get_app_none {V} (m : StringMap.t V) (k k' : string) (v : V) :
  StringMap.get m k = None -> k <> k' ->
  StringMap.get (m ++ [(k', v)]) k = None.
Proof.
  intros Hget Hne. induction m as [| [k0 v0] rest IH]; cbn [app StringMap.get] in *.
  - destruct (String.eqb_spec k k'); [contradiction | reflexivity].
  - destruct (String.eqb k k0); [discriminate | apply IH; exact Hget].
Qed.

Lemma set_fresh {V} (m : StringMap.t V) (k : string) (v : V) :
  StringMap.get m k = None -> StringMap.set m k v = m ++ [(k, v)].
Proof.
  induction m as [| [k0 v0] rest IH]; cbn [app StringMap.get StringMap.set]; intros H.
  - reflexivity.
  - destruct (String.eqb k k0); [discriminate |]. rewrite IH by exact H. reflexivity.
Qed.

Lemma mergePositions_fresh (ps : list BalloonPosition)
    (m : StringMap.t BalloonPosition) :
  NoDup (map id ps) ->
  (forall p, In p ps -> StringMap.get m (id p) = None) ->
  mergePositions m ps = m ++ map (fun p => (id p, p)) ps.
Proof.
  revert m. induction ps as [| p rest IH]; intros m Hnd Hfresh; cbn [map].
  - rewrite List.app_nil_r. reflexivity.
  - unfold mergePositions. cbn [fold_left]. fold (mergePositions (mergePosition m p) rest).
    inversion Hnd as [| x l Hni Hnd']; subst.
    rewrite (MergeFacts.mergePosition_absent m p (Hfresh p (or_introl eq_refl))).
    rewrite (set_fresh m (id p) p (Hfresh p (or_introl eq_refl))).
    rewrite IH; [rewrite <- app_assoc; reflexivity | exact Hnd' |].
    intros q Hq. apply get_app_none.
    + apply Hfresh. right. exact Hq.
    + intros E. apply Hni. rewrite <- E. apply in_map. exact Hq.
Qed.

Lemma extractAll_eq (data24h : list value) :
  extractAllBalloonPositions data24h = Normal (allPositions data24h 0).
Proof.
  unfold extractAllBalloonPositions.
  rewrite MergeFacts.mergeHours_eq.
  rewrite (mergePositions_fresh (allPositions data24h 0) StringMap.empty
             (allPositions_NoDup data24h 0) (fun _ _ => eq_refl)).
  unfold StringMap.empty, StringMap.values. cbn [app].
  rewrite map_map. cbn [snd]. rewrite map_id. reflexivity.
Qed.


Lemma limited_eq (data24h : list value) :
  extractBalloonPositionsLimited data24h
  = Normal (firstn 100 (allPositions data24h 0)).
Proof.
  unfold extractBalloonPositionsLimited.
  rewrite extractAll_eq. reflexivity.
Qed.

Lemma sorted_app_inv {A} (R : A -> A -> Prop) (l1 l2 : list A) :
  StronglySorted R (l1 ++ l2) ->
  forall x y, In x l1 -> In y l2 -> R x y.
Proof.
  induction l1 as [| a l1 IH]; cbn [app]; intros Hs x y Hx Hy; [destruct Hx |].
  apply StronglySorted_inv in Hs. destruct Hs as [Hs Hall].
  destruct Hx as [<- | Hx].
  - rewrite Forall_forall in Hall. apply Hall. apply in_or_app. right. exact Hy.
  - exact (IH Hs x y Hx Hy).
Qed.

(** X1. The id of a position names its snapshot and its index, and no two
    pairs share an id: the positions of all snapshots have distinct ids,
    so that the merge of [extractAllBalloonPositions] never replaces or
    drops one.  It returns the positions of every truthy snapshot, in the
    order of the snapshots and, within one, of the elements. *)
Theorem ids_never_collide (data24h : list value) :
  (forall h idx h' idx',
     balloon_id h idx = balloon_id h' idx' -> h = h' /\ idx = idx')
  /\ (forall data rest h,
        allPositions (data :: rest) h
        = (if truthy data
           then match extractBalloonPositions data h with
                | Normal ps => ps
                | Throw _ => []
                end
           else [])
          ++ allPositions rest (S h))
  /\ NoDup (map id (allPositions data24h 0))
  /\ mergeHours StringMap.empty data24h 0
     = Normal (map (fun p => (id p, p)) (allPositions data24h 0))
  /\ extractAllBalloonPositions data24h = Normal (allPositions data24h 0).
Proof.
  split; [exact balloon_id_inj |].
  split.
  { intros data rest h. cbn [allPositions].
    rewrite ExtractionFacts.extractBalloonPositions_eq. reflexivity. }
  split; [apply allPositions_NoDup |].
  split; [| apply extractAll_eq].
  rewrite MergeFacts.mergeHours_eq.
  rewrite (mergePositions_fresh (allPositions data24h 0) StringMap.empty
             (allPositions_NoDup data24h 0) (fun _ _ => eq_refl)).
  reflexivity.
Qed.

(** X2. [extractBalloonPositionsLimited] never throws and returns the
    first 100 of the merged positions, all of them when there are at most
    100.  The positions it shows have distinct ids and coordinates in
    range; the merged positions come by ascending hour, so whatever the
    limit drops is at least as old as everything it keeps. *)
Theorem limit_keeps_most_recent (data24h : list value) :
  exists merged shown,
    extractAllBalloonPositions data24h = Normal merged
    /\ extractBalloonPositionsLimited data24h = Normal shown
    /\ shown = firstn 100 merged
    /\ List.length shown = Nat.min 100 (List.length merged)
    /\ (List.length merged <= 100 -> shown = merged)
    /\ NoDup (map id shown)
    /\ Forall (fun p => in_range (lat p) (lon p) = true) shown
    /\ StronglySorted (fun p q => hour p <= hour q) merged
    /\ (forall p q, In p shown -> In q (skipn 100 merged) -> hour p <= hour q).
Proof.
  exists (allPositions data24h 0), (firstn 100 (allPositions data24h 0)).
  pose proof (allPositions_hours data24h 0) as [Hs Hall].
  pose proof (allPositions_NoDup data24h 0) as Hnd.
  pose proof (firstn_skipn 100 (allPositions data24h 0)) as Hsplit.
  split; [apply extractAll_eq |].
  split; [apply limited_eq |].
  split; [reflexivity |].
  split; [apply length_firstn |].
  split; [intros Hle; apply firstn_all2; exact Hle |].
  split.
  { rewrite <- Hsplit, map_app in Hnd. apply NoDup_app_remove_r in Hnd. exact Hnd. }
  split.
  { rewrite <- Hsplit in Hall. apply Forall_app in Hall. destruct Hall as [Hall _].
    eapply Forall_impl; [| exact Hall]. intros p [_ Hr]. exact Hr. }
  split; [exact Hs |].
  rewrite <- Hsplit in Hs. exact (sorted_app_inv _ _ _ Hs).
Qed.

(** Every element that passes the tests is in what the loop pushes. *)
Lemma collect_complete (h : nat) (items : list value) (idx i : nat)
    (item : value) (p : BalloonPosition) :
  nth_error items i = Some item -> candidate h item (idx + i) = Some p ->
  In p (collect h items idx).
Proof.
  revert idx i. induction items as [| x rest IH]; intros idx i Hnth Hc.
  - destruct i; discriminate.
  - cbn [collect]. apply in_or_app. destruct i as [| i].
    + inversion Hnth; subst. rewrite Nat.add_0_r in Hc. rewrite Hc.
      left. left. reflexivity.
    + right. apply (IH (S idx) i); [exact Hnth |].
      replace (S idx + i) with (idx + S i) by lia. exact Hc.
Qed.

Lemma Forall2_in_left {A B} (R : A -> B -> Prop) (l : list A) (l' : list B) (x : A) :
  Forall2 R l l' -> In x l -> exists y, In y l' /\ R x y.
Proof.
  induction 1 as [| a b l l' Hab Hrest IH]; intros Hin; [destruct Hin |].
  destruct Hin as [<- | Hin].
  - exists b. split; [left; reflexivity | exact Hab].
  - destruct (IH Hin) as (y & Hy & Hr). exists y. split; [right; exact Hy | exact Hr].
Qed.

(** X3. One snapshot: [extractBalloonPositions] returns one position for
    each element that passes the tests, in the order of the elements, and
    nothing else.  An element passes when both coordinates are read as
    numbers and they are in range; the position of element [idx] has the
    id [balloon-<hour>-<idx>], the coordinates and the altitude read, the
    hour of the snapshot and no timestamp.  So the ids of one snapshot are
    distinct and there are at most as many positions as elements. *)
Theorem extraction_follows_indices (data : value) (h : nat) :
  exists ps indices,
    extractBalloonPositions data h = Normal ps
    /\ Forall2 (fun p idx =>
                  exists item,
                    nth_error (rawSequence data) idx = Some item
                    /\ candidate h item idx = Some p
                    /\ id p = balloon_id h idx
                    /\ hourIndex p = Some h
                    /\ timestamp p = None)
               ps indices
    /\ StronglySorted Nat.lt indices
    /\ List.length ps <= List.length (rawSequence data)
    /\ NoDup (map id ps)
    /\ (forall idx item p,
          nth_error (rawSequence data) idx = Some item ->
          candidate h item idx = Some p ->
          In p ps /\ In idx indices)
    /\ (forall idx item la lo alt,
          nth_error (rawSequence data) idx = Some item ->
          itemCoords item = (Some la, Some lo, alt) ->
          in_range la lo = true ->
          In {| id := balloon_id h idx; lat := la; lon := lo; altitude := alt;
                timestamp := None; hourIndex := Some h |} ps
          /\ In idx indices)
    /\ (forall idx item,
          nth_error (rawSequence data) idx = Some item ->
          (forall la lo alt,
             itemCoords item = (Some la, Some lo, alt) -> in_range la lo = false) ->
          ~ In idx indices).
Proof.
  destruct (collect_indices h (rawSequence data) 0) as (indices & Hrel & Hsorted & _).
  exists (collect h (rawSequence data) 0), indices.
  assert (Hrel' : Forall2 (fun p idx =>
                  exists item,
                    nth_error (rawSequence data) idx = Some item
                    /\ candidate h item idx = Some p
                    /\ id p = balloon_id h idx
                    /\ hourIndex p = Some h
                    /\ timestamp p = None)
               (collect h (rawSequence data) 0) indices).
  { eapply Forall2_impl; [| exact Hrel].
    intros p i (_ & item & Hnth & Hc). exists item.
    rewrite Nat.sub_0_r in Hnth.
    destruct (ExtractionFacts.candidate_in_range h item i p Hc) as (_ & Hid & Hh).
    repeat split; try assumption.
    exact (candidate_timestamp h item i p Hc). }
  assert (Hcomplete : forall idx item p,
            nth_error (rawSequence data) idx = Some item ->
            candidate h item idx = Some p ->
            In p (collect h (rawSequence data) 0) /\ In idx indices).
  { intros idx item p Hnth Hc.
    assert (Hin : In p (collect h (rawSequence data) 0))
      by exact (collect_complete h _ 0 idx item p Hnth Hc).
    split; [exact Hin |].
    destruct (Forall2_in_left _ _ _ p Hrel' Hin) as (i & Hi & item' & _ & _ & Hid & _).
    destruct (ExtractionFacts.candidate_in_range h item idx p Hc) as (_ & Hid' & _).
    rewrite Hid' in Hid. destruct (balloon_id_inj _ _ _ _ Hid) as [_ ->]. exact Hi. }
  split; [apply ExtractionFacts.extractBalloonPositions_eq |].
  split; [exact Hrel' |].
  split; [exact Hsorted |].
  split; [apply collect_length |].
  split.
  { destruct (collect_ids h (rawSequence data) 0) as (is_ & -> & Hs & _).
    apply NoDup_map_injective; [| apply sorted_NoDup; exact Hs].
    intros x y H. apply (balloon_id_inj h x h y H). }
  split; [exact Hcomplete |].
  split.
  { intros idx item la lo alt Hnth Hco Hr.
    apply (Hcomplete idx item); [exact Hnth |].
    unfold candidate. rewrite Hco, Hr. reflexivity. }
  intros idx item Hnth Hfail Hin.
  assert (Hex : exists p, In p (collect h (rawSequence data) 0)
                          /\ exists item', nth_error (rawSequence data) idx = Some item'
                                           /\ candidate h item' idx = Some p).
  { clear - Hrel' Hin. induction Hrel' as [| p i ps is_ Hp Hrest IH]; [destruct Hin |].
    destruct Hin as [-> | Hin].
    - destruct Hp as (item' & Hn & Hc & _). exists p. split; [left; reflexivity |].
      exists item'. split; assumption.
    - destruct (IH Hin) as (q & Hq & Hrest'). exists q. split; [right; exact Hq | exact Hrest']. }
  destruct Hex as (p & _ & item' & Hn & Hc).
  rewrite Hnth in Hn. inversion Hn; subst item'.
  pose proof (ExtractionFacts.candidate_coords h item idx p Hc) as Hco.
  destruct (ExtractionFacts.candidate_in_range h item idx p Hc) as (Hr & _).
  rewrite (Hfail _ _ _ Hco) in Hr. discriminate.
Qed.

End IdentityFacts.

(* ================================================================== *)
(** * Theorems: the shapes of an element *)
(* ================================================================== *)

Module ElementFacts.
Import Js BalloonData Extraction Elements.
Local Open Scope string_scope.
Local Open Scope list_scope.

Lemma safeNumber_nullish (v : value) : nullish v = true -> safeNumber v = None.
Proof. destruct v; try discriminate; reflexivity. Qed.

Lemma coalesce4_firstPresent (fields : list (string * value)) (a b c d : string) :
  safeNumber (coalesce4 (lookup a fields) (lookup b fields)
                        (lookup c fields) (lookup d fields))
  = safeNumber (firstPresent [a; b; c; d] fields).
Proof.
  unfold coalesce4, coalesce. cbn [firstPresent].
  destruct (nullish (lookup a fields)) eqn:Ea; cbn; rewrite ?Ea; [| reflexivity].
  destruct (nullish (lookup b fields)) eqn:Eb; cbn; rewrite ?Eb; [| reflexivity].
  destruct (nullish (lookup c fields)) eqn:Ec; cbn; rewrite ?Ec; [| reflexivity].
  destruct (nullish (lookup d fields)) eqn:Ed; [| reflexivity].
  apply safeNumber_nullish. exact Ed.
Qed.

Lemma itemCoords_object (fields : list (string * value)) :
  itemCoords (Obj fields)
  = (safeNumber (firstPresent latKeys fields),
     safeNumber (firstPresent lonKeys fields),
     safeNumber (firstPresent altKeys fields)).
Proof.
  unfold itemCoords. cbn [truthy typeof opt_get nullish get_own andb].
  change (String.eqb "object" "object") with true. cbv iota.
  rewrite !coalesce4_firstPresent. reflexivity.
Qed.

Lemma candidate_object (h idx : nat) (fields : list (string * value)) :
  candidate h (Obj fields) idx
  = match safeNumber (firstPresent latKeys fields),
          safeNumber (firstPresent lonKeys fields) with
    | Some la, Some lo =>
        if in_range la lo
        then Some (position_at h idx la lo (safeNumber (firstPresent altKeys fields)))
        else None
    | _, _ => None
    end.
Proof.
  unfold candidate. rewrite itemCoords_object.
  destruct (safeNumber (firstPresent latKeys fields)),
           (safeNumber (firstPresent lonKeys fields)); reflexivity.
Qed.

Lemma itemCoords_short_array (items : list value) :
  (List.length items < 2)%nat ->
  snd (fst (itemCoords (Arr items))) = None.
Proof.
  destruct items as [| v0 [| v1 rest]]; cbn [List.length]; intros H; try lia;
    reflexivity.
Qed.

Lemma candidate_shapes (h idx : nat) (item : value) (p : BalloonPosition) :
  candidate h item idx = Some p ->
  (exists v0 v1 rest,
     item = Arr (v0 :: v1 :: rest)
     /\ safeNumber v0 = Some (lat p) /\ safeNumber v1 = Some (lon p)
     /\ altitude p = pair_altitude rest)
  \/ (exists fields,
        item = Obj fields
        /\ safeNumber (firstPresent latKeys fields) = Some (lat p)
        /\ safeNumber (firstPresent lonKeys fields) = Some (lon p)
        /\ altitude p = safeNumber (firstPresent altKeys fields)).
Proof.
  intros Hc. pose proof (ExtractionFacts.candidate_coords h item idx p Hc) as Hco.
  destruct item as [| | b | n | s | items | fields].
  - discriminate.
  - discriminate.
  - unfold itemCoords in Hco. cbn [typeof] in Hco.
    rewrite andb_false_r in Hco. discriminate.
  - unfold itemCoords in Hco. cbn [typeof] in Hco.
    rewrite andb_false_r in Hco. discriminate.
  - unfold itemCoords in Hco. cbn [typeof] in Hco.
    rewrite andb_false_r in Hco. discriminate.
  - destruct items as [| v0 [| v1 rest]].
    + discriminate.
    + pose proof (itemCoords_short_array [v0] (Nat.lt_succ_diag_r 1)) as Hs.
      rewrite Hco in Hs. discriminate.
    + left. exists v0, v1, rest. cbn [itemCoords] in Hco.
      inversion Hco as [[H0 H1 H2]]. unfold pair_altitude.
      repeat split; reflexivity.
  - right. exists fields. rewrite itemCoords_object in Hco.
    inversion Hco as [[H0 H1 H2]]. repeat split; reflexivity.
Qed.


(** X4. An element that is an object: each coordinate is read from the
    first of its keys ([lat], [latitude], [y], [0]; [lon], [lng],
    [longitude], [1]; [alt], [altitude], [z], [2]) whose value is neither
    [null] nor [undefined].  A key that is present decides even when its
    value is not numeric: such a [lat] or [lon] drops the element although
    a later key holds a number, and such an [alt] leaves the position
    without altitude. *)
Theorem object_keys_by_precedence (h idx : nat) (fields : list (string * value))
    (ps : list BalloonPosition) :
  readItem (Obj fields) ps
  = (Normal (safeNumber (firstPresent latKeys fields),
             safeNumber (firstPresent lonKeys fields),
             safeNumber (firstPresent altKeys fields)), ps)
  /\ (nullish (lookup "lat" fields) = false ->
      safeNumber (lookup "lat" fields) = None ->
      extractItem h (Obj fields) idx ps = (Normal tt, ps))
  /\ (nullish (lookup "lon" fields) = false ->
      safeNumber (lookup "lon" fields) = None ->
      extractItem h (Obj fields) idx ps = (Normal tt, ps))
  /\ (forall la lo,
        safeNumber (firstPresent latKeys fields) = Some la ->
        safeNumber (firstPresent lonKeys fields) = Some lo ->
        in_range la lo = true ->
        extractItem h (Obj fields) idx ps
        = (Normal tt,
           ps ++ [position_at h idx la lo
                    (safeNumber (firstPresent altKeys fields))])
        /\ (nullish (lookup "alt" fields) = false ->
            safeNumber (lookup "alt" fields) = None ->
            extractItem h (Obj fields) idx ps
            = (Normal tt, ps ++ [position_at h idx la lo None])))
  /\ extractItem h (Obj [("lat", Str "north"); ("latitude", Num (num_of_Z 10));
                         ("lon", Num (num_of_Z 20))]) idx ps
     = (Normal tt, ps)
  /\ extractItem h (Obj [("lat", Null); ("latitude", Num (num_of_Z 10));
                         ("lng", Str "20"); ("alt", Str "high");
                         ("altitude", Num (num_of_Z 5))]) idx ps
     = (Normal tt, ps ++ [position_at h idx (num_of_Z 10) (num_of_Z 20) None]).
Proof.
  assert (Hblock : forall keys k rest,
            keys = k :: rest -> nullish (lookup k fields) = false ->
            firstPresent keys fields = lookup k fields).
  { intros keys k rest -> Hn. cbn [firstPresent]. rewrite Hn. reflexivity. }
  split.
  { rewrite ExtractionFacts.readItem_run, itemCoords_object. reflexivity. }
  split.
  { intros Hn Hs. rewrite ExtractionFacts.extractItem_run, candidate_object.
    rewrite (Hblock latKeys "lat" _ eq_refl Hn), Hs.
    cbn [to_list]. rewrite List.app_nil_r. reflexivity. }
  split.
  { intros Hn Hs. rewrite ExtractionFacts.extractItem_run, candidate_object.
    rewrite (Hblock lonKeys "lon" _ eq_refl Hn), Hs.
    destruct (safeNumber (firstPresent latKeys fields));
      cbn [to_list]; rewrite List.app_nil_r; reflexivity. }
  split.
  { intros la lo Hla Hlo Hr.
    assert (E : extractItem h (Obj fields) idx ps
                = (Normal tt,
                   ps ++ [position_at h idx la lo
                            (safeNumber (firstPresent altKeys fields))])).
    { rewrite ExtractionFacts.extractItem_run, candidate_object, Hla, Hlo, Hr.
      reflexivity. }
    split; [exact E |].
    intros Hn Hs. rewrite E, (Hblock altKeys "alt" _ eq_refl Hn), Hs. reflexivity. }
  split.
  - rewrite ExtractionFacts.extractItem_run.
    replace (candidate h _ idx) with (@None BalloonPosition) by reflexivity.
    cbn [to_list]. rewrite List.app_nil_r. reflexivity.
  - rewrite ExtractionFacts.extractItem_run.
    replace (candidate h _ idx)
      with (Some (position_at h idx (num_of_Z 10) (num_of_Z 20) None));
      [reflexivity |].
    unfold candidate, position_at.
    replace (itemCoords _)
      with (Some (num_of_Z 10), Some (num_of_Z 20), @None number)
      by (vm_compute; reflexivity).
    replace (in_range (num_of_Z 10) (num_of_Z 20)) with true by (vm_compute; reflexivity).
    reflexivity.
Qed.

(** X5. Only an array of at least two entries or an object can give a
    position.  For [null], a boolean, a number, a string or an array of
    fewer than two entries the callback pushes nothing and throws nothing;
    an array of two or more entries is read by position alone, entries
    after the third being ignored. *)
Theorem element_shapes (h idx : nat) (item : value) (ps : list BalloonPosition) :
  match item with
  | Obj _ => True
  | Arr (v0 :: v1 :: rest) =>
      extractItem h item idx ps
      = (Normal tt,
         ps ++ match safeNumber v0, safeNumber v1 with
               | Some la, Some lo =>
                   if in_range la lo
                   then [position_at h idx la lo (pair_altitude rest)]
                   else []
               | _, _ => []
               end)
      /\ extractItem h item idx ps
         = extractItem h (Arr (v0 :: v1 :: firstn 1 rest)) idx ps
  | _ => extractItem h item idx ps = (Normal tt, ps)
  end
  /\ (forall p,
        In p (snd (extractItem h item idx ps)) ->
        In p ps
        \/ (exists v0 v1 rest,
              item = Arr (v0 :: v1 :: rest)
              /\ safeNumber v0 = Some (lat p) /\ safeNumber v1 = Some (lon p)
              /\ altitude p = pair_altitude rest)
        \/ (exists fields,
              item = Obj fields
              /\ safeNumber (firstPresent latKeys fields) = Some (lat p)
              /\ safeNumber (firstPresent lonKeys fields) = Some (lon p)
              /\ altitude p = safeNumber (firstPresent altKeys fields))).
Proof.
  split.
  - assert (Hnone : candidate h item idx = None ->
                    extractItem h item idx ps = (Normal tt, ps)).
    { intros Hc. rewrite ExtractionFacts.extractItem_run, Hc.
      cbn [to_list]. rewrite List.app_nil_r. reflexivity. }
    destruct item as [| | b | n | s | items | fields]; try exact I;
      try (apply Hnone; destruct (candidate h _ idx) as [p |] eqn:Hc; [| reflexivity];
           exfalso;
           destruct (candidate_shapes h idx _ p Hc)
             as [(v0 & v1 & rest & E & _) | (fields & E & _)]; discriminate).
    destruct items as [| v0 [| v1 rest]];
      try (apply Hnone; destruct (candidate h _ idx) as [p |] eqn:Hc; [| reflexivity];
           exfalso;
           destruct (candidate_shapes h idx _ p Hc)
             as [(w0 & w1 & rest' & E & _) | (fields & E & _)]; discriminate).
    assert (E : forall tail,
              candidate h (Arr (v0 :: v1 :: tail)) idx
              = match safeNumber v0, safeNumber v1 with
                | Some la, Some lo =>
                    if in_range la lo
                    then Some (position_at h idx la lo (pair_altitude tail))
                    else None
                | _, _ => None
                end).
    { intros tail. unfold candidate. cbn [itemCoords]. unfold pair_altitude, position_at.
      destruct (safeNumber v0), (safeNumber v1); reflexivity. }
    split.
    + rewrite ExtractionFacts.extractItem_run, E.
      destruct (safeNumber v0) as [la |], (safeNumber v1) as [lo |]; try reflexivity.
      destruct (in_range la lo); reflexivity.
    + rewrite !ExtractionFacts.extractItem_run, !E.
      destruct rest as [| v2 rest']; reflexivity.
  - intros p Hin. rewrite ExtractionFacts.extractItem_run in Hin. cbn [snd] in Hin.
    apply in_app_or in Hin. destruct Hin as [Hin | Hin]; [left; exact Hin | right].
    destruct (candidate h item idx) as [q |] eqn:Hc; cbn [to_list] in Hin;
      [| destruct Hin].
    destruct Hin as [<- | []].
    exact (candidate_shapes h idx item q Hc).
Qed.

End ElementFacts.

(* ================================================================== *)
(** * Theorems: styles and colours *)
(* ================================================================== *)

Module StyleFacts.
Import Js BalloonMap Ranking Display.
Local Open Scope string_scope.
Local Open Scope list_scope.

Lemma lowered_unreadable (v : value) (fallback : string) :
  unreadable v = true ->
  lowered v fallback = Throw (TypeError "toLowerCase is not a function").
Proof.
  unfold unreadable, lowered, or_else.
  destruct v as [| | b | n | s | items | fields]; cbn [truthy]; try discriminate.
  - destruct b; [reflexivity | discriminate].
  - destruct (negb (is_zero n || isNaN n)); [reflexivity | discriminate].
  - rewrite andb_false_r. discriminate.
  - reflexivity.
  - reflexivity.
Qed.

Lemma lowered_readable (v : value) (fallback : string) :
  unreadable v = false ->
  lowered v fallback
  = Normal (toLowerCase (match v with
                         | Str s => if String.eqb s "" then fallback else s
                         | _ => fallback
                         end)).
Proof.
  unfold unreadable, lowered, or_else.
  destruct v as [| | b | n | s | items | fields]; cbn [truthy]; try discriminate;
    try reflexivity.
  - destruct b; [discriminate | reflexivity].
  - destruct (negb (is_zero n || isNaN n)); [discriminate | reflexivity].
  - destruct (String.eqb s ""); reflexivity.
Qed.

Lemma alertColor_palette (severity urgency : string) :
  In (alertColor severity urgency) alertPalette.
Proof.
  unfold alertColor, alertPalette.
  repeat match goal with
         | |- context [if ?c then _ else _] => destruct c
         end; cbn; tauto.
Qed.

Lemma alertColor_dark (severity urgency : string) :
  alertColor severity urgency = darkRed
  <-> String.eqb severity "extreme" || String.eqb urgency "immediate" = true.
Proof.
  unfold alertColor, darkRed.
  destruct (String.eqb severity "extreme" || String.eqb urgency "immediate").
  - split; reflexivity.
  - repeat match goal with
           | |- context [if ?c then _ else _] => destruct c
           end; split; discriminate.
Qed.

Lemma eqb_or_iff (a b x y : string) :
  String.eqb a x || String.eqb b y = true <-> a = x \/ b = y.
Proof.
  rewrite orb_true_iff, !String.eqb_eq. reflexivity.
Qed.

(** X6. [getAlertStyle] throws exactly when the severity or the urgency of
    the feature is a truthy value that is not a string.  Otherwise the
    fill and the outline have the same colour, one of five; the colour is
    the dark red exactly when the severity is "extreme" or the urgency is
    "immediate" (in any letter case), and the outline is dashed exactly
    then. *)
Theorem alert_style_invariants (feature : value) :
  (unreadable (property feature "severity")
   || unreadable (property feature "urgency") = true ->
   exists e, getAlertStyle feature = Throw e)
  /\ (unreadable (property feature "severity")
      || unreadable (property feature "urgency") = false ->
      exists severity urgency style,
        lowered (property feature "severity") "" = Normal severity
        /\ lowered (property feature "urgency") "" = Normal urgency
        /\ getAlertStyle feature = Normal style
        /\ fillColor style = color style
        /\ In (color style) alertPalette
        /\ (color style = darkRed <-> severity = "extreme" \/ urgency = "immediate")
        /\ (dashArray style = Some "10, 5" <-> color style = darkRed)
        /\ (dashArray style = None <-> color style <> darkRed)).
Proof.
  split.
  - intros H. apply orb_true_iff in H. unfold getAlertStyle.
    destruct (unreadable (property feature "severity")) eqn:Es.
    + rewrite (lowered_unreadable _ "" Es). eexists. reflexivity.
    + destruct H as [H | H]; [discriminate |].
      rewrite (lowered_readable _ "" Es), (lowered_unreadable _ "" H).
      eexists. reflexivity.
  - intros H. apply orb_false_iff in H. destruct H as [Es Eu].
    pose proof (lowered_readable _ "" Es) as Hs.
    pose proof (lowered_readable _ "" Eu) as Hu.
    eexists _, _, _.
    split; [exact Hs |]. split; [exact Hu |].
    split; [unfold getAlertStyle; rewrite Hs, Hu; reflexivity |].
    cbn [fillColor color dashArray].
    split; [reflexivity |].
    split; [apply alertColor_palette |].
    split; [rewrite alertColor_dark; apply eqb_or_iff |].
    rewrite alertColor_dark.
    destruct (String.eqb _ "extreme" || String.eqb _ "immediate").
    + split; [split; reflexivity |]. split; [discriminate |]. intros Hn. exfalso. apply Hn. reflexivity.
    + split; [split; discriminate |]. split; [discriminate | reflexivity].
Qed.



Lemma props_severity (alert : value) :
  get_own (props alert) "severity" = property alert "severity".
Proof.
  unfold props, property, or_else.
  destruct (opt_get alert "properties") as [| | b | n | s | items | fields];
    try reflexivity.
  - destruct b; reflexivity.
  - cbn [truthy]. destruct (negb (is_zero n || isNaN n)); reflexivity.
  - cbn [truthy]. destruct (String.eqb_spec s ""); [subst |]; reflexivity.
Qed.

Lemma listSeverityColor_eq (alert : value) :
  listSeverityColor alert
  = match lowered (property alert "severity") "Unknown" with
    | Normal _ =>
        Normal (getSeverityColor
                  (match property alert "severity" with
                   | Str s => if String.eqb s "" then "Unknown" else s
                   | _ => "Unknown"
                   end))
    | Throw _ => Throw (TypeError "severity.toLowerCase is not a function")
    end.
Proof.
  unfold listSeverityColor, lowered. rewrite props_severity. unfold or_else.
  destruct (property alert "severity") as [| | b | n | s | items | fields];
    cbn [truthy]; try reflexivity.
  - destruct b; reflexivity.
  - destruct (negb (is_zero n || isNaN n)); reflexivity.
  - destruct (String.eqb s ""); reflexivity.
Qed.

(** X8. The popup of an alert computes its colour with a copy of the table
    of [getSeverityColor]: for every alert that has properties the popup
    and the list entry get the same colour, and fail together when the
    severity is a truthy value that is not a string.  An alert without
    properties gets no popup, and a green list entry (its severity reads
    as 'Unknown'). *)
Theorem popup_matches_list (alert : value) :
  (truthy (opt_get alert "properties") = true ->
   popupSeverityColor alert
   = match listSeverityColor alert with
     | Normal c => Normal (Some c)
     | Throw e => Throw e
     end)
  /\ (truthy (opt_get alert "properties") = false ->
      popupSeverityColor alert = Normal None
      /\ listSeverityColor alert = Normal "#51CF66")
  /\ (unreadable (property alert "severity") = true ->
      exists e, listSeverityColor alert = Throw e)
  /\ (unreadable (property alert "severity") = false ->
      exists c, listSeverityColor alert = Normal c).
Proof.
  split; [| split; [| split]].
  - intros Ht. unfold popupSeverityColor, listSeverityColor, props, or_else.
    rewrite Ht. cbv iota.
    destruct (get_own (opt_get alert "properties") "severity")
      as [| | b | n | s | items | fields]; cbn [truthy]; try reflexivity.
    + destruct b; reflexivity.
    + destruct (negb (is_zero n || isNaN n)); reflexivity.
    + destruct (negb (String.eqb s "")); reflexivity.
  - intros Hf. unfold popupSeverityColor, listSeverityColor, props, or_else.
    rewrite Hf. split; reflexivity.
  - intros Hu. rewrite listSeverityColor_eq, (lowered_unreadable _ _ Hu).
    eexists. reflexivity.
  - intros Hr. rewrite listSeverityColor_eq, (lowered_readable _ _ Hr).
    eexists. reflexivity.
Qed.

Lemma getSeverityColor_named (s : string) :
  one_of namedSeverities (toLowerCase s) = true ->
  forall urgency,
    getSeverityColor s = alertColor (toLowerCase s) urgency
    <-> (urgency <> "immediate" \/ toLowerCase s = "extreme").
Proof.
  unfold one_of, namedSeverities, getSeverityColor, alertColor. cbn [existsb].
  intros Hn urgency.
  destruct (String.eqb_spec (toLowerCase s) "extreme") as [He | He].
  { cbn [orb]. split; [intros _; right; exact He | reflexivity]. }
  destruct (String.eqb_spec urgency "immediate") as [Hi | Hi].
  { cbn [orb]. cbn [orb] in Hn.
    split; [| intros [H | H]; contradiction].
    repeat match goal with
           | |- context [if ?c then _ else _] => destruct c
           end; try discriminate. }
  cbn [orb]. cbn [orb] in Hn.
  split; [left; exact Hi | intros _].
  destruct (String.eqb (toLowerCase s) "severe"); [reflexivity |].
  destruct (String.eqb (toLowerCase s) "moderate"); [reflexivity |].
  destruct (String.eqb (toLowerCase s) "minor"); [reflexivity |].
  destruct (String.eqb (toLowerCase s) "unknown"); [reflexivity | discriminate].
Qed.

Lemma getSeverityColor_other (s severity urgency : string) :
  one_of namedSeverities (toLowerCase s) = false ->
  one_of namedSeverities severity = false ->
  getSeverityColor s = "#64748b"
  /\ alertColor severity urgency <> "#64748b"
  /\ alertColor severity urgency <> "#51CF66".
Proof.
  unfold one_of, namedSeverities, getSeverityColor, alertColor. cbn [existsb].
  intros Hs Hv.
  repeat (apply orb_false_iff in Hs; destruct Hs as [? Hs]).
  repeat (apply orb_false_iff in Hv; destruct Hv as [? Hv]).
  repeat match goal with H : String.eqb _ _ = false |- _ => rewrite H; clear H end.
  cbn [orb].
  repeat split;
    repeat match goal with
           | |- context [if ?c then _ else _] => destruct c
           end; discriminate.
Qed.

(** X9. The list panel colours an entry by severity alone, the map by
    severity and urgency.  For an alert whose severity and urgency can be
    read, the two colours are equal exactly when the severity is one of
    the five named ones and the urgency does not override it (it is not
    "immediate", or the severity is "extreme" itself); an alert with no
    severity, or with one that is not named, never has the same colour in
    the list and on the map. *)
Theorem list_and_map_colours (alert : value) (severity urgency : string) :
  lowered (property alert "severity") "" = Normal severity ->
  lowered (property alert "urgency") "" = Normal urgency ->
  exists c style,
    listSeverityColor alert = Normal c
    /\ getAlertStyle alert = Normal style
    /\ (c = color style
        <-> one_of namedSeverities severity = true
            /\ (urgency <> "immediate" \/ severity = "extreme")).
Proof.
  intros Hs Hu.
  assert (Hr : unreadable (property alert "severity") = false).
  { destruct (unreadable (property alert "severity")) eqn:E; [| reflexivity].
    rewrite (lowered_unreadable _ "" E) in Hs. discriminate. }
  rewrite (lowered_readable _ "" Hr) in Hs. inversion Hs as [Hsev]; clear Hs.
  eexists _, _.
  split; [rewrite listSeverityColor_eq, (lowered_readable _ "Unknown" Hr); reflexivity |].
  split.
  { unfold getAlertStyle. rewrite (lowered_readable _ "" Hr), Hu. reflexivity. }
  cbn [color].
  set (text := match property alert "severity" with
               | Str s => if String.eqb s "" then "" else s
               | _ => ""
               end) in *.
  assert (Hcase : (text = "" /\ match property alert "severity" with
                                | Str s => if String.eqb s "" then "Unknown" else s
                                | _ => "Unknown"
                                end = "Unknown")
                  \/ match property alert "severity" with
                     | Str s => if String.eqb s "" then "Unknown" else s
                     | _ => "Unknown"
                     end = text).
  { subst text. destruct (property alert "severity") as [| | b | n | s | items | fields];
      try (left; split; reflexivity).
    destruct (String.eqb s ""); [left; split; reflexivity | right; reflexivity]. }
  destruct Hcase as [[Ht ->] | ->].
  - rewrite Ht. cbn [toLowerCase].
    split.
    + intros H. exfalso.
      destruct (getSeverityColor_other "" "" urgency eq_refl eq_refl) as (_ & _ & Hg).
      apply Hg. rewrite <- H. reflexivity.
    + intros [Hn _]. discriminate.
  - destruct (one_of namedSeverities (toLowerCase text)) eqn:Hn.
    + rewrite (getSeverityColor_named text Hn urgency). tauto.
    + split; [| intros [H _]; discriminate].
      intros H. exfalso.
      destruct (getSeverityColor_other text (toLowerCase text) urgency Hn Hn)
        as (Hg & Hne & _).
      apply Hne. rewrite <- H. exact Hg.
Qed.

Lemma list_and_map_colours_witness :
  exists c style,
    listSeverityColor (pointAlert [("severity", Str "Severe");
                                   ("urgency", Str "Immediate")]) = Normal c
    /\ getAlertStyle (pointAlert [("severity", Str "Severe");
                                  ("urgency", Str "Immediate")]) = Normal style
    /\ (c = color style
        <-> one_of namedSeverities "severe" = true
            /\ ("immediate" <> "immediate" \/ "severe" = "extreme")).
Proof.
  apply (list_and_map_colours
           (pointAlert [("severity", Str "Severe"); ("urgency", Str "Immediate")])
           "severe" "immediate"); reflexivity.
Defined.

End StyleFacts.

(* ================================================================== *)
(** * Theorems: when the ranking throws *)
(* ================================================================== *)

Module SortFailureFacts.
Import Js BalloonMap Ranking Display.
Local Open Scope string_scope.
Local Open Scope list_scope.

Lemma severityKey_keyed (a : value) :
  keyed a = true -> exists k, severityKey a = Normal k.
Proof.
  unfold keyed, severityKey. intros H. apply negb_true_iff in H.
  rewrite (StyleFacts.lowered_readable _ _ H). eexists. reflexivity.
Qed.

Lemma severityKey_unkeyed (a : value) :
  keyed a = false ->
  severityKey a = Throw (TypeError "toLowerCase is not a function").
Proof.
  unfold keyed, severityKey. intros H. apply negb_false_iff in H.
  apply StyleFacts.lowered_unreadable. exact H.
Qed.

Lemma compareSeverity_keyed (a b : value) :
  keyed a = true -> keyed b = true -> exists c, compareSeverity a b = Normal c.
Proof.
  intros Ha Hb. unfold compareSeverity.
  destruct (severityKey_keyed a Ha) as [ka ->].
  destruct (severityKey_keyed b Hb) as [kb ->].
  eexists. reflexivity.
Qed.

Lemma compareSeverity_unkeyed (a b : value) :
  keyed a && keyed b = false ->
  compareSeverity a b = Throw (TypeError "toLowerCase is not a function").
Proof.
  intros H. unfold compareSeverity.
  destruct (keyed a) eqn:Ha.
  - destruct (severityKey_keyed a Ha) as [ka ->].
    cbn [andb] in H. rewrite (severityKey_unkeyed b H). reflexivity.
  - rewrite (severityKey_unkeyed a Ha). reflexivity.
Qed.

(** Whatever the comparator answers, insertion keeps the elements. *)
Lemma insert_perm (x : value) (l out : list value) :
  insert compareSeverity x l = Normal out -> Permutation out (x :: l).
Proof.
  revert out. induction l as [| y rest IH]; intros out; cbn [insert].
  - intros H. inversion H. apply Permutation_refl.
  - destruct (compareSeverity x y) as [c |]; [| discriminate].
    destruct (c <=? 0)%Z.
    + intros H. inversion H. apply Permutation_refl.
    + destruct (insert compareSeverity x rest) as [rest' |]; [| discriminate].
      intros H. inversion H; subst.
      eapply perm_trans; [apply perm_skip; apply IH; reflexivity |].
      apply perm_swap.
Qed.

Lemma sort_perm (l out : list value) :
  sort compareSeverity l = Normal out -> Permutation out l.
Proof.
  revert out. induction l as [| x rest IH]; intros out; cbn [sort].
  - intros H. inversion H. apply perm_nil.
  - destruct (sort compareSeverity rest) as [sorted |]; [| discriminate].
    intros H. apply insert_perm in H.
    eapply perm_trans; [exact H |]. apply perm_skip. apply IH. reflexivity.
Qed.

Lemma insert_keyed (x : value) (l : list value) :
  keyed x = true -> forallb keyed l = true ->
  exists out, insert compareSeverity x l = Normal out.
Proof.
  intros Hx. induction l as [| y rest IH]; cbn [insert forallb]; intros Hl.
  - eexists. reflexivity.
  - apply andb_true_iff in Hl. destruct Hl as [Hy Hrest].
    destruct (compareSeverity_keyed x y Hx Hy) as [c ->].
    destruct (c <=? 0)%Z; [eexists; reflexivity |].
    destruct (IH Hrest) as [rest' ->]. eexists. reflexivity.
Qed.

Lemma forallb_perm (f : value -> bool) (l l' : list value) :
  Permutation l l' -> forallb f l = forallb f l'.
Proof.
  induction 1; cbn [forallb]; try congruence.
  - rewrite !andb_assoc, (andb_comm (f y) (f x)). reflexivity.
Qed.

Lemma sort_keyed (l : list value) :
  forallb keyed l = true -> exists out, sort compareSeverity l = Normal out.
Proof.
  induction l as [| x rest IH]; cbn [sort forallb]; intros Hl.
  - eexists. reflexivity.
  - apply andb_true_iff in Hl. destruct Hl as [Hx Hrest].
    destruct (IH Hrest) as [sorted Hs]. rewrite Hs.
    apply insert_keyed; [exact Hx |].
    rewrite (forallb_perm keyed _ _ (sort_perm _ _ Hs)). exact Hrest.
Qed.

(** With two elements or more, each one meets the comparator. *)
Lemma sort_unkeyed (l : list value) :
  forallb keyed l = false -> 2 <= List.length l ->
  sort compareSeverity l = Throw (TypeError "toLowerCase is not a function").
Proof.
  induction l as [| x rest IH]; cbn [sort forallb List.length]; intros Hl Hlen.
  - lia.
  - destruct rest as [| y rest'].
    + cbn [List.length] in Hlen. lia.
    + destruct (forallb keyed (y :: rest')) eqn:Hrest.
      * rewrite andb_true_r in Hl.
        destruct (sort_keyed _ Hrest) as [sorted Hs]. rewrite Hs.
        pose proof (sort_perm _ _ Hs) as Hp.
        destruct sorted as [| z sorted'].
        { apply Permutation_nil in Hp. discriminate. }
        cbn [insert]. rewrite compareSeverity_unkeyed; [reflexivity |].
        rewrite Hl. reflexivity.
      * destruct rest' as [| y' rest''].
        { cbn [sort insert]. cbn [forallb] in Hrest. rewrite andb_true_r in Hrest.
          rewrite compareSeverity_unkeyed; [reflexivity |].
          rewrite Hrest. apply andb_false_r. }
        rewrite IH; [reflexivity | reflexivity | cbn [List.length]; lia].
Qed.

(** X10. [sortedAlerts] throws exactly when there are at least two alerts
    with a supported geometry and one of them has a severity that is a
    truthy value other than a string (a number, an object): the comparator
    calls [toLowerCase] on it.  In every other case it returns the alerts
    with a supported geometry, each one once, whatever their severities
    are. *)
Theorem sortedAlerts_failure (alerts : list value) :
  (forallb keyed (validAlerts alerts) = true
   \/ List.length (validAlerts alerts) <= 1 ->
   exists out,
     sortedAlerts alerts = Normal out
     /\ Permutation out (validAlerts alerts)
     /\ Forall (fun a => hasValidGeometry a = true /\ In a alerts) out)
  /\ (forallb keyed (validAlerts alerts) = false ->
      2 <= List.length (validAlerts alerts) ->
      sortedAlerts alerts = Throw (TypeError "toLowerCase is not a function"))
  /\ (forall alert,
        keyed alert = false
        <-> truthy (property alert "severity") = true
            /\ forall s, property alert "severity" <> Str s)
  /\ sortedAlerts [pointAlert [("severity", Num (num_of_Z 3))]]
     = Normal [pointAlert [("severity", Num (num_of_Z 3))]]
  /\ sortedAlerts [pointAlert [("severity", Str "Minor")];
                   pointAlert [("severity", Num (num_of_Z 3))]]
     = Throw (TypeError "toLowerCase is not a function").
Proof.
  split; [| split; [| split; [| split]]].
  - intros H. unfold sortedAlerts.
    assert (Hs : exists out, sort compareSeverity (validAlerts alerts) = Normal out).
    { destruct H as [H | H]; [apply sort_keyed; exact H |].
      destruct (validAlerts alerts) as [| a [| b rest]].
      - eexists. reflexivity.
      - eexists. reflexivity.
      - cbn [List.length] in H. lia. }
    destruct Hs as [out Hs]. exists out.
    pose proof (sort_perm _ _ Hs) as Hp.
    split; [exact Hs |]. split; [exact Hp |].
    apply Forall_forall. intros a Hin.
    apply (Permutation_in _ Hp) in Hin. unfold validAlerts in Hin.
    apply filter_In in Hin. tauto.
  - intros Hk Hlen. unfold sortedAlerts. apply sort_unkeyed; assumption.
  - intros alert. unfold keyed, unreadable.
    rewrite negb_false_iff, andb_true_iff, negb_true_iff.
    split.
    + intros [Ht Hs]. split; [exact Ht |]. intros s E. rewrite E in Hs. discriminate.
    + intros [Ht Hs]. split; [exact Ht |].
      destruct (property alert "severity") as [| | b | n | s | items | fields];
        try reflexivity.
      exfalso. apply (Hs s). reflexivity.
  - reflexivity.
  - reflexivity.
Qed.

End SortFailureFacts.

(* ================================================================== *)
(** * Theorems: targets the navigator cannot show *)
(* ================================================================== *)

Module NavigationEdgeFacts.
Import Js BalloonMap Navigation MapView.
Local Open Scope string_scope.
Local Open Scope list_scope.

Lemma add_NaN_l (x : number) : add NaN x = NaN.
Proof. reflexivity. Qed.

Lemma add_NaN_r (x : number) : add x NaN = NaN.
Proof. destruct x; reflexivity. Qed.

Lemma div_NaN_l (x : number) : div NaN x = NaN.
Proof. reflexivity. Qed.

Lemma fold_add_coord_NaN (i : nat) (ring : list position) :
  fold_left (add_coord i) ring NaN = NaN.
Proof.
  induction ring as [| coord rest IH]; cbn [fold_left]; [reflexivity |].
  replace (add_coord i NaN coord) with NaN; [exact IH |].
  unfold add_coord. destruct (nth_error coord i); reflexivity.
Qed.

(** A vertex without latitude turns the sum of the latitudes into NaN. *)
Lemma short_vertex_sum (ring : list position) (coord : position) (acc : number) :
  In coord ring -> (List.length coord < 2)%nat ->
  fold_left (add_coord 1) ring acc = NaN.
Proof.
  revert acc. induction ring as [| c rest IH]; intros acc Hin Hlen; [destruct Hin |].
  cbn [fold_left]. destruct Hin as [-> | Hin].
  - replace (add_coord 1 acc coord) with NaN; [apply fold_add_coord_NaN |].
    unfold add_coord. destruct coord as [| x [| y tl]]; cbn [List.length] in Hlen;
      try reflexivity. lia.
  - apply IH; assumption.
Qed.

Lemma flyToRing_NaN (ring : list position) :
  fold_left (add_coord 1) ring (num_of_Z 0) = NaN ->
  throwsError (flyToRing ring).
Proof.
  intros H. unfold flyToRing. rewrite H. eexists. reflexivity.
Qed.

Lemma flyToRing_empty : throwsError (flyToRing []).
Proof. eexists. vm_compute. reflexivity. Qed.

(** X11. Targets that [MapController] cannot show.  A Polygon without
    rings is ignored.  A Polygon or MultiPolygon whose first ring is empty
    (the mean is 0/0), or has a vertex of fewer than two coordinates, a
    Point of fewer than two coordinates or with a NaN coordinate make
    [new LatLng] throw an Error; a MultiPolygon without polygons, or whose
    first polygon has no ring, throws a TypeError. *)
Theorem degenerate_targets :
  MapController (Some (Polygon [])) = Normal None
  /\ (forall others,
        throwsError (MapController (Some (Polygon ([] :: others)))))
  /\ (forall holes polygons,
        throwsError (MapController (Some (MultiPolygon (([] :: holes) :: polygons)))))
  /\ (forall ring others coord,
        In coord ring -> (List.length coord < 2)%nat ->
        throwsError (MapController (Some (Polygon (ring :: others)))))
  /\ (forall ring holes polygons coord,
        In coord ring -> (List.length coord < 2)%nat ->
        throwsError (MapController (Some (MultiPolygon ((ring :: holes) :: polygons)))))
  /\ (forall coordinates,
        (List.length coordinates < 2)%nat ->
        throwsError (MapController (Some (Point coordinates))))
  /\ (forall lon lat rest,
        isNaN lon || isNaN lat = true ->
        throwsError (MapController (Some (Point (lon :: lat :: rest)))))
  /\ throwsTypeError (MapController (Some (MultiPolygon [])))
  /\ (forall polygons,
        throwsTypeError (MapController (Some (MultiPolygon ([] :: polygons))))).
Proof.
  split; [reflexivity |].
  split; [intros others; cbn [MapController]; exact flyToRing_empty |].
  split; [intros holes polygons; cbn [MapController]; exact flyToRing_empty |].
  split.
  { intros ring others coord Hin Hlen. cbn [MapController].
    apply flyToRing_NaN. exact (short_vertex_sum ring coord _ Hin Hlen). }
  split.
  { intros ring holes polygons coord Hin Hlen. cbn [MapController].
    apply flyToRing_NaN. exact (short_vertex_sum ring coord _ Hin Hlen). }
  split.
  { intros coordinates Hlen. cbn [MapController].
    destruct coordinates as [| x [| y tl]]; cbn [List.length] in Hlen;
      try (eexists; reflexivity). lia. }
  split.
  { intros lon lat rest H. cbn [MapController nth_error]. unfold newLatLng.
    rewrite orb_comm, H. eexists. reflexivity. }
  split; [eexists; reflexivity |].
  intros polygons. eexists. reflexivity.
Qed.

End NavigationEdgeFacts.

(* ================================================================== *)
(** * Theorems: the view fitted to the balloons *)
(* ================================================================== *)

Module ViewFacts.
Import Js BalloonData BalloonMap Extraction Merge Navigation MapView.
Local Open Scope string_scope.
Local Open Scope list_scope.

Lemma limited_in_range (data24h : list value) :
  Forall (fun p => in_range (BalloonData.lat p) (lon p) = true)
         (firstn 100 (allPositions data24h 0))
  /\ (List.length (firstn 100 (allPositions data24h 0)) <= 100)%nat.
Proof.
  split.
  - pose proof (IdentityFacts.allPositions_hours data24h 0) as [_ Hall].
    rewrite <- (firstn_skipn 100 (allPositions data24h 0)) in Hall.
    apply Forall_app in Hall. destruct Hall as [Hall _].
    eapply Forall_impl; [| exact Hall]. intros p [_ Hr]. exact Hr.
  - apply firstn_le_length.
Qed.

Lemma extendAll_markers (balloons : list BalloonPosition)
    (bounds : option LatLngBounds) :
  Forall (fun p => in_range (BalloonData.lat p) (lon p) = true) balloons ->
  extendAll bounds
    (map (fun b => (Some (BalloonData.lat b), Some (lon b))) balloons)
  = Normal (fold_left extend (map markerOf balloons) bounds).
Proof.
  intros H. revert bounds.
  induction H as [| p rest Hp Hrest IH]; intros bounds; cbn [map extendAll fold_left].
  - reflexivity.
  - destruct (ExtractionFacts.in_range_not_NaN _ _ Hp) as [Hla Hlo].
    unfold newLatLng. rewrite Hla, Hlo. cbn [orb]. apply IH.
Qed.

Lemma in_range_pair (la lo la' lo' : number) :
  in_range la lo' = true -> in_range la' lo = true -> in_range la lo = true.
Proof.
  intros H1 H2.
  apply ExtractionFacts.in_range_bounds in H1. apply ExtractionFacts.in_range_bounds in H2.
  unfold in_range. destruct H1 as (-> & -> & _ & _). destruct H2 as (_ & _ & -> & ->).
  reflexivity.
Qed.

Lemma fitBounds_in_range (balloons : list BalloonPosition) :
  balloons <> [] ->
  Forall (fun p => in_range (BalloonData.lat p) (lon p) = true) balloons ->
  exists b,
    FitBounds balloons
    = Normal (Some (fitBounds (Some b) (num_of_Z 50, num_of_Z 50)))
    /\ Forall (fun p => inside b (markerOf p)) balloons
    /\ In (lat (southWest b)) (map BalloonData.lat balloons)
    /\ In (lat (northEast b)) (map BalloonData.lat balloons)
    /\ In (lng (southWest b)) (map lon balloons)
    /\ In (lng (northEast b)) (map lon balloons).
Proof.
  intros Hne Hall. destruct balloons as [| p0 rest]; [contradiction |].
  unfold FitBounds, newLatLngBounds. cbn [List.length Nat.ltb Nat.leb].
  rewrite (extendAll_markers _ None Hall). cbn [map fold_left extend].
  assert (Hnum : Forall numeric (map markerOf (p0 :: rest))).
  { apply Forall_forall. intros q Hq. apply in_map_iff in Hq.
    destruct Hq as (p & <- & Hp). rewrite Forall_forall in Hall.
    exact (ExtractionFacts.in_range_not_NaN _ _ (Hall p Hp)). }
  cbn [map] in Hnum. inversion Hnum as [| q qs Hq0 Hqs]; subst.
  destruct (NavigatorFacts.fold_extend_spec (map markerOf rest)
              {| southWest := markerOf p0; northEast := markerOf p0 |} Hq0 Hq0 Hqs)
    as (b & Hfold & Hin & Hsw & Hne' & Hsw' & Hne'').
  exists b. rewrite Hfold. split; [reflexivity |].
  cbn [southWest northEast markerOf lat lng] in Hsw, Hne', Hsw', Hne''.
  rewrite !map_map in Hsw, Hne', Hsw', Hne''. cbn [markerOf lat lng] in Hsw, Hne', Hsw', Hne''.
  split; [| cbn [map]; repeat split; assumption].
  apply Forall_forall. intros p Hp. apply Hin. destruct Hp as [<- | Hp].
  - left. destruct Hq0 as [Hla Hlo]. cbn [markerOf lat lng] in Hla, Hlo.
    unfold inside. cbn [southWest northEast markerOf lat lng].
    repeat split; apply NumberFacts.le_refl; assumption.
  - right. apply in_map. exact Hp.
Qed.

(** X12. [FitBounds] on the balloons the application extracts: without
    balloons it leaves the map alone; otherwise building the bounds never
    throws, the box it asks the map to fit holds the marker of every
    balloon, each of its sides passes through a balloon, and its corners
    are themselves valid coordinates. *)
Theorem fit_bounds_encloses_balloons (data24h : list value) :
  exists balloons,
    extractBalloonPositionsLimited data24h = Normal balloons
    /\ (balloons = [] -> FitBounds balloons = Normal None)
    /\ (balloons <> [] ->
        exists b,
          FitBounds balloons
          = Normal (Some (fitBounds (Some b) (num_of_Z 50, num_of_Z 50)))
          /\ Forall (fun p => inside b (markerOf p)) balloons
          /\ In (lat (southWest b)) (map BalloonData.lat balloons)
          /\ In (lat (northEast b)) (map BalloonData.lat balloons)
          /\ In (lng (southWest b)) (map lon balloons)
          /\ In (lng (northEast b)) (map lon balloons)
          /\ in_range (lat (southWest b)) (lng (southWest b)) = true
          /\ in_range (lat (northEast b)) (lng (northEast b)) = true).
Proof.
  exists (firstn 100 (allPositions data24h 0)).
  destruct (limited_in_range data24h) as [Hall _].
  split; [apply IdentityFacts.limited_eq |].
  split; [intros ->; reflexivity |].
  intros Hne.
  destruct (fitBounds_in_range _ Hne Hall) as (b & Hfit & Hin & H1 & H2 & H3 & H4).
  exists b. repeat split; try assumption.
  - apply in_map_iff in H1, H3. destruct H1 as (p & <- & Hp), H3 as (q & <- & Hq).
    rewrite Forall_forall in Hall.
    exact (in_range_pair _ _ _ _ (Hall p Hp) (Hall q Hq)).
  - apply in_map_iff in H2, H4. destruct H2 as (p & <- & Hp), H4 as (q & <- & Hq).
    rewrite Forall_forall in Hall.
    exact (in_range_pair _ _ _ _ (Hall p Hp) (Hall q Hq)).
Qed.

Lemma fold_sum_map {A} (f : A -> number) (l : list A) (acc : number) :
  fold_left (fun sum b => add sum (f b)) l acc = fold_left add (map f l) acc.
Proof.
  revert acc. induction l as [| a rest IH]; intros acc; cbn [fold_left map];
    [reflexivity | apply IH].
Qed.

Lemma center_means (balloons : list BalloonPosition) :
  balloons <> [] ->
  View.center balloons
  = (mean (map BalloonData.lat balloons), mean (map lon balloons)).
Proof.
  intros Hne. destruct balloons as [| p rest]; [contradiction |].
  unfold View.center, mean.
  change (0 <? List.length (p :: rest))%nat with true. cbv iota.
  rewrite (fold_sum_map BalloonData.lat (p :: rest)).
  rewrite (fold_sum_map lon (p :: rest)).
  rewrite !length_map. reflexivity.
Qed.

(** X13. The initial view of the map, for the balloons the application
    extracts.  Without balloons the centre is [39.8283, -98.5795] and the
    zoom 2; otherwise the zoom is 3 and the centre is the mean latitude
    and the mean longitude.  In both cases the centre is a pair of numbers,
    never NaN, so that Leaflet accepts it. *)
Theorem initial_view_is_numeric (data24h : list value) :
  exists balloons,
    extractBalloonPositionsLimited data24h = Normal balloons
    /\ (balloons = [] ->
        View.center balloons = defaultCenter
        /\ View.zoom balloons = num_of_Z 2)
    /\ (balloons <> [] ->
        View.center balloons
        = (mean (map BalloonData.lat balloons), mean (map lon balloons))
        /\ View.zoom balloons = num_of_Z 3)
    /\ isNaN (fst (View.center balloons)) = false
    /\ isNaN (snd (View.center balloons)) = false
    /\ newLatLng (Some (fst (View.center balloons)))
                 (Some (snd (View.center balloons)))
       = Normal {| lat := fst (View.center balloons);
                   lng := snd (View.center balloons) |}.
Proof.
  exists (firstn 100 (allPositions data24h 0)).
  destruct (limited_in_range data24h) as [Hall Hlen].
  set (balloons := firstn 100 (allPositions data24h 0)) in *.
  split; [apply IdentityFacts.limited_eq |].
  split; [intros ->; split; reflexivity |].
  split.
  { intros Hne. split; [apply center_means; exact Hne |].
    destruct balloons; [contradiction | reflexivity]. }
  assert (Hnum : isNaN (fst (View.center balloons)) = false
                 /\ isNaN (snd (View.center balloons)) = false).
  { destruct balloons as [| p rest] eqn:E; [split; vm_compute; reflexivity |].
    rewrite <- E in *.
    assert (Hne : balloons <> []) by (rewrite E; discriminate).
    rewrite (center_means balloons Hne). cbn [fst snd].
    assert (Hbig : (Z.of_nat (List.length balloons) < 2 ^ 53)%Z).
    { apply Z.le_lt_trans with 100%Z; [lia | reflexivity]. }
    split; apply NavigatorFacts.mean_not_NaN;
      try (rewrite length_map; exact Hbig);
      try (intros Hnil; apply map_eq_nil in Hnil; contradiction);
      apply forallb_forall; intros x Hx; apply in_map_iff in Hx;
      destruct Hx as (q & <- & Hq); rewrite Forall_forall in Hall;
      apply (ExtractionFacts.in_range_finite _ _ (Hall q Hq)). }
  destruct Hnum as [H1 H2].
  split; [exact H1 |]. split; [exact H2 |].
  unfold newLatLng. rewrite H1, H2. reflexivity.
Qed.

End ViewFacts.

(* ================================================================== *)
(** * Theorems: the requests and what the application shows *)
(* ================================================================== *)

Module ApiFacts.
Import Js BalloonData BalloonApi Extraction Literals Merge Requests.
Local Open Scope string_scope.
Local Open Scope list_scope.

Lemma string_of_nat_nonempty (n : nat) : string_of_nat n <> "".
Proof.
  rewrite IdentityFacts.string_of_nat_eq.
  pose proof (IdentityFacts.to_uint_nonnil n) as H.
  destruct (Nat.to_uint n); [contradiction | discriminate ..].
Qed.

(** Only zero is written with a leading zero. *)
Lemma string_of_nat_leading_zero (n : nat) (r : string) :
  string_of_nat n = String "0" r -> r = "".
Proof.
  rewrite IdentityFacts.string_of_nat_eq. intros H.
  pose proof (IdentityFacts.to_uint_normal n) as Hn.
  destruct (Nat.to_uint n) as [| d | d | d | d | d | d | d | d | d | d];
    cbn [NilEmpty.string_of_uint] in H; try discriminate.
  inversion H as [Hr]. clear H.
  rewrite DecimalFacts.unorm_D0 in Hn. unfold Decimal.unorm in Hn.
  destruct (Decimal.nzhead d) eqn:Hz.
  - inversion Hn. reflexivity.
  - exfalso. apply (DecimalFacts.nzhead_nonzero d d). congruence.
  - discriminate.
  - discriminate.
  - discriminate.
  - discriminate.
  - discriminate.
  - discriminate.
  - discriminate.
  - discriminate.
  - discriminate.
Qed.

Lemma padStart_two (s : string) :
  s <> "" ->
  padStart 2 "0" s = if (String.length s <? 2)%nat then String "0" s else s.
Proof.
  destruct s as [| c [| c' r]]; intros H; [contradiction | reflexivity | reflexivity].
Qed.

Lemma hourFile_eq (h : nat) :
  hourFile h
  = if (String.length (string_of_nat h) <? 2)%nat
    then String "0" (string_of_nat h) else string_of_nat h.
Proof. unfold hourFile. apply padStart_two. apply string_of_nat_nonempty. Qed.

Lemma hourFile_digits (h : nat) : all_digits (hourFile h) = true.
Proof.
  rewrite hourFile_eq.
  destruct (String.length (string_of_nat h) <? 2)%nat; cbn [all_digits];
    rewrite IdentityFacts.string_of_nat_digits; reflexivity.
Qed.

Lemma hourFile_inj (h h' : nat) : hourFile h = hourFile h' -> h = h'.
Proof.
  rewrite !hourFile_eq.
  destruct (String.length (string_of_nat h) <? 2)%nat eqn:E;
    destruct (String.length (string_of_nat h') <? 2)%nat eqn:E'; intros H.
  - inversion H. apply IdentityFacts.string_of_nat_inj. assumption.
  - symmetry in H. pose proof (string_of_nat_leading_zero h' _ H) as Hr.
    rewrite H in E'. apply Nat.ltb_ge in E'. cbn [String.length] in E'.
    rewrite Hr in E'. cbn [String.length] in E'. lia.
  - pose proof (string_of_nat_leading_zero h _ H) as Hr.
    rewrite H in E. apply Nat.ltb_ge in E. cbn [String.length] in E.
    rewrite Hr in E. cbn [String.length] in E. lia.
  - apply IdentityFacts.string_of_nat_inj. exact H.
Qed.

Lemma append_cancel_l (a x y : string) : (a ++ x)%string = (a ++ y)%string -> x = y.
Proof.
  induction a as [| c r IH]; cbn [String.append]; intros H; [exact H |].
  inversion H. apply IH. assumption.
Qed.

Lemma hourUrl_inj (BASE : string) (h h' : nat) :
  hourUrl BASE h = hourUrl BASE h' -> h = h'.
Proof.
  unfold hourUrl. intros H.
  apply append_cancel_l in H. apply (append_cancel_l "/") in H.
  apply hourFile_inj.
  exact (proj1 (IdentityFacts.split_at_mark "." _ _ "json" "json" eq_refl
                  (hourFile_digits h) (hourFile_digits h') H)).
Qed.

(** X14. The address of an hour: the hour in decimal, with a zero in front
    when it has a single digit, so two characters for each of the 24 hours
    of the loop.  Distinct hours have distinct addresses: no two requests
    of [fetchLast24Hours] ask for the same file. *)
Theorem hour_urls_distinct (BASE : string) :
  (forall h, (h < 10)%nat -> hourFile h = String "0" (string_of_nat h))
  /\ (forall h, (h < 24)%nat -> String.length (hourFile h) = 2%nat)
  /\ (forall h, all_digits (hourFile h) = true)
  /\ (forall h h', hourFile h = hourFile h' -> h = h')
  /\ (forall h h', hourUrl BASE h = hourUrl BASE h' -> h = h')
  /\ NoDup (map (hourUrl BASE) (seq 0 24))
  /\ hourUrl "/treasure" 0 = "/treasure/00.json"
  /\ hourUrl "/treasure" 7 = "/treasure/07.json"
  /\ hourUrl "/treasure" 23 = "/treasure/23.json".
Proof.
  split.
  { intros h Hlt. do 10 (destruct h as [| h]; [reflexivity |]). lia. }
  split.
  { intros h Hlt. do 24 (destruct h as [| h]; [reflexivity |]). lia. }
  split; [exact hourFile_digits |].
  split; [exact hourFile_inj |].
  split; [exact (hourUrl_inj BASE) |].
  split.
  { apply IdentityFacts.NoDup_map_injective; [exact (hourUrl_inj BASE) | apply seq_NoDup]. }
  repeat split; reflexivity.
Qed.

Lemma filter_all {A} (f : A -> bool) (l : list A) :
  List.length (filter f l) = List.length l <-> forallb f l = true.
Proof.
  induction l as [| a rest IH]; cbn [filter forallb List.length]; [tauto |].
  pose proof (filter_length_le f rest) as Hle.
  destruct (f a); cbn [List.length andb].
  - rewrite <- IH. split; intros H; lia.
  - split; [intros H; lia | discriminate].
Qed.

Lemma truthy_not_null (v : value) : truthy v = true -> not_null v = true.
Proof. destruct v; try reflexivity. discriminate. Qed.

(** X15. [fetchLast24Hours] removes the hours whose request failed before
    the snapshots are numbered.  The snapshot of hour [h] is therefore
    extracted with the number of earlier hours that succeeded: its
    positions carry that number as [hourIndex] and in their id; it is the
    hour itself only if no earlier request failed. *)
Theorem failed_hours_shift_labels (BASE : string) (fetch : network) (h : nat) :
  (h < 24)%nat -> truthy (fetchBalloonHour BASE fetch h) = true ->
  exists before ps after,
    extractBalloonPositions (fetchBalloonHour BASE fetch h)
                            (succeeded BASE fetch h) = Normal ps
    /\ extractAllBalloonPositions (fetchLast24Hours BASE fetch)
       = Normal (before ++ ps ++ after)
    /\ Forall (fun p => hourIndex p = Some (succeeded BASE fetch h)) ps
    /\ (succeeded BASE fetch h <= h)%nat
    /\ (succeeded BASE fetch h = h
        <-> forallb not_null (map (fetchBalloonHour BASE fetch) (seq 0 h)) = true).
Proof.
  intros Hlt Ht.
  set (f := fetchBalloonHour BASE fetch) in *.
  set (pre := filter not_null (map f (seq 0 h))).
  set (post := filter not_null (map f (seq (S h) (23 - h)))).
  assert (Hsplit : fetchLast24Hours BASE fetch = pre ++ f h :: post).
  { unfold fetchLast24Hours. fold f.
    replace 24 with (h + S (23 - h)) by lia.
    rewrite seq_app, map_app, filter_app. cbn [seq map filter plus].
    rewrite (truthy_not_null _ Ht). reflexivity. }
  exists (allPositions pre 0),
         (collect (succeeded BASE fetch h) (rawSequence (f h)) 0),
         (allPositions post (S (List.length pre))).
  split; [apply ExtractionFacts.extractBalloonPositions_eq |].
  split.
  { rewrite IdentityFacts.extractAll_eq, Hsplit, IdentityFacts.allPositions_app.
    cbn [allPositions plus]. rewrite Ht. reflexivity. }
  split.
  { eapply Forall_impl; [| apply IdentityFacts.collect_hours].
    intros p [Hp _]. exact Hp. }
  assert (Hlen : List.length (map f (seq 0 h)) = h)
    by (rewrite length_map, length_seq; reflexivity).
  split.
  { unfold succeeded. fold f. rewrite <- Hlen at 2. apply filter_length_le. }
  unfold succeeded. fold f. rewrite <- Hlen at 2. apply filter_all.
Qed.

Lemma failed_hours_shift_labels_witness :
  exists before ps after,
    extractBalloonPositions (fetchBalloonHour "/treasure" currentHourMissing 1)
                            (succeeded "/treasure" currentHourMissing 1) = Normal ps
    /\ extractAllBalloonPositions (fetchLast24Hours "/treasure" currentHourMissing)
       = Normal (before ++ ps ++ after)
    /\ Forall (fun p => hourIndex p = Some (succeeded "/treasure" currentHourMissing 1)) ps
    /\ (succeeded "/treasure" currentHourMissing 1 <= 1)%nat
    /\ (succeeded "/treasure" currentHourMissing 1 = 1%nat
        <-> forallb not_null
              (map (fetchBalloonHour "/treasure" currentHourMissing) (seq 0 1)) = true).
Proof.
  apply (failed_hours_shift_labels "/treasure" currentHourMissing 1);
    [lia | reflexivity].
Defined.

Lemma rawSequence_falsy (data : value) :
  truthy data = false -> rawSequence data = [].
Proof. destruct data; try reflexivity; discriminate. Qed.

(** X16. What the application shows: the hook is in test mode and asks for
    the current hour alone, so the balloons are the first 100 positions of
    that snapshot, all labelled hour 0 and in range; nothing is shown when
    the request fails, is answered with an error status or with a body
    that is no JSON.  Only the answer to [<BASE>/00.json] matters. *)
Theorem app_shows_current_hour (BASE : string) (fetch : network) :
  exists ps,
    extractBalloonPositions (fetchBalloonHour BASE fetch 0) 0 = Normal ps
    /\ balloons BASE fetch = Normal (firstn 100 ps)
    /\ Forall (fun p => hourIndex p = Some 0%nat
                        /\ in_range (lat p) (lon p) = true) ps
    /\ (fetch (BASE ++ "/00.json")%string = Rejected -> ps = [])
    /\ (forall status json,
          fetch (BASE ++ "/00.json")%string = Response false status json -> ps = [])
    /\ (forall status,
          fetch (BASE ++ "/00.json")%string = Response true status None -> ps = [])
    /\ (forall fetch',
          fetch' (BASE ++ "/00.json")%string = fetch (BASE ++ "/00.json")%string ->
          balloons BASE fetch' = balloons BASE fetch).
Proof.
  assert (Hurl : hourUrl BASE 0 = (BASE ++ "/00.json")%string) by reflexivity.
  assert (Hshow : forall g,
            balloons BASE g
            = Normal (firstn 100
                        (collect 0 (rawSequence (fetchBalloonHour BASE g 0)) 0))).
  { intros g. unfold balloons, load, fetchCurrentHour. cbn [HOOK_TEST_MODE].
    destruct (truthy (fetchBalloonHour BASE g 0)) eqn:Ht;
      rewrite IdentityFacts.limited_eq; cbn [allPositions].
    - rewrite Ht, List.app_nil_r. reflexivity.
    - rewrite (rawSequence_falsy _ Ht). reflexivity. }
  exists (collect 0 (rawSequence (fetchBalloonHour BASE fetch 0)) 0).
  split; [apply ExtractionFacts.extractBalloonPositions_eq |].
  split; [apply Hshow |].
  split; [apply IdentityFacts.collect_hours |].
  unfold fetchBalloonHour. rewrite Hurl.
  split; [intros ->; reflexivity |].
  split; [intros status json ->; reflexivity |].
  split; [intros status ->; reflexivity |].
  intros fetch' E. rewrite !Hshow. unfold fetchBalloonHour. rewrite Hurl, E.
  reflexivity.
Qed.

End ApiFacts.
